(** * Reality Filter: the article aggregate, the analysis service and its adapters

  A shallow embedding of the Go sources.  The Go packages become modules of
  the same name ([domain], [secondary], [primary], [mongodb], [redis],
  [application], [handler]); methods keep their names.

  Conventions of the embedding.
  - [float64] is IEEE 754 binary64, that is, Rocq's primitive [float]; every
    operation is rounded on its own, as the Go compiler does on amd64.
  - A Go [error] is [option error], [None] being [nil]; a Go pointer result
    [*Article] is [option Article], [None] being the [nil] pointer.
  - A method with a pointer receiver returns the new value of the receiver.
  - [time.Now()], [uuid.New()], the MongoDB collection and the Redis
    key space are explicit state.
  - The process runs in the UTC time zone, so that the date of a
    [time.Time] is the date of its instant. *)

Set Warnings "-inexact-float".
From stdpp Require Import gmap strings.
From Stdlib Require Import ZArith Floats Lia.

(** ** Values of the Go runtime and of the client libraries *)

Module go.

(** Error values.  The two sentinels are compared with [==] in the
    adapters; [Errorf prefix cause] is [fmt.Errorf("<prefix>: %w", cause)]. *)
Inductive error :=
| ErrNoDocuments                          (* mongo.ErrNoDocuments *)
| RedisNil                                (* redis.Nil *)
| ErrOther (msg : string)                 (* any other error value *)
| Errorf (prefix : string) (cause : error).

(** The text [err.Error()] prints, used by [%v]. *)
Fixpoint Error (e : error) : string :=
  match e with
  | ErrNoDocuments => "mongo: no documents in result"
  | RedisNil => "redis: nil"
  | ErrOther msg => msg
  | Errorf prefix cause => prefix +:+ ": " +:+ Error cause
  end.

Definition is_ErrNoDocuments (e : error) : bool :=
  match e with ErrNoDocuments => true | _ => false end.

Definition is_RedisNil (e : error) : bool :=
  match e with RedisNil => true | _ => false end.

(** A [time.Time] instant, counted in nanoseconds from Go's zero time,
    January 1 of year 1, 00:00:00 UTC. *)
Definition Time := Z.
Definition IsZero (t : Time) : bool := (t =? 0)%Z.

(** A [time.Duration], in nanoseconds. *)
Definition Duration := Z.
Definition Millisecond : Duration := 1000000%Z.
Definition Second : Duration := (1000 * Millisecond)%Z.
Definition Hour : Duration := (3600 * Second)%Z.

(** The first instant of year 0 and the first instant of year 10000: year
    0 has 366 days, the years 1 to 9999 have 3652059. *)
Definition year_0 : Time := (- 366 * 24 * Hour)%Z.
Definition year_10000 : Time := (3652059 * 24 * Hour)%Z.

(** A [uuid.UUID], identified by the text [String()] prints. *)
Definition UUID := string.
Definition UUID_String (u : UUID) : string := u.

(** What the process reads from its environment: the wall clock, whose
    successive readings are [readings 0], [readings 1], ..., and the
    random source behind [uuid.New()]. *)
Record Sys := {
  readings : nat -> Time;
  ticks : nat;
  uuids : nat -> UUID;
  drawn : nat
}.

Definition time_Now (y : Sys) : Time * Sys :=
  (readings y (ticks y),
   {| readings := readings y; ticks := S (ticks y);
      uuids := uuids y; drawn := drawn y |}).

Definition uuid_New (y : Sys) : UUID * Sys :=
  (uuids y (drawn y),
   {| readings := readings y; ticks := ticks y;
      uuids := uuids y; drawn := S (drawn y) |}).

(** [float64(n)] for an [int] [n]: the integer rounded to nearest even. *)
Definition float64_of_int (n : Z) : float :=
  SF2Prim (binary_normalize prec emax n 0 false).

(** [len(s)] of a string, as an [int]. *)
Definition len_string (s : string) : Z := Z.of_nat (String.length s).

(** A function that can end in a run-time panic. *)
Inductive outcome (A : Type) :=
| Returns (x : A)
| Panics (msg : string).
Arguments Returns {A} x.
Arguments Panics {A} msg.

(** The text of the run-time error of a nil pointer dereference. *)
Definition nil_dereference : string :=
  "runtime error: invalid memory address or nil pointer dereference".

(** *** UTF-8, as package [unicode/utf8] reads it *)

Definition byte_in (lo hi : N) (c : Ascii.ascii) : bool :=
  ((lo <=? Ascii.N_of_ascii c) && (Ascii.N_of_ascii c <=? hi))%N.

(** A continuation byte. *)
Definition cont (c : Ascii.ascii) : bool := byte_in 128 191 c.

(** The first two bytes of an encoding of three bytes: no overlong form,
    no surrogate half. *)
Definition lead3 (b0 b1 : Ascii.ascii) : bool :=
  byte_in 224 224 b0 && byte_in 160 191 b1
  || (byte_in 225 236 b0 || byte_in 238 239 b0) && cont b1
  || byte_in 237 237 b0 && byte_in 128 159 b1.

(** The first two bytes of an encoding of four bytes: no overlong form,
    nothing above U+10FFFF. *)
Definition lead4 (b0 b1 : Ascii.ascii) : bool :=
  byte_in 240 240 b0 && byte_in 144 191 b1
  || byte_in 241 243 b0 && cont b1
  || byte_in 244 244 b0 && byte_in 128 143 b1.

(** The width of the encoded rune [s] starts with, [0] when [s] is empty
    or starts with no encoded rune: where [utf8.DecodeRuneInString]
    returns [RuneError] with the width [1]. *)
Definition rune_width (s : string) : nat :=
  match s with
  | EmptyString => 0
  | String b0 s1 =>
      if byte_in 0 127 b0 then 1
      else
        match s1 with
        | EmptyString => 0
        | String b1 s2 =>
            if byte_in 194 223 b0 then (if cont b1 then 2 else 0)
            else
              match s2 with
              | EmptyString => 0
              | String b2 s3 =>
                  if lead3 b0 b1 then (if cont b2 then 3 else 0)
                  else
                    match s3 with
                    | EmptyString => 0
                    | String b3 _ =>
                        if lead4 b0 b1 && cont b2 && cont b3 then 4 else 0
                    end
              end
        end
  end.

(** U+FFFD, the replacement character, in UTF-8. *)
Definition replacement : string :=
  String (Ascii.ascii_of_N 239)
    (String (Ascii.ascii_of_N 191) (String (Ascii.ascii_of_N 189) "")).

(** [utf8.ValidString], reading [s] after the first [pending] bytes, which
    end a rune already accepted. *)
Fixpoint valid_after (pending : nat) (s : string) : bool :=
  match s with
  | EmptyString => true
  | String b rest =>
      match pending with
      | S k => valid_after k rest
      | O =>
          match rune_width s with
          | O => false
          | S k => valid_after k rest
          end
      end
  end.

Definition ValidString (s : string) : bool := valid_after 0 s.

(** The string with every byte that starts no encoded rune replaced by
    U+FFFD: what a string becomes when [encoding/json] writes it, and
    when it reads it. *)
Fixpoint scrub_after (pending : nat) (s : string) : string :=
  match s with
  | EmptyString => EmptyString
  | String b rest =>
      match pending with
      | S k => String b (scrub_after k rest)
      | O =>
          match rune_width s with
          | O => replacement +:+ scrub_after 0 rest
          | S k => String b (scrub_after k rest)
          end
      end
  end.

Definition scrub (s : string) : string := scrub_after 0 s.

End go.
Export go.

(** ** package domain *)

Module domain.

Definition EntityType := string.
Definition EntityTypePerson : EntityType := "PERSON".
Definition EntityTypePlace : EntityType := "PLACE".
Definition EntityTypeDate : EntityType := "DATE".
Definition EntityTypeOrg : EntityType := "ORGANIZATION".
Definition EntityTypeProduct : EntityType := "PRODUCT".

Record Entity := {
  Entity_Type : EntityType;
  Entity_Value : string
}.

Definition FlagType := string.
Definition FlagTypeClickbait : FlagType := "CLICKBAIT".
Definition FlagTypeMisleading : FlagType := "MISLEADING".
Definition FlagTypeBiased : FlagType := "BIASED".
Definition FlagTypeUnverified : FlagType := "UNVERIFIED".
Definition FlagTypeFactualError : FlagType := "FACTUAL_ERROR".
Definition FlagTypeHateSpeech : FlagType := "HATE_SPEECH".
Definition FlagTypeSpam : FlagType := "SPAM".

Record Flag := {
  Flag_Type : FlagType;
  Flag_Confidence : float;
  Flag_Details : string;
  Flag_DetectedAt : Time;
  Flag_DetectedBy : string
}.

Definition ArticleStatus := string.
Definition ArticleStatusPending : ArticleStatus := "PENDING".
Definition ArticleStatusAnalyzed : ArticleStatus := "ANALYZED".
Definition ArticleStatusFlagged : ArticleStatus := "FLAGGED".
Definition ArticleStatusVerified : ArticleStatus := "VERIFIED".
Definition ArticleStatusRejected : ArticleStatus := "REJECTED".

Record ArticleMetadata := {
  Entities : list Entity;
  Sentiment : float;
  Language : string;
  WordCount : Z;
  ReadingTime : Z
}.

Record Article := {
  ID : UUID;
  Title : string;
  Content : string;
  Source : string;
  Author : string;
  Tags : list string;
  CreatedAt : Time;
  UpdatedAt : Time;
  Score : float;
  Flags : list Flag;
  Status : ArticleStatus;
  MetaData : ArticleMetadata
}.

(** Assignments to one field of an article. *)
Definition set_CreatedAt (t : Time) (a : Article) : Article :=
  {| ID := ID a; Title := Title a; Content := Content a; Source := Source a;
     Author := Author a; Tags := Tags a; CreatedAt := t;
     UpdatedAt := UpdatedAt a; Score := Score a; Flags := Flags a;
     Status := Status a; MetaData := MetaData a |}.

Definition set_UpdatedAt (t : Time) (a : Article) : Article :=
  {| ID := ID a; Title := Title a; Content := Content a; Source := Source a;
     Author := Author a; Tags := Tags a; CreatedAt := CreatedAt a;
     UpdatedAt := t; Score := Score a; Flags := Flags a;
     Status := Status a; MetaData := MetaData a |}.

Definition set_Score (x : float) (a : Article) : Article :=
  {| ID := ID a; Title := Title a; Content := Content a; Source := Source a;
     Author := Author a; Tags := Tags a; CreatedAt := CreatedAt a;
     UpdatedAt := UpdatedAt a; Score := x; Flags := Flags a;
     Status := Status a; MetaData := MetaData a |}.

Definition set_Flags (fs : list Flag) (a : Article) : Article :=
  {| ID := ID a; Title := Title a; Content := Content a; Source := Source a;
     Author := Author a; Tags := Tags a; CreatedAt := CreatedAt a;
     UpdatedAt := UpdatedAt a; Score := Score a; Flags := fs;
     Status := Status a; MetaData := MetaData a |}.

Definition set_Status (s : ArticleStatus) (a : Article) : Article :=
  {| ID := ID a; Title := Title a; Content := Content a; Source := Source a;
     Author := Author a; Tags := Tags a; CreatedAt := CreatedAt a;
     UpdatedAt := UpdatedAt a; Score := Score a; Flags := Flags a;
     Status := s; MetaData := MetaData a |}.

Definition set_MetaData (m : ArticleMetadata) (a : Article) : Article :=
  {| ID := ID a; Title := Title a; Content := Content a; Source := Source a;
     Author := Author a; Tags := Tags a; CreatedAt := CreatedAt a;
     UpdatedAt := UpdatedAt a; Score := Score a; Flags := Flags a;
     Status := Status a; MetaData := m |}.

(** [NewArticle]: the zero value of [Score] is [0], of the metadata's
    scalar fields [0] and the empty string. *)
Definition NewArticle (title content source author : string)
    (tags : list string) (y : Sys) : Article * Sys :=
  let (now, y) := time_Now y in
  let (id, y) := uuid_New y in
  ({| ID := id; Title := title; Content := content; Source := source;
      Author := author; Tags := tags; CreatedAt := now; UpdatedAt := now;
      Score := 0%float; Flags := [];
      Status := ArticleStatusPending;
      MetaData := {| Entities := []; Sentiment := 0%float; Language := "";
                     WordCount := 0%Z; ReadingTime := 0%Z |} |}, y).

Definition AddFlag (flagType : FlagType) (confidence : float)
    (details detectedBy : string) (a : Article) (y : Sys) : Article * Sys :=
  let (detectedAt, y) := time_Now y in
  let flag := {| Flag_Type := flagType; Flag_Confidence := confidence;
                 Flag_Details := details; Flag_DetectedAt := detectedAt;
                 Flag_DetectedBy := detectedBy |} in
  let a := set_Flags (Flags a ++ [flag]) a in
  let a := if (0 <? Z.of_nat (length (Flags a)))%Z
           then set_Status ArticleStatusFlagged a else a in
  let (now, y) := time_Now y in
  (set_UpdatedAt now a, y).

Definition UpdateScore (score : float) (a : Article) (y : Sys)
    : Article * Sys :=
  let a := set_Score score a in
  let (now, y) := time_Now y in
  (set_UpdatedAt now a, y).

Definition UpdateStatus (status : ArticleStatus) (a : Article) (y : Sys)
    : Article * Sys :=
  let a := set_Status status a in
  let (now, y) := time_Now y in
  (set_UpdatedAt now a, y).

Definition UpdateMetadata (metadata : ArticleMetadata) (a : Article)
    (y : Sys) : Article * Sys :=
  let a := set_MetaData metadata a in
  let (now, y) := time_Now y in
  (set_UpdatedAt now a, y).

End domain.
Export domain.

(** ** The world outside the process *)

Module world.

(** The value of [_id] in a BSON filter keeps the Go type it was built
    from: [Save] and [Update] filter on [article.ID], a [uuid.UUID];
    [FindByID] filters on its [string] argument. *)
Inductive bson_id :=
| IdUUID (u : UUID)
| IdString (s : string).

#[global] Instance bson_id_eq_dec : EqDecision bson_id.
Proof. solve_decision. Defined.

#[global] Instance bson_id_countable : Countable bson_id :=
  inj_countable'
    (fun i => match i with IdUUID u => inl u | IdString s => inr s end)
    (fun c => match c with inl u => IdUUID u | inr s => IdString s end)
    (fun i => match i with IdUUID _ | IdString _ => eq_refl end).

(** The bytes a Redis key holds: the encoding [json.Marshal] gives for
    an article, or any other bytes, with the error [json.Unmarshal]
    reports for them. *)
Inductive bytes :=
| JSONOf (a : Article)
| Garbage (s : string) (err : error).

(** A key of the Redis server: its value and, when the key was set with a
    time to live, the last millisecond of the server's clock at which it
    is still there. *)
Record Entry := {
  value_of : bytes;
  deadline : option Z
}.

(** The state of the two stores and of the process environment.  Every
    request sent to a store takes the next entry of its fault schedule:
    [Some e] makes the client library return [e] without touching the
    store.  The Redis server handles its [n]-th request when its clock, in
    milliseconds, reads [redis_now n]. *)
Record World := {
  sys : Sys;
  mongo_docs : gmap bson_id Article;
  mongo_faults : nat -> option error;
  mongo_calls : nat;
  redis_keys : gmap string Entry;
  redis_faults : nat -> option error;
  redis_calls : nat;
  redis_now : nat -> Z
}.

Definition set_sys (y : Sys) (w : World) : World :=
  {| sys := y; mongo_docs := mongo_docs w; mongo_faults := mongo_faults w;
     mongo_calls := mongo_calls w; redis_keys := redis_keys w;
     redis_faults := redis_faults w; redis_calls := redis_calls w;
     redis_now := redis_now w |}.

Definition set_mongo (docs : gmap bson_id Article) (w : World) : World :=
  {| sys := sys w; mongo_docs := docs; mongo_faults := mongo_faults w;
     mongo_calls := mongo_calls w; redis_keys := redis_keys w;
     redis_faults := redis_faults w; redis_calls := redis_calls w;
     redis_now := redis_now w |}.

Definition set_redis (keys : gmap string Entry) (w : World) : World :=
  {| sys := sys w; mongo_docs := mongo_docs w; mongo_faults := mongo_faults w;
     mongo_calls := mongo_calls w; redis_keys := keys;
     redis_faults := redis_faults w; redis_calls := redis_calls w;
     redis_now := redis_now w |}.

(** The fault, if any, of the next MongoDB request. *)
Definition mongo_request (w : World) : option error * World :=
  (mongo_faults w (mongo_calls w),
   {| sys := sys w; mongo_docs := mongo_docs w; mongo_faults := mongo_faults w;
      mongo_calls := S (mongo_calls w); redis_keys := redis_keys w;
      redis_faults := redis_faults w; redis_calls := redis_calls w;
      redis_now := redis_now w |}).

(** The fault, if any, of the next Redis request. *)
Definition redis_request (w : World) : option error * World :=
  (redis_faults w (redis_calls w),
   {| sys := sys w; mongo_docs := mongo_docs w; mongo_faults := mongo_faults w;
      mongo_calls := mongo_calls w; redis_keys := redis_keys w;
      redis_faults := redis_faults w; redis_calls := S (redis_calls w);
      redis_now := redis_now w |}).

(** A method of the domain run on the world's clock. *)
Definition on_sys {A : Type} (f : Sys -> A * Sys) (w : World) : A * World :=
  let (x, y) := f (sys w) in (x, set_sys y w).

(** [collection.UpdateOne(ctx, bson.M{"_id": id}, bson.M{"$set": doc}, opts)]:
    the matched count and the error. *)
Definition UpdateOne (id : bson_id) (doc : Article) (upsert : bool)
    (w : World) : (Z * option error) * World :=
  let (fault, w) := mongo_request w in
  match fault with
  | Some e => ((0%Z, Some e), w)
  | None =>
      match mongo_docs w !! id with
      | Some _ => ((1%Z, None), set_mongo (<[id := doc]> (mongo_docs w)) w)
      | None =>
          if upsert
          then ((0%Z, None), set_mongo (<[id := doc]> (mongo_docs w)) w)
          else ((0%Z, None), w)
      end
  end.

(** [collection.FindOne(ctx, bson.M{"_id": id}).Decode(&article)]: the
    decoded article, or the error. *)
Definition FindOne_Decode (id : bson_id) (w : World)
    : (Article + error) * World :=
  let (fault, w) := mongo_request w in
  match fault with
  | Some e => (inr e, w)
  | None =>
      match mongo_docs w !! id with
      | Some doc => (inl doc, w)
      | None => (inr ErrNoDocuments, w)
      end
  end.

(** The entry the server finds under [key] when its clock reads [now]: a
    key whose deadline has passed is gone. *)
Definition live (keys : gmap string Entry) (key : string) (now : Z)
    : option Entry :=
  match keys !! key with
  | Some entry =>
      match deadline entry with
      | Some last => if (last <? now)%Z then None else Some entry
      | None => Some entry
      end
  | None => None
  end.

(** [client.Get(ctx, key).Bytes()]. *)
Definition client_Get (key : string) (w : World) : (bytes + error) * World :=
  let now := redis_now w (redis_calls w) in
  let (fault, w) := redis_request w in
  match fault with
  | Some e => (inr e, w)
  | None =>
      match live (redis_keys w) key now with
      | Some entry => (inl (value_of entry), w)
      | None => (inr RedisNil, w)
      end
  end.

(** What the client adds to the [SET] command for an expiration:
    [PX] milliseconds when the expiration is below a second or no whole
    number of seconds, [EX] seconds otherwise, [KEEPTTL] for
    [redis.KeepTTL], nothing for zero and for the other negative
    durations. *)
Definition KeepTTL : Duration := (-1)%Z.

Inductive Expiry :=
| PX (milliseconds : Z)
| EX (seconds : Z)
| KEEPTTL
| Persist.

Definition usePrecise (dur : Duration) : bool :=
  (dur <? Second)%Z || negb (Z.rem dur Second =? 0)%Z.

Definition formatMs (dur : Duration) : Z :=
  if (0 <? dur)%Z && (dur <? Millisecond)%Z then 1%Z
  else Z.quot dur Millisecond.

Definition formatSec (dur : Duration) : Z :=
  if (0 <? dur)%Z && (dur <? Second)%Z then 1%Z
  else Z.quot dur Second.

Definition expiry (expiration : Duration) : Expiry :=
  if (0 <? expiration)%Z
  then (if usePrecise expiration then PX (formatMs expiration)
        else EX (formatSec expiration))
  else if (expiration =? KeepTTL)%Z then KEEPTTL else Persist.

(** The deadline the server gives a key set with these options when its
    clock reads [now]; [old] is the entry it finds under the key. *)
Definition new_deadline (e : Expiry) (now : Z) (old : option Entry)
    : option Z :=
  match e with
  | PX milliseconds => Some (now + milliseconds)%Z
  | EX seconds => Some (now + seconds * 1000)%Z
  | KEEPTTL =>
      match old with Some entry => deadline entry | None => None end
  | Persist => None
  end.

(** [client.Set(ctx, key, data, expiration).Err()]. *)
Definition client_Set (key : string) (data : bytes) (expiration : Duration)
    (w : World) : option error * World :=
  let now := redis_now w (redis_calls w) in
  let (fault, w) := redis_request w in
  match fault with
  | Some e => (Some e, w)
  | None =>
      let entry :=
        {| value_of := data;
           deadline := new_deadline (expiry expiration) now
                         (live (redis_keys w) key now) |} in
      (None, set_redis (<[key := entry]> (redis_keys w)) w)
  end.

(** *** [encoding/json] on articles

    The encoder goes through the fields in the order of their
    declaration and returns the first error it meets: it refuses a
    [float64] that is NaN or infinite, and [time.Time] refuses to encode
    an instant whose year is not within 0 and 9999.  In the strings it
    replaces every byte that is not part of valid UTF-8 by U+FFFD. *)

Definition first_error (errs : list (option error)) : option error :=
  foldr (fun e rest => match e with Some _ => e | None => rest end) None errs.

Definition json_float (x : float) : option error :=
  if PrimFloat.is_nan x
  then Some (ErrOther "json: unsupported value: NaN")
  else if PrimFloat.is_infinity x
  then (if (x <? 0)%float
        then Some (ErrOther "json: unsupported value: -Inf")
        else Some (ErrOther "json: unsupported value: +Inf"))
  else None.

Definition json_time (t : Time) : option error :=
  if (year_0 <=? t)%Z && (t <? year_10000)%Z then None
  else Some (ErrOther
    ("json: error calling MarshalJSON for type time.Time: "
     +:+ "Time.MarshalJSON: year outside of range [0,9999]")).

Definition json_Flag (flag : Flag) : option error :=
  first_error [json_float (Flag_Confidence flag);
               json_time (Flag_DetectedAt flag)].

Definition json_Flags (flags : list Flag) : option error :=
  first_error (map json_Flag flags).

Definition json_Metadata (metadata : ArticleMetadata) : option error :=
  json_float (Sentiment metadata).

Definition json_Article (a : Article) : option error :=
  first_error [json_time (CreatedAt a); json_time (UpdatedAt a);
               json_float (Score a); json_Flags (Flags a);
               json_Metadata (MetaData a)].

(** [json.Marshal(article)]. *)
Definition json_Marshal (a : Article) : bytes + error :=
  match json_Article a with
  | Some e => inr e
  | None => inl (JSONOf a)
  end.

(** What the encoding of a value decodes to: the value with its strings
    scrubbed.  An ID is written as the text of the UUID, which is ASCII;
    numbers and instants are written in full. *)
Definition decoded_Entity (e : Entity) : Entity :=
  {| Entity_Type := scrub (Entity_Type e);
     Entity_Value := scrub (Entity_Value e) |}.

Definition decoded_Flag (flag : Flag) : Flag :=
  {| Flag_Type := scrub (Flag_Type flag);
     Flag_Confidence := Flag_Confidence flag;
     Flag_Details := scrub (Flag_Details flag);
     Flag_DetectedAt := Flag_DetectedAt flag;
     Flag_DetectedBy := scrub (Flag_DetectedBy flag) |}.

Definition decoded_Metadata (m : ArticleMetadata) : ArticleMetadata :=
  {| Entities := map decoded_Entity (Entities m);
     Sentiment := Sentiment m;
     Language := scrub (Language m);
     WordCount := WordCount m;
     ReadingTime := ReadingTime m |}.

Definition decoded (a : Article) : Article :=
  {| ID := ID a;
     Title := scrub (Title a);
     Content := scrub (Content a);
     Source := scrub (Source a);
     Author := scrub (Author a);
     Tags := map scrub (Tags a);
     CreatedAt := CreatedAt a;
     UpdatedAt := UpdatedAt a;
     Score := Score a;
     Flags := map decoded_Flag (Flags a);
     Status := scrub (Status a);
     MetaData := decoded_Metadata (MetaData a) |}.

(** [json.Unmarshal(data, &article)]. *)
Definition json_Unmarshal (data : bytes) : Article + error :=
  match data with
  | JSONOf a => inl (decoded a)
  | Garbage _ err => inr err
  end.

(** [client.Del(ctx, key).Err()]: removing a key that is not there is
    no error. *)
Definition client_Del (key : string) (w : World) : option error * World :=
  let (fault, w) := redis_request w in
  match fault with
  | Some e => (Some e, w)
  | None => (None, set_redis (delete key (redis_keys w)) w)
  end.

End world.
Export world.

(** ** package secondary: the outbound ports *)

Module secondary.

(** The analyzers, the fact checker, the cache and the publisher read
    the article they are given; the repository hands back the article
    it was given, which its MongoDB adapter stamps. *)
Record ContentAnalyzer := {
  AnalyzeSentiment : string -> World -> (float * option error) * World;
  ExtractEntities : string -> World -> (list Entity * option error) * World;
  DetectBias : string -> World -> (list Flag * option error) * World
}.

Record FactChecker := {
  CheckFacts : Article -> World -> (list Flag * option error) * World;
  GetSourceReputation : string -> World -> (float * option error) * World
}.

Record EventPublisher := {
  PublishArticleAnalyzed : Article -> World -> option error * World;
  PublishArticleFlagged : Article -> World -> option error * World
}.

Record ArticleCache := {
  Cache_Set : Article -> World -> option error * World;
  Cache_Get : string -> World -> (option Article * option error) * World
}.

Record ArticleRepository := {
  Save : Article -> World -> (Article * option error) * World;
  FindByID : string -> World -> (option Article * option error) * World;
  Update : Article -> World -> (Article * option error) * World
}.

End secondary.
Export secondary.

(** ** package mongodb: the repository adapter *)

Module mongodb.

Definition Save (article : Article) (w : World)
    : (Article * option error) * World :=
  let (now, w) := on_sys time_Now w in
  let article := set_UpdatedAt now article in
  let article :=
    if IsZero (CreatedAt article)
    then set_CreatedAt (UpdatedAt article) article else article in
  let '((_, err), w) := UpdateOne (IdUUID (ID article)) article true w in
  ((article, err), w).

Definition FindByID (id : string) (w : World)
    : (option Article * option error) * World :=
  let (res, w) := FindOne_Decode (IdString id) w in
  match res with
  | inr err =>
      if is_ErrNoDocuments err then ((None, None), w)
      else ((None, Some err), w)
  | inl article => ((Some article, None), w)
  end.

Definition Update (article : Article) (w : World)
    : (Article * option error) * World :=
  let (now, w) := on_sys time_Now w in
  let article := set_UpdatedAt now article in
  let '((matched, err), w) :=
    UpdateOne (IdUUID (ID article)) article false w in
  match err with
  | Some e => ((article, Some e), w)
  | None =>
      if (matched =? 0)%Z then ((article, Some ErrNoDocuments), w)
      else ((article, None), w)
  end.

Definition NewArticleRepository : ArticleRepository :=
  {| secondary.Save := Save;
     secondary.FindByID := FindByID;
     secondary.Update := Update |}.

End mongodb.

(** ** package redis: the cache adapter wired in [main] *)

Module redis.

(** The time-to-live for cached articles. *)
Definition ArticleCacheTTL : Duration := (1 * Hour)%Z.

Definition getKey (id : string) : string := "article:" +:+ id.

Definition Set_ (article : Article) (w : World) : option error * World :=
  match json_Marshal article with
  | inr err => (Some err, w)
  | inl data =>
      client_Set (getKey (UUID_String (ID article))) data ArticleCacheTTL w
  end.

Definition Get (id : string) (w : World)
    : (option Article * option error) * World :=
  let key := getKey id in
  let (res, w) := client_Get key w in
  match res with
  | inr err =>
      if is_RedisNil err then ((None, None), w)
      else ((None, Some err), w)
  | inl data =>
      match json_Unmarshal data with
      | inr err => ((None, Some err), w)
      | inl article => ((Some article, None), w)
      end
  end.

Definition NewArticleCache : ArticleCache :=
  {| Cache_Set := Set_; Cache_Get := Get |}.

Definition Delete (id : string) (w : World) : option error * World :=
  let key := getKey id in
  client_Del key w.

End redis.

(** ** package cache: the second Redis adapter, not wired in [main] *)

Module cache.

(** [Set]; [ttl] is the field [c.ttl] of the receiver, which the other
    methods do not read. *)
Definition Set_ (ttl : Duration) (article : Article) (w : World)
    : option error * World :=
  match json_Marshal article with
  | inr err => (Some (Errorf "failed to marshal article" err), w)
  | inl data =>
      let key := "article:" +:+ UUID_String (ID article) in
      let (err, w) := client_Set key data ttl w in
      match err with
      | Some e => (Some (Errorf "failed to set article in cache" e), w)
      | None => (None, w)
      end
  end.

Definition Get (id : string) (w : World)
    : (option Article * option error) * World :=
  let key := "article:" +:+ id in
  let (res, w) := client_Get key w in
  match res with
  | inr err =>
      if is_RedisNil err
      then ((None, Some (ErrOther "article not found in cache")), w)
      else ((None, Some (Errorf "failed to get article from cache" err)), w)
  | inl data =>
      match json_Unmarshal data with
      | inr err => ((None, Some (Errorf "failed to unmarshal article" err)), w)
      | inl article => ((Some article, None), w)
      end
  end.

Definition NewRedisCache (ttl : Duration) : ArticleCache :=
  {| Cache_Set := Set_ ttl; Cache_Get := Get |}.

Definition Delete (id : string) (w : World) : option error * World :=
  let key := "article:" +:+ id in
  let (err, w) := client_Del key w in
  match err with
  | Some e => (Some (Errorf "failed to delete article from cache" e), w)
  | None => (None, w)
  end.

End cache.

(** ** Running the service: state, trace and console *)

Module exec.

(** The methods of the outbound ports. *)
Inductive Method :=
| M_AnalyzeSentiment | M_ExtractEntities | M_DetectBias
| M_CheckFacts | M_GetSourceReputation
| M_Save | M_FindByID | M_Update
| M_Cache_Set | M_Cache_Get
| M_PublishArticleAnalyzed | M_PublishArticleFlagged.

#[global] Instance Method_eq_dec : EqDecision Method.
Proof. solve_decision. Defined.

(** One call made through a port: the method, the article passed to it
    (if it takes one) and the error it returned. *)
Record Event := {
  method : Method;
  sent : option Article;
  failed : option error
}.

(** The service runs on the world; [trace] records its calls through the
    ports in order, [stdout] the lines it prints with [fmt.Printf]. *)
Record St := {
  st_world : World;
  trace : list Event;
  stdout : list string
}.

Definition M (A : Type) : Type := St -> A * St.

Definition ret {A : Type} (x : A) : M A := fun st => (x, st).

Definition bind {A B : Type} (m : M A) (k : A -> M B) : M B :=
  fun st => let (x, st) := m st in k x st.

(** A call through a port. *)
Definition call {A : Type} (m : Method) (arg : option Article)
    (errOf : A -> option error) (f : World -> A * World) : M A :=
  fun st =>
    let (x, w) := f (st_world st) in
    (x, {| st_world := w;
           trace := trace st ++ [{| method := m; sent := arg;
                                    failed := errOf x |}];
           stdout := stdout st |}).

(** A method of the domain, run on the process clock. *)
Definition dom {A : Type} (f : Sys -> A * Sys) : M A :=
  fun st =>
    let (x, w) := on_sys f (st_world st) in
    (x, {| st_world := w; trace := trace st; stdout := stdout st |}).

(** [fmt.Printf(format, err)] for a format that ends in [%v] and a newline. *)
Definition Printf (format : string) (err : error) : M unit :=
  fun st =>
    (tt, {| st_world := st_world st; trace := trace st;
            stdout := stdout st ++ [format +:+ Error err +:+ "
"] |}).

(** A run from a world, with an empty trace and console. *)
Definition start (w : World) : St :=
  {| st_world := w; trace := []; stdout := [] |}.

End exec.
Export exec.

Declare Scope go_scope.
Delimit Scope go_scope with go.
Notation "'let*' p ':=' m 'in' k" := (bind m (fun p => k))
  (at level 10, p pattern, m at level 200, k at level 200,
   only parsing) : go_scope.
Notation "'check' err 'or_return' r 'in' k" :=
  (match err with Some e => ret (r e) | None => k end)
  (at level 10, err at level 9, r at level 9, k at level 200,
   only parsing) : go_scope.
Notation "'log' err 'as' line 'in' k" :=
  (bind (match err with Some e => Printf line e | None => ret tt end)
        (fun _ => k))
  (at level 10, err at level 9, line at level 9, k at level 200,
   only parsing) : go_scope.
Open Scope go_scope.

(** ** package primary: the inbound ports *)

Module primary.

Record ArticleManager := {
  CreateArticle : Article -> M (option error * Article);
  GetArticle : string -> M (option Article * option error);
  UpdateArticleStatus : string -> ArticleStatus -> M (outcome (option error))
}.

Record ArticleAnalyzer := {
  AnalyzeArticle : Article -> M (option error * Article);
  GetAnalysisResult : string -> M (outcome (option Article * option error))
}.

(** The third method of the [ArticleAnalyzer] port. *)
Record ArticleReprocessor := {
  ReprocessArticle : string -> M (outcome (option error))
}.

End primary.

(** ** package application: the analysis service *)

Module application.

Record ArticleAnalyzerService := {
  repository : ArticleRepository;
  cache : ArticleCache;
  factChecker : FactChecker;
  contentAnalyzer : ContentAnalyzer;
  eventPublisher : EventPublisher
}.

Definition NewArticleAnalyzerService (repository : ArticleRepository)
    (cache : ArticleCache) (factChecker : FactChecker)
    (contentAnalyzer : ContentAnalyzer) (eventPublisher : EventPublisher)
    : ArticleAnalyzerService :=
  {| repository := repository; cache := cache; factChecker := factChecker;
     contentAnalyzer := contentAnalyzer; eventPublisher := eventPublisher |}.

Definition abs (x : float) : float :=
  if (x <? 0)%float then (- x)%float else x.

Definition max (x y : float) : float :=
  if (y <? x)%float then x else y.

Definition min (x y : float) : float :=
  if (x <? y)%float then x else y.

Definition calculateCredibilityScore (sourceScore sentiment : float)
    (numFlags : Z) : float :=
  let sentimentScore := (1.0 - abs (sentiment - 0.5) * 2)%float in
  let flagPenalty := max 0.0 (1.0 - float64_of_int numFlags / 5.0)%float in
  let score :=
    (sourceScore * 0.4 + sentimentScore * 0.2 + flagPenalty * 0.4)%float in
  max 0.0 (min 1.0 score).

(** [for _, flag := range flags { article.AddFlag(flag.Type,
    flag.Confidence, flag.Details, detectedBy) }] *)
Fixpoint range_AddFlag (flags : list Flag) (detectedBy : string)
    (article : Article) (y : Sys) : Article * Sys :=
  match flags with
  | [] => (article, y)
  | flag :: flags =>
      let (article, y) :=
        AddFlag (Flag_Type flag) (Flag_Confidence flag) (Flag_Details flag)
          detectedBy article y in
      range_AddFlag flags detectedBy article y
  end.

Definition len_Flags (article : Article) : Z :=
  Z.of_nat (length (Flags article)).

Definition AnalyzeArticle (s : ArticleAnalyzerService) (article : Article)
    : M (option error * Article) :=
  (* Step 1: Analyze sentiment *)
  let* (sentiment, err) :=
    call M_AnalyzeSentiment None snd
      (AnalyzeSentiment (contentAnalyzer s) (Content article)) in
  check err or_return
    (fun e => (Some (Errorf "failed to analyze sentiment" e), article)) in
  (* Step 2: Extract entities *)
  let* (entities, err) :=
    call M_ExtractEntities None snd
      (ExtractEntities (contentAnalyzer s) (Content article)) in
  check err or_return
    (fun e => (Some (Errorf "failed to extract entities" e), article)) in
  (* Step 3: Detect bias *)
  let* (biasFlags, err) :=
    call M_DetectBias None snd
      (DetectBias (contentAnalyzer s) (Content article)) in
  check err or_return
    (fun e => (Some (Errorf "failed to detect bias" e), article)) in
  (* Step 4: Check facts *)
  let* (factFlags, err) :=
    call M_CheckFacts (Some article) snd
      (CheckFacts (factChecker s) article) in
  check err or_return
    (fun e => (Some (Errorf "failed to check facts" e), article)) in
  (* Step 5: Get source reputation *)
  let* (sourceScore, err) :=
    call M_GetSourceReputation None snd
      (GetSourceReputation (factChecker s) (Source article)) in
  check err or_return
    (fun e => (Some (Errorf "failed to get source reputation" e), article)) in
  (* Update article metadata *)
  let* article :=
    dom (UpdateMetadata
           {| Entities := entities;
              Sentiment := sentiment;
              Language := "en";
              WordCount := len_string (Content article);
              ReadingTime := Z.quot (len_string (Content article)) 200 |}
           article) in
  (* Add all detected flags *)
  let* article := dom (range_AddFlag biasFlags "bias_detector" article) in
  let* article := dom (range_AddFlag factFlags "fact_checker" article) in
  (* Calculate final credibility score *)
  let credibilityScore :=
    calculateCredibilityScore sourceScore sentiment (len_Flags article) in
  let* article := dom (UpdateScore credibilityScore article) in
  (* Update article status *)
  let* article :=
    (if (0 <? len_Flags article)%Z
     then dom (UpdateStatus ArticleStatusFlagged article)
     else dom (UpdateStatus ArticleStatusAnalyzed article)) in
  (* Persist the results *)
  let* (article, err) :=
    call M_Update (Some article) snd (Update (repository s) article) in
  check err or_return
    (fun e => (Some (Errorf "failed to update article" e), article)) in
  (* Update cache *)
  let* err := call M_Cache_Set (Some article) id (Cache_Set (cache s) article) in
  log err as "failed to update cache: " in
  (* Publish events *)
  let* err :=
    call M_PublishArticleAnalyzed (Some article) id
      (PublishArticleAnalyzed (eventPublisher s) article) in
  log err as "failed to publish article analyzed event: " in
  let* _ :=
    (if String.eqb (Status article) ArticleStatusFlagged
     then
       let* err :=
         call M_PublishArticleFlagged (Some article) id
           (PublishArticleFlagged (eventPublisher s) article) in
       log err as "failed to publish article flagged event: " in
       ret tt
     else ret tt) in
  ret (None, article).

(** [GetAnalysisResult].  When the repository finds nothing and reports no
    error, [s.cache.Set] receives the nil article, which both Redis
    adapters dereference. *)
Definition GetAnalysisResult (s : ArticleAnalyzerService)
    (articleID : string) : M (outcome (option Article * option error)) :=
  (* Try cache first *)
  let* (article, err) :=
    call M_Cache_Get None snd (Cache_Get (cache s) articleID) in
  match err with
  | None => ret (Returns (article, None))
  | Some _ =>
      (* If not in cache, get from repository *)
      let* (article, err) :=
        call M_FindByID None snd (FindByID (repository s) articleID) in
      check err or_return
        (fun e => Returns (None, Some (Errorf "failed to find article" e))) in
      match article with
      | None => ret (Panics nil_dereference)
      | Some a =>
          (* Update cache for next time *)
          let* err := call M_Cache_Set (Some a) id (Cache_Set (cache s) a) in
          log err as "failed to update cache: " in
          ret (Returns (Some a, None))
      end
  end.

Definition CreateArticle (s : ArticleAnalyzerService) (article : Article)
    : M (option error * Article) :=
  let* (article, err) :=
    call M_Save (Some article) snd (Save (repository s) article) in
  ret (err, article).

Definition GetArticle (s : ArticleAnalyzerService) (id : string)
    : M (option Article * option error) :=
  call M_FindByID None snd (FindByID (repository s) id).

(** [UpdateArticleStatus]: [article.UpdateStatus] dereferences the article
    the repository returned. *)
Definition UpdateArticleStatus (s : ArticleAnalyzerService) (id : string)
    (status : ArticleStatus) : M (outcome (option error)) :=
  let* (article, err) :=
    call M_FindByID None snd (FindByID (repository s) id) in
  check err or_return (fun e => Returns (Some e)) in
  match article with
  | None => ret (Panics nil_dereference)
  | Some article =>
      let* article := dom (UpdateStatus status article) in
      let* (_, err) :=
        call M_Update (Some article) snd (Update (repository s) article) in
      ret (Returns err)
  end.

Definition asArticleManager (s : ArticleAnalyzerService)
    : primary.ArticleManager :=
  {| primary.CreateArticle := CreateArticle s;
     primary.GetArticle := GetArticle s;
     primary.UpdateArticleStatus := UpdateArticleStatus s |}.

Definition asArticleAnalyzer (s : ArticleAnalyzerService)
    : primary.ArticleAnalyzer :=
  {| primary.AnalyzeArticle := AnalyzeArticle s;
     primary.GetAnalysisResult := GetAnalysisResult s |}.

(** [ReprocessArticle]: the assignments that clear the analysis
    dereference the article the repository returned. *)
Definition ReprocessArticle (s : ArticleAnalyzerService)
    (articleID : string) : M (outcome (option error)) :=
  let* (article, err) :=
    call M_FindByID None snd (FindByID (repository s) articleID) in
  check err or_return
    (fun e => Returns (Some (Errorf "failed to find article" e))) in
  match article with
  | None => ret (Panics nil_dereference)
  | Some article =>
      (* Clear existing analysis results *)
      let article := set_Flags [] article in
      let article := set_Score 0%float article in
      let article := set_Status ArticleStatusPending article in
      let article :=
        set_MetaData
          {| Entities := []; Sentiment := 0%float; Language := "";
             WordCount := 0%Z; ReadingTime := 0%Z |} article in
      (* Perform fresh analysis *)
      let* (err, _) := AnalyzeArticle s article in
      ret (Returns err)
  end.

Definition asArticleReprocessor (s : ArticleAnalyzerService)
    : primary.ArticleReprocessor :=
  {| primary.ReprocessArticle := ReprocessArticle s |}.

End application.

(** ** package handler: the HTTP adapter *)

Module handler.

(** What [c.JSON(code, obj)] makes of [obj]: it sets the status [code]
    and has [encoding/json] encode [obj], and the body is that encoding:
    [null] for a nil pointer, the encoding of an article, or of a [gin.H]
    object of strings.  When the encoder refuses [obj], nothing of it is
    written: gin aborts the request with the error of the encoder, or
    panics with it, according to its version. *)
Inductive json :=
| JNull
| JArticle (a : Article)
| JObject (fields : list (string * string))
| JRefused (err : error).

Record Response := {
  code : Z;
  body : json
}.

Definition StatusOK : Z := 200.
Definition StatusNotFound : Z := 404.

Definition JSON_article (code : Z) (article : option Article) : Response :=
  {| code := code;
     body := match article with
             | None => JNull
             | Some a =>
                 match json_Article a with
                 | None => JArticle a
                 | Some e => JRefused e
                 end
             end |}.

Record Handler := {
  analyzer : primary.ArticleAnalyzer;
  manager : primary.ArticleManager
}.

Definition NewHandler (analyzer : primary.ArticleAnalyzer)
    (manager : primary.ArticleManager) : Handler :=
  {| analyzer := analyzer; manager := manager |}.

Definition GetArticle (h : Handler) (articleID : string) : M Response :=
  let* (article, err) := primary.GetArticle (manager h) articleID in
  match err with
  | Some _ =>
      ret {| code := StatusNotFound;
             body := JObject [("error", "Article not found")] |}
  | None => ret (JSON_article StatusOK article)
  end.

(** The values the handlers put in a [gin.H]. *)
Inductive value :=
| VString (s : string)
| VFloat (x : float)
| VFlags (flags : list Flag)
| VMetadata (metadata : ArticleMetadata).

(** The body of a reply: none, the encoding of a [gin.H], or nothing
    written because the encoder refused the [gin.H] with an error. *)
Inductive Body :=
| NoBody
| Encoded (obj : gmap string value)
| Refused (err : error).

(** What a handler did to the response: the status code it passed to
    [c.JSON] or to [c.Status], and the body. *)
Record Reply := {
  reply_code : Z;
  reply_body : Body
}.

Definition StatusCreated : Z := 201.
Definition StatusAccepted : Z := 202.
Definition StatusBadRequest : Z := 400.
Definition StatusInternalServerError : Z := 500.

(** The error of the encoder on a value of a [gin.H]. *)
Definition json_value (v : value) : option error :=
  match v with
  | VString _ => None
  | VFloat x => json_float x
  | VFlags flags => json_Flags flags
  | VMetadata metadata => json_Metadata metadata
  end.

(** The encoder writes the keys of a map in sorted order. *)
Definition key_le (p q : string * value) : bool :=
  match String.compare (fst p) (fst q) with
  | Gt => false
  | _ => true
  end.

Fixpoint insert_sorted (p : string * value) (l : list (string * value))
    : list (string * value) :=
  match l with
  | [] => [p]
  | q :: l' => if key_le p q then p :: l else q :: insert_sorted p l'
  end.

Definition sorted_fields (obj : gmap string value)
    : list (string * value) :=
  foldr insert_sorted [] (map_to_list obj).

Definition json_H (obj : gmap string value) : option error :=
  first_error (map (fun p => json_value (snd p)) (sorted_fields obj)).

(** [c.JSON(code, gin.H{...})]. *)
Definition JSON (code : Z) (obj : gmap string value) : Reply :=
  {| reply_code := code;
     reply_body := match json_H obj with
                   | None => Encoded obj
                   | Some e => Refused e
                   end |}.

(** [c.Status(code)]. *)
Definition Status_ (code : Z) : Reply :=
  {| reply_code := code; reply_body := NoBody |}.

(** The request body of [CreateArticle]. *)
Record CreateRequest := {
  req_Title : string;
  req_Content : string;
  req_Source : string;
  req_Author : string;
  req_Tags : list string
}.

(** [CreateArticle]; [bound] is what [c.ShouldBindJSON(&request)] gave:
    the request, or the error of the decoder or of the validation. *)
Definition CreateArticle (h : Handler) (bound : CreateRequest + error)
    : M Reply :=
  match bound with
  | inr err =>
      ret (JSON StatusBadRequest {[ "error" := VString (Error err) ]})
  | inl request =>
      let* article :=
        dom (NewArticle (req_Title request) (req_Content request)
               (req_Source request) (req_Author request)
               (req_Tags request)) in
      let* (err, article) := primary.CreateArticle (manager h) article in
      match err with
      | Some e =>
          ret (JSON StatusInternalServerError
                 {[ "error" := VString (Error e) ]})
      | None =>
          ret (JSON StatusCreated
                 {[ "articleId" := VString (UUID_String (ID article));
                    "status" := VString (Status article) ]})
      end
  end.

(** [AnalyzeArticle].  The article [GetArticle] returned goes to the
    analyzer as it is; the service reads [article.Content] first, which
    panics on the nil article. *)
Definition AnalyzeArticle (h : Handler) (articleID : string)
    : M (outcome Reply) :=
  let* (article, err) := primary.GetArticle (manager h) articleID in
  match err with
  | Some _ =>
      ret (Returns (JSON StatusNotFound
                      {[ "error" := VString "Article not found" ]}))
  | None =>
      match article with
      | None =>
          ret (Panics nil_dereference)
      | Some article =>
          let* (err, article) :=
            primary.AnalyzeArticle (analyzer h) article in
          match err with
          | Some e =>
              ret (Returns (JSON StatusInternalServerError
                              {[ "error" := VString (Error e) ]}))
          | None =>
              ret (Returns
                     (JSON StatusOK
                        {[ "articleId" := VString (UUID_String (ID article));
                           "score" := VFloat (Score article);
                           "flags" := VFlags (Flags article);
                           "status" := VString (Status article) ]}))
          end
      end
  end.

(** [GetAnalysisResult]: the response is built from the fields of the
    article, which is dereferenced whenever the error is nil. *)
Definition GetAnalysisResult (h : Handler) (articleID : string)
    : M (outcome Reply) :=
  let* res := primary.GetAnalysisResult (analyzer h) articleID in
  match res with
  | Panics msg => ret (Panics msg)
  | Returns (_, Some _) =>
      ret (Returns (JSON StatusNotFound
                      {[ "error" := VString "Analysis result not found" ]}))
  | Returns (None, None) =>
      ret (Panics nil_dereference)
  | Returns (Some article, None) =>
      ret (Returns
             (JSON StatusOK
                {[ "articleId" := VString (UUID_String (ID article));
                   "score" := VFloat (Score article);
                   "flags" := VFlags (Flags article);
                   "status" := VString (Status article);
                   "metadata" := VMetadata (MetaData article) ]}))
  end.

(** [ReprocessArticle]; [reprocess] is [h.analyzer.ReprocessArticle]. *)
Definition ReprocessArticle (reprocess : primary.ArticleReprocessor)
    (articleID : string) : M (outcome Reply) :=
  let* res := primary.ReprocessArticle reprocess articleID in
  match res with
  | Panics msg => ret (Panics msg)
  | Returns (Some e) =>
      ret (Returns (JSON StatusInternalServerError
                      {[ "error" := VString (Error e) ]}))
  | Returns None => ret (Returns (Status_ StatusAccepted))
  end.

End handler.

(** ** package main: the mocks and the wiring *)

Module main.

Definition mockFactChecker : FactChecker :=
  {| CheckFacts := fun _ w => (([], None), w);
     GetSourceReputation := fun _ w => ((0.8%float, None), w) |}.

Definition mockContentAnalyzer : ContentAnalyzer :=
  {| AnalyzeSentiment := fun _ w => ((0.5%float, None), w);
     ExtractEntities := fun _ w => (([], None), w);
     DetectBias := fun _ w => (([], None), w) |}.

Definition mockEventPublisher : EventPublisher :=
  {| PublishArticleAnalyzed := fun _ w => (None, w);
     PublishArticleFlagged := fun _ w => (None, w) |}.

Definition analyzer : application.ArticleAnalyzerService :=
  application.NewArticleAnalyzerService
    mongodb.NewArticleRepository redis.NewArticleCache
    mockFactChecker mockContentAnalyzer mockEventPublisher.

Definition handler : handler.Handler :=
  handler.NewHandler (application.asArticleAnalyzer analyzer)
    (application.asArticleManager analyzer).

End main.

(** * Vocabulary of the properties *)

(** ** Timestamps *)

(** The operation that took the clock from [y] to [y'] read it at least
    once, and [a] carries its last reading. *)
Definition stamped (a : Article) (y y' : Sys) : Prop :=
  (ticks y < ticks y')%nat /\ UpdatedAt a = readings y (pred (ticks y')).

(** ** Runs of the service *)

(** The service called [m] through its port and got [err] back. *)
Definition called (m : Method) (err : option error) (st : St) : Prop :=
  exists arg, In {| method := m; sent := arg; failed := err |} (trace st).

(** The line [Printf] writes for [prefix] and [e]. *)
Definition log_line (prefix : string) (e : error) : string :=
  prefix +:+ Error e +:+ "
".

Definition printed (line : string) (st : St) : Prop := In line (stdout st).

(** The calls to the analyzer and fact-checker interfaces. *)
Definition upstream (m : Method) : bool :=
  match m with
  | M_AnalyzeSentiment | M_ExtractEntities | M_DetectBias
  | M_CheckFacts | M_GetSourceReputation => true
  | _ => false
  end.

(** The calls that write an article to the repository or the cache. *)
Definition writes (m : Method) : bool :=
  match m with
  | M_Save | M_Update | M_Cache_Set => true
  | _ => false
  end.


(** ** The paths through [AnalyzeArticle] *)

Definition ev (m : Method) (arg : option Article) (err : option error)
    : Event :=
  {| method := m; sent := arg; failed := err |}.

(** The console after a call whose failure is tolerated. *)
Definition logged (out : list string) (prefix : string)
    (err : option error) : list string :=
  match err with
  | Some e => out ++ [log_line prefix e]
  | None => out
  end.

(** The mutations [AnalyzeArticle] applies once the five upstream calls
    have returned: metadata, flags, score, status. *)
Definition analysed (sentiment : float) (entities : list Entity)
    (biasFlags factFlags : list Flag) (sourceScore : float)
    (article : Article) (y : Sys) : Article * Sys :=
  let (a, y) :=
    UpdateMetadata
      {| Entities := entities;
         Sentiment := sentiment;
         Language := "en";
         WordCount := len_string (Content article);
         ReadingTime := Z.quot (len_string (Content article)) 200 |}
      article y in
  let (a, y) := application.range_AddFlag biasFlags "bias_detector" a y in
  let (a, y) := application.range_AddFlag factFlags "fact_checker" a y in
  let (a, y) :=
    UpdateScore
      (application.calculateCredibilityScore sourceScore sentiment
         (application.len_Flags a)) a y in
  if (0 <? application.len_Flags a)%Z
  then UpdateStatus ArticleStatusFlagged a y
  else UpdateStatus ArticleStatusAnalyzed a y.

Section Paths.

Variable s : application.ArticleAnalyzerService.

(** The three ways the write phase can go for [article] from state [st]. *)
Inductive Persisted (article : Article) (st : St)
    : (option error * Article) * St -> Prop :=
| persist_update_fails a1 e w1 :
    Update (application.repository s) article (st_world st)
      = ((a1, Some e), w1) ->
    Persisted article st
      ((Some (Errorf "failed to update article" e), a1),
       {| st_world := w1;
          trace := trace st ++ [ev M_Update (Some article) (Some e)];
          stdout := stdout st |})
| persist_analyzed a1 w1 e2 w2 e3 w3 :
    Update (application.repository s) article (st_world st)
      = ((a1, None), w1) ->
    Cache_Set (application.cache s) a1 w1 = (e2, w2) ->
    PublishArticleAnalyzed (application.eventPublisher s) a1 w2 = (e3, w3) ->
    String.eqb (Status a1) ArticleStatusFlagged = false ->
    Persisted article st
      ((None, a1),
       {| st_world := w3;
          trace := trace st ++
            [ev M_Update (Some article) None;
             ev M_Cache_Set (Some a1) e2;
             ev M_PublishArticleAnalyzed (Some a1) e3];
          stdout :=
            logged (logged (stdout st) "failed to update cache: " e2)
              "failed to publish article analyzed event: " e3 |})
| persist_flagged a1 w1 e2 w2 e3 w3 e4 w4 :
    Update (application.repository s) article (st_world st)
      = ((a1, None), w1) ->
    Cache_Set (application.cache s) a1 w1 = (e2, w2) ->
    PublishArticleAnalyzed (application.eventPublisher s) a1 w2 = (e3, w3) ->
    String.eqb (Status a1) ArticleStatusFlagged = true ->
    PublishArticleFlagged (application.eventPublisher s) a1 w3 = (e4, w4) ->
    Persisted article st
      ((None, a1),
       {| st_world := w4;
          trace := trace st ++
            [ev M_Update (Some article) None;
             ev M_Cache_Set (Some a1) e2;
             ev M_PublishArticleAnalyzed (Some a1) e3;
             ev M_PublishArticleFlagged (Some a1) e4];
          stdout :=
            logged
              (logged (logged (stdout st) "failed to update cache: " e2)
                 "failed to publish article analyzed event: " e3)
              "failed to publish article flagged event: " e4 |}).

(** The ways a run of [AnalyzeArticle] on [article] from state [st] can
    go: one of the five upstream calls fails, or all five return and the
    write phase runs on the analysed article. *)
Inductive AnalyzeRun (article : Article) (st : St)
    : (option error * Article) * St -> Prop :=
| run_sentiment_fails x1 e w1 :
    AnalyzeSentiment (application.contentAnalyzer s) (Content article)
      (st_world st)
      = ((x1, Some e), w1) ->
    AnalyzeRun article st
      ((Some (Errorf "failed to analyze sentiment" e), article),
       {| st_world := w1;
          trace := trace st ++
            [ev M_AnalyzeSentiment None (Some e)];
          stdout := stdout st |})
| run_entities_fail sentiment w1 x2 e w2 :
    AnalyzeSentiment (application.contentAnalyzer s) (Content article)
      (st_world st)
      = ((sentiment, None), w1) ->
    ExtractEntities (application.contentAnalyzer s) (Content article) w1
      = ((x2, Some e), w2) ->
    AnalyzeRun article st
      ((Some (Errorf "failed to extract entities" e), article),
       {| st_world := w2;
          trace := trace st ++
            [ev M_AnalyzeSentiment None None;
                    ev M_ExtractEntities None (Some e)];
          stdout := stdout st |})
| run_bias_fails sentiment w1 entities w2 x3 e w3 :
    AnalyzeSentiment (application.contentAnalyzer s) (Content article)
      (st_world st)
      = ((sentiment, None), w1) ->
    ExtractEntities (application.contentAnalyzer s) (Content article) w1
      = ((entities, None), w2) ->
    DetectBias (application.contentAnalyzer s) (Content article) w2
      = ((x3, Some e), w3) ->
    AnalyzeRun article st
      ((Some (Errorf "failed to detect bias" e), article),
       {| st_world := w3;
          trace := trace st ++
            [ev M_AnalyzeSentiment None None;
                    ev M_ExtractEntities None None;
                    ev M_DetectBias None (Some e)];
          stdout := stdout st |})
| run_facts_fail sentiment w1 entities w2 biasFlags w3 x4 e w4 :
    AnalyzeSentiment (application.contentAnalyzer s) (Content article)
      (st_world st)
      = ((sentiment, None), w1) ->
    ExtractEntities (application.contentAnalyzer s) (Content article) w1
      = ((entities, None), w2) ->
    DetectBias (application.contentAnalyzer s) (Content article) w2
      = ((biasFlags, None), w3) ->
    CheckFacts (application.factChecker s) article w3
      = ((x4, Some e), w4) ->
    AnalyzeRun article st
      ((Some (Errorf "failed to check facts" e), article),
       {| st_world := w4;
          trace := trace st ++
            [ev M_AnalyzeSentiment None None;
                    ev M_ExtractEntities None None;
                    ev M_DetectBias None None;
                    ev M_CheckFacts (Some article) (Some e)];
          stdout := stdout st |})
| run_reputation_fails sentiment w1 entities w2 biasFlags w3 factFlags w4
    x5 e w5 :
    AnalyzeSentiment (application.contentAnalyzer s) (Content article)
      (st_world st)
      = ((sentiment, None), w1) ->
    ExtractEntities (application.contentAnalyzer s) (Content article) w1
      = ((entities, None), w2) ->
    DetectBias (application.contentAnalyzer s) (Content article) w2
      = ((biasFlags, None), w3) ->
    CheckFacts (application.factChecker s) article w3
      = ((factFlags, None), w4) ->
    GetSourceReputation (application.factChecker s) (Source article) w4
      = ((x5, Some e), w5) ->
    AnalyzeRun article st
      ((Some (Errorf "failed to get source reputation" e), article),
       {| st_world := w5;
          trace := trace st ++
            [ev M_AnalyzeSentiment None None;
                    ev M_ExtractEntities None None;
                    ev M_DetectBias None None;
                    ev M_CheckFacts (Some article) None;
                    ev M_GetSourceReputation None (Some e)];
          stdout := stdout st |})
| run_analysed sentiment w1 entities w2 biasFlags w3 factFlags w4
    sourceScore w5 r :
    AnalyzeSentiment (application.contentAnalyzer s) (Content article)
      (st_world st)
      = ((sentiment, None), w1) ->
    ExtractEntities (application.contentAnalyzer s) (Content article) w1
      = ((entities, None), w2) ->
    DetectBias (application.contentAnalyzer s) (Content article) w2
      = ((biasFlags, None), w3) ->
    CheckFacts (application.factChecker s) article w3
      = ((factFlags, None), w4) ->
    GetSourceReputation (application.factChecker s) (Source article) w4
      = ((sourceScore, None), w5) ->
    let a := analysed sentiment entities biasFlags factFlags sourceScore
               article (sys w5) in
    Persisted (fst a)
      {| st_world := set_sys (snd a) w5;
         trace := trace st ++
            [ev M_AnalyzeSentiment None None;
                   ev M_ExtractEntities None None;
                   ev M_DetectBias None None;
                   ev M_CheckFacts (Some article) None;
                   ev M_GetSourceReputation None None];
         stdout := stdout st |} r ->
    AnalyzeRun article st r.

End Paths.

(** ** Sequences of operations on an article *)

Inductive Op :=
| OpAddFlag (flagType : FlagType) (confidence : float)
    (details detectedBy : string)
| OpUpdateScore (score : float)
| OpUpdateStatus (status : ArticleStatus)
| OpUpdateMetadata (metadata : ArticleMetadata)
| OpAnalyzeArticle
| OpUpdateArticleStatus (id : string) (status : ArticleStatus).

(** One operation on the article in hand.  [UpdateArticleStatus] works on
    the copy it loads from the repository. *)
Definition apply_op (s : application.ArticleAnalyzerService) (op : Op)
    (a : Article) : M Article :=
  match op with
  | OpAddFlag flagType confidence details detectedBy =>
      dom (AddFlag flagType confidence details detectedBy a)
  | OpUpdateScore score => dom (UpdateScore score a)
  | OpUpdateStatus status => dom (UpdateStatus status a)
  | OpUpdateMetadata metadata => dom (UpdateMetadata metadata a)
  | OpAnalyzeArticle =>
      let* (_, a) := application.AnalyzeArticle s a in ret a
  | OpUpdateArticleStatus id status =>
      let* _ := application.UpdateArticleStatus s id status in ret a
  end.

Fixpoint run_ops (s : application.ArticleAnalyzerService) (ops : list Op)
    (a : Article) : M Article :=
  match ops with
  | [] => ret a
  | op :: ops => let* a := apply_op s op a in run_ops s ops a
  end.

(** The two operations that store a status chosen by the caller. *)
Definition sets_status (op : Op) : bool :=
  match op with
  | OpUpdateStatus _ | OpUpdateArticleStatus _ _ => true
  | _ => false
  end.

(** An article with a flag has status FLAGGED. *)
Definition flagged_when_flags (a : Article) : Prop :=
  Flags a <> [] -> Status a = ArticleStatusFlagged.

(** A repository that hands back the flags and the status it was given. *)
Definition keeps_flags_and_status (repo : ArticleRepository) : Prop :=
  forall (a : Article) (w : World),
    Flags (fst (fst (Update repo a w))) = Flags a /\
    Status (fst (fst (Update repo a w))) = Status a.

(** ** Examples *)

Module example.

Definition sys0 : Sys :=
  {| readings := fun n => (1000 + Z.of_nat n)%Z; ticks := 0;
     uuids := fun n => String (Ascii.ascii_of_nat (97 + n)) "-uuid"; drawn := 0 |}.

(** Empty stores that answer every request. *)
Definition empty_world : World :=
  {| sys := sys0;
     mongo_docs := ∅; mongo_faults := fun _ => None; mongo_calls := 0;
     redis_keys := ∅; redis_faults := fun _ => None; redis_calls := 0;
     redis_now := fun n => (1000 * Z.of_nat n)%Z |}.

Definition article0 : Article :=
  fst (NewArticle "Title" "Some content" "example.org" "A. Author" []
         sys0).

(** The world after [article0] has been created through the service. *)
Definition stored_world : World :=
  st_world (snd (application.CreateArticle main.analyzer article0
                   (start empty_world))).

(** The same world with Redis unreachable. *)
Definition redis_down : World :=
  {| sys := sys stored_world;
     mongo_docs := mongo_docs stored_world;
     mongo_faults := mongo_faults stored_world;
     mongo_calls := mongo_calls stored_world;
     redis_keys := redis_keys stored_world;
     redis_faults := fun _ => Some (ErrOther "dial tcp: connection refused");
     redis_calls := redis_calls stored_world;
     redis_now := redis_now stored_world |}.

(** A content analyzer whose bias detector is down. *)
Definition failingContentAnalyzer : ContentAnalyzer :=
  {| AnalyzeSentiment := fun _ w => ((0.5%float, None), w);
     ExtractEntities := fun _ w => (([], None), w);
     DetectBias := fun _ w => (([], Some (ErrOther "bias model offline")), w) |}.

Definition degraded : application.ArticleAnalyzerService :=
  application.NewArticleAnalyzerService
    mongodb.NewArticleRepository redis.NewArticleCache
    main.mockFactChecker failingContentAnalyzer main.mockEventPublisher.

(** A world that other programs have written to: MongoDB holds
    [article0] under its ID both as a string and as a UUID, and Redis
    holds under its key bytes that are not an article. *)
Definition foreign_world : World :=
  {| sys := sys0;
     mongo_docs :=
       {[ IdString "a-uuid" := article0; IdUUID "a-uuid" := article0 ]};
     mongo_faults := fun _ => None; mongo_calls := 0;
     redis_keys :=
       {[ "article:a-uuid" :=
            {| value_of :=
                 Garbage "{" (ErrOther "unexpected end of JSON input");
               deadline := None |} ]};
     redis_faults := fun _ => None; redis_calls := 0;
     redis_now := fun n => (1000 * Z.of_nat n)%Z |}.

(** A fact checker that has no reputation for the source. *)
Definition unknownSourceFactChecker : FactChecker :=
  {| CheckFacts := fun _ w => (([], None), w);
     GetSourceReputation := fun _ w => ((nan, None), w) |}.

Definition unrated : application.ArticleAnalyzerService :=
  application.NewArticleAnalyzerService
    mongodb.NewArticleRepository redis.NewArticleCache
    unknownSourceFactChecker main.mockContentAnalyzer
    main.mockEventPublisher.

(** [article0] with a title that is not valid UTF-8: the byte FF, then
    an x. *)
Definition mangled : Article :=
  {| ID := ID article0;
     Title := String (Ascii.ascii_of_N 255) "x";
     Content := Content article0; Source := Source article0;
     Author := Author article0; Tags := Tags article0;
     CreatedAt := CreatedAt article0; UpdatedAt := UpdatedAt article0;
     Score := Score article0; Flags := Flags article0;
     Status := Status article0; MetaData := MetaData article0 |}.

(** The world [w] an hour and a millisecond later on the clock of the
    Redis server. *)
Definition later (w : World) : World :=
  {| sys := sys w; mongo_docs := mongo_docs w; mongo_faults := mongo_faults w;
     mongo_calls := mongo_calls w; redis_keys := redis_keys w;
     redis_faults := redis_faults w; redis_calls := redis_calls w;
     redis_now := fun n => (redis_now w n + 3600001)%Z |}.

End example.

(** * Vocabulary of the claims on the credibility score

    [float64] is Rocq's primitive binary64 type, whose operations are
    specified by the [SpecFloat] functions: every operation of
    [calculateCredibilityScore] rounds its exact result to nearest, ties to
    even, one operation at a time. The order and rounding of these numbers
    are studied on integers: a number is represented by its value in units
    of 2^-1074, the smallest positive binary64 number, and an infinity by
    the power of two just above the largest finite number. *)

Open Scope Z_scope.

(** The value of a binary64 number in units of 2^-1074; the infinities
    stand just above the largest finite number. *)
Definition scaled (x : spec_float) : Z :=
  match x with
  | S754_zero _ => 0
  | S754_infinity s => cond_Zopp s (2 ^ 2098)
  | S754_nan => 0
  | S754_finite s m e => cond_Zopp s (Zpos m * 2 ^ (e + 1074))
  end.

Definition is_nan_SF (x : spec_float) : bool :=
  match x with S754_nan => true | _ => false end.

Definition value (x : float) : Z := scaled (Prim2SF x).

(** The position of a non-negative real [x] on the grid of step [2^e],
    to the half step: [4 * m + c] where [m] is the integer part of
    [x / 2^e] and [c] is 0 on the grid point, 1 below the middle, 2 on
    the middle, 3 above it. *)
Definition code_of (mrs : shr_record) : Z :=
  4 * shr_m mrs + 2 * Z.b2z (shr_r mrs) + Z.b2z (shr_s mrs).

Definition loc_code (l : location) : Z :=
  match l with
  | loc_Exact => 0
  | loc_Inexact Lt => 1
  | loc_Inexact Eq => 2
  | loc_Inexact Gt => 3
  end.

(** The same position on the grid coarser by [k] binary places. *)
Definition shift_code (k p : Z) : Z :=
  2 * (p / 2 ^ (k + 1)) + (if p mod 2 ^ (k + 1) =? 0 then 0 else 1).

(** The mantissa nearest to a position, ties to even. *)
Definition rne (p : Z) : Z :=
  let m := p / 4 in
  let c := p mod 4 in
  if c <? 2 then m
  else if c =? 2 then (if Z.even m then m else m + 1)
  else m + 1.

(** The exponent of the binary64 number nearest to a real with integer
    part [m] on the grid of step [2^e]. *)
Definition cexp (m e : Z) : Z := fexp prec emax (Zdigits2 m + e).

(** The binary64 number nearest to the position [p] on the grid of step
    [2^e], in units of 2^-1074; the infinity when it overflows. *)
Definition rounded (p e : Z) : Z :=
  let E := cexp (p / 4) e in
  Z.min (rne (shift_code (E - e) p) * 2 ^ (E + 1074)) (2 ^ 2098).

(** The binary64 number nearest to the dyadic [v * 2^e], in units of
    2^-1074. *)
Definition round_dyadic (v e : Z) : Z := Z.sgn v * rounded (4 * Z.abs v) e.

Definition finite_or_zero (x : spec_float) : bool :=
  match x with
  | S754_zero _ | S754_finite _ _ _ => true
  | _ => false
  end.

(** The position of the quotient [n / d] on the grid of half steps. *)
Definition quot_code (n d : Z) : Z :=
  2 * (n / d) + (if n mod d =? 0 then 0 else 1).

(** The binary64 number nearest to [v / d], for [v] in units of 2^-2201. *)
Definition round_quot (v d : Z) : Z :=
  Z.sgn v * rounded (quot_code (2 * Z.abs v) d) (-2200).

Definition INF : Z := 2 ^ 2098.

(** Neither NaN nor an infinity. *)
Definition finite (x : float) : bool := finite_or_zero (Prim2SF x).

(** [x <= y] holds: both are numbers and ordered. *)
Definition fle (x y : float) : Prop := (x <=? y)%float = true.

(** A finite positive number, with its mantissa and exponent. *)
Definition positive_finite (c : float) (m : positive) (e : Z) : Prop :=
  Prim2SF c = S754_finite false m e.

(** The formula of the specification, on [float64]. *)
Definition larger (x y : float) : float :=
  if (x <? y)%float then y else x.

Definition clamp01 (x : float) : float :=
  if (x <? 0)%float then 0%float
  else if (1 <? x)%float then 1%float else x.

Definition score_formula (r s : float) (n : Z) : float :=
  clamp01 (0.4 * r + 0.2 * (1 - PrimFloat.abs (s - 0.5) * 2)
           + 0.4 * larger 0 (1 - go.float64_of_int n / 5))%float.

Definition in_unit_interval (x : float) : Prop := fle 0 x /\ fle x 1.

Definition never_exceeds (a b : float) : Prop := (b <? a)%float = false.

(** The range of a Go [int] on a 64-bit platform. *)
Definition is_int (n : Z) : Prop := - 2 ^ 63 <= n < 2 ^ 63.

(** The three terms of the score and their weighted sum, named as the
    local variables of [calculateCredibilityScore]. *)
Definition sentimentScore (sentiment : float) : float :=
  (1.0 - application.abs (sentiment - 0.5) * 2)%float.

Definition flagPenalty (numFlags : Z) : float :=
  application.max 0.0 (1.0 - go.float64_of_int numFlags / 5.0)%float.

Definition score (sourceScore sentimentScore flagPenalty : float) : float :=
  (sourceScore * 0.4 + sentimentScore * 0.2 + flagPenalty * 0.4)%float.

Close Scope Z_scope.

(** * Vocabulary of the properties of the adapters and handlers *)

(** ** Flags *)

(** The flag [AddFlag] appends for the [i]-th flag of a list added from
    clock [y] on: its detection time is the first of the two clock
    readings of that call. *)
Definition detected (detectedBy : string) (y : Sys) (i : nat) (flag : Flag)
    : Flag :=
  {| Flag_Type := Flag_Type flag;
     Flag_Confidence := Flag_Confidence flag;
     Flag_Details := Flag_Details flag;
     Flag_DetectedAt := readings y (ticks y + 2 * i);
     Flag_DetectedBy := detectedBy |}.

(** What a detector reported in a flag. *)
Definition finding (flag : Flag) : FlagType * float * string :=
  (Flag_Type flag, Flag_Confidence flag, Flag_Details flag).

(** The fields of an article that no method of the aggregate assigns. *)
Definition same_submission (a b : Article) : Prop :=
  ID a = ID b /\ Title a = Title b /\ Content a = Content b /\
  Source a = Source b /\ Author a = Author b /\ Tags a = Tags b /\
  CreatedAt a = CreatedAt b.

(** ** Runs of the analysis *)

(** The five upstream calls of [AnalyzeArticle] on [article], made from
    the world [w], all returned without error, with these results, and
    left the world [w5]. *)
Definition upstream_results (s : application.ArticleAnalyzerService)
    (article : Article) (w : World) (sentiment : float)
    (entities : list Entity) (biasFlags factFlags : list Flag)
    (sourceScore : float) (w5 : World) : Prop :=
  exists w1 w2 w3 w4,
    AnalyzeSentiment (application.contentAnalyzer s) (Content article) w
      = ((sentiment, None), w1) /\
    ExtractEntities (application.contentAnalyzer s) (Content article) w1
      = ((entities, None), w2) /\
    DetectBias (application.contentAnalyzer s) (Content article) w2
      = ((biasFlags, None), w3) /\
    CheckFacts (application.factChecker s) article w3
      = ((factFlags, None), w4) /\
    GetSourceReputation (application.factChecker s) (Source article) w4
      = ((sourceScore, None), w5).

(** The run made a call to [m]. *)
Definition reached (m : Method) (st : St) : Prop :=
  In m (map method (trace st)).

(** The article [ReprocessArticle] analyses: the stored one with its
    flags, score, status and metadata cleared. *)
Definition cleared (article : Article) : Article :=
  set_MetaData
    {| Entities := []; Sentiment := 0%float; Language := "";
       WordCount := 0%Z; ReadingTime := 0%Z |}
    (set_Status ArticleStatusPending
       (set_Score 0%float (set_Flags [] article))).

(** The text [AnalyzeArticle] puts before the error of each call it does
    not tolerate to fail. *)
Definition failure_text (m : Method) : string :=
  match m with
  | M_AnalyzeSentiment => "failed to analyze sentiment"
  | M_ExtractEntities => "failed to extract entities"
  | M_DetectBias => "failed to detect bias"
  | M_CheckFacts => "failed to check facts"
  | M_GetSourceReputation => "failed to get source reputation"
  | M_Update => "failed to update article"
  | _ => ""
  end.

(** ** Articles in the cache *)

(** Every string of the article is valid UTF-8. *)
Definition utf8_Entity (e : Entity) : bool :=
  ValidString (Entity_Type e) && ValidString (Entity_Value e).

Definition utf8_Flag (flag : Flag) : bool :=
  ValidString (Flag_Type flag) && ValidString (Flag_Details flag)
  && ValidString (Flag_DetectedBy flag).

Definition utf8_Article (a : Article) : bool :=
  ValidString (Title a) && ValidString (Content a)
  && ValidString (Source a) && ValidString (Author a)
  && forallb ValidString (Tags a) && forallb utf8_Flag (Flags a)
  && ValidString (Status a)
  && forallb utf8_Entity (Entities (MetaData a))
  && ValidString (Language (MetaData a)).

(** The milliseconds a key stays when it is set with a positive
    expiration: the server drops it once its clock has passed the
    millisecond of the request by more than that. *)
Definition lifetime (expiration : Duration) : Z :=
  match expiry expiration with
  | PX milliseconds => milliseconds
  | EX seconds => (seconds * 1000)%Z
  | KEEPTTL | Persist => 0%Z
  end.

(** * Binary64 arithmetic

    What the [SpecFloat] operations compute, in terms of [value]: the exact
    result rounded by [round_dyadic] or [round_quot], which are monotone. *)

Open Scope Z_scope.

(** ** Binary64 numbers as integers *)

Lemma digits2_pos_size (m : positive) : digits2_pos m = Pos.size m.
Proof. induction m; cbn; congruence. Qed.

Lemma digits2_pos_bounds (m : positive) :
  2 ^ (Zpos (digits2_pos m) - 1) <= Zpos m < 2 ^ Zpos (digits2_pos m).
Proof.
  rewrite digits2_pos_size. split.
  - pose proof (Pos.size_le m) as H.
    assert (Hp : (2 ^ Pos.size m <= m~0)%positive) by exact H.
    apply Pos2Z.pos_le_pos in Hp. rewrite Pos2Z.inj_pow in Hp.
    replace (Zpos (Pos.size m)) with (Zpos (Pos.size m) - 1 + 1) in Hp by lia.
    rewrite Z.pow_add_r in Hp by lia. change (2 ^ 1) with 2 in Hp.
    change (Zpos m~0) with (2 * Zpos m) in Hp. lia.
  - pose proof (Pos.size_gt m) as H.
    apply Pos2Z.pos_lt_pos in H. rewrite Pos2Z.inj_pow in H. exact H.
Qed.

(** What validity says about a mantissa and its exponent. *)
Lemma bounded_inv (m : positive) (e : Z) :
  bounded prec emax m e = true ->
  -1074 <= e <= 971 /\
  Zpos (digits2_pos m) <= 53 /\
  (-1074 < e -> Zpos (digits2_pos m) = 53).
Proof.
  unfold bounded, canonical_mantissa, fexp, SpecFloat.emin.
  change prec with 53; change emax with 1024.
  intros H. apply andb_prop in H as [H1 H2].
  apply Z.eqb_eq in H1. apply Z.leb_le in H2. lia.
Qed.

Lemma pow2_pos (k : Z) : 0 <= k -> 0 < 2 ^ k.
Proof. intros; apply Z.pow_pos_nonneg; lia. Qed.

Lemma finite_bounds (m : positive) (e : Z) :
  bounded prec emax m e = true ->
  0 < Zpos m * 2 ^ (e + 1074) < 2 ^ 2098.
Proof.
  intros H. destruct (bounded_inv m e H) as (He & Hd & _).
  pose proof (digits2_pos_bounds m) as [_ Hm].
  pose proof (pow2_pos (e + 1074) ltac:(lia)).
  split; [lia|].
  apply Z.lt_le_trans with (2 ^ 53 * 2 ^ (e + 1074)).
  - apply Z.mul_lt_mono_pos_r; [lia|].
    eapply Z.lt_le_trans; [exact Hm|]. apply Z.pow_le_mono_r; lia.
  - rewrite <- Z.pow_add_r by lia. apply Z.pow_le_mono_r; lia.
Qed.

Lemma finite_lt (m1 m2 : positive) (e1 e2 : Z) :
  bounded prec emax m1 e1 = true ->
  bounded prec emax m2 e2 = true ->
  e1 < e2 ->
  Zpos m1 * 2 ^ (e1 + 1074) < Zpos m2 * 2 ^ (e2 + 1074).
Proof.
  intros H1 H2 He.
  destruct (bounded_inv m1 e1 H1) as (He1 & Hd1 & _).
  destruct (bounded_inv m2 e2 H2) as (He2 & Hd2 & Hn2).
  pose proof (digits2_pos_bounds m1) as [_ Hm1].
  pose proof (digits2_pos_bounds m2) as [Hm2 _].
  rewrite Hn2 in Hm2 by lia.
  apply Z.lt_le_trans with (2 ^ 53 * 2 ^ (e1 + 1074)).
  - apply Z.mul_lt_mono_pos_r; [apply pow2_pos; lia|].
    eapply Z.lt_le_trans; [exact Hm1|]. apply Z.pow_le_mono_r; lia.
  - apply Z.le_trans with (2 ^ 52 * 2 ^ (e2 + 1074)).
    + rewrite <- !Z.pow_add_r by lia. apply Z.pow_le_mono_r; lia.
    + apply Z.mul_le_mono_nonneg_r; [|exact Hm2].
      apply Z.lt_le_incl, pow2_pos; lia.
Qed.

Lemma finite_compare (m1 m2 : positive) (e1 e2 : Z) :
  bounded prec emax m1 e1 = true ->
  bounded prec emax m2 e2 = true ->
  match e1 ?= e2 with
  | Lt => Lt
  | Gt => Gt
  | Eq => Pos.compare_cont Eq m1 m2
  end = (Zpos m1 * 2 ^ (e1 + 1074) ?= Zpos m2 * 2 ^ (e2 + 1074)).
Proof.
  intros H1 H2. destruct (Z.compare_spec e1 e2) as [->|He|He].
  - destruct (bounded_inv m2 e2 H2) as (He2 & _).
    change (Pos.compare_cont Eq m1 m2) with (Zpos m1 ?= Zpos m2).
    pose proof (pow2_pos (e2 + 1074) ltac:(lia)) as Hp.
    symmetry. destruct (Z.compare_spec (Zpos m1) (Zpos m2)) as [->|Hm|Hm].
    + apply Z.compare_refl.
    + apply Z.compare_lt_iff. apply Z.mul_lt_mono_pos_r; assumption.
    + apply Z.compare_gt_iff. apply Z.mul_lt_mono_pos_r; assumption.
  - symmetry; apply Z.compare_lt_iff, finite_lt; assumption.
  - symmetry; apply Z.compare_gt_iff, finite_lt; assumption.
Qed.

Lemma SFcompare_scaled (x y : spec_float) :
  valid_binary x = true -> valid_binary y = true ->
  is_nan_SF x = false -> is_nan_SF y = false ->
  SFcompare x y = Some (scaled x ?= scaled y).
Proof.
  destruct x as [sx|sx| |sx mx ex], y as [sy|sy| |sy my ey];
    cbn [valid_binary is_nan_SF]; intros Hx Hy Nx Ny; try discriminate;
    try pose proof (finite_bounds _ _ Hx) as Bx;
    try pose proof (finite_bounds _ _ Hy) as By;
    cbn [SFcompare scaled];
    try (destruct sx; cbn [cond_Zopp]); try (destruct sy; cbn [cond_Zopp]);
    try reflexivity; f_equal; symmetry;
    try (apply Z.compare_lt_iff; lia); try (apply Z.compare_gt_iff; lia);
    try (apply Z.compare_eq_iff; lia).
  - pose proof (finite_compare _ _ _ _ Hx Hy) as H.
    rewrite Z.compare_opp, Z.compare_antisym, <- H.
    destruct (ex ?= ey); reflexivity.
  - symmetry; exact (finite_compare _ _ _ _ Hx Hy).
Qed.

(** ** Comparisons of primitive floats through [scaled] *)

Lemma is_nan_spec (x : float) : PrimFloat.is_nan x = is_nan_SF (Prim2SF x).
Proof.
  unfold PrimFloat.is_nan. rewrite eqb_spec.
  pose proof (Prim2SF_valid x) as Hv.
  destruct (Prim2SF x) as [s|s| |s m e]; try reflexivity; cbn.
  - destruct s; reflexivity.
  - unfold SFeqb. cbn. cbn in Hv. destruct s.
    + rewrite Z.compare_refl. rewrite Pos.compare_cont_refl. reflexivity.
    + rewrite Z.compare_refl. rewrite Pos.compare_cont_refl. reflexivity.
Qed.

Lemma compare_value (x y : float) :
  PrimFloat.is_nan x = false -> PrimFloat.is_nan y = false ->
  SFcompare (Prim2SF x) (Prim2SF y) = Some (value x ?= value y).
Proof.
  rewrite !is_nan_spec. intros Hx Hy.
  apply SFcompare_scaled; auto using Prim2SF_valid.
Qed.

Lemma ltb_value (x y : float) :
  PrimFloat.is_nan x = false -> PrimFloat.is_nan y = false ->
  (x <? y)%float = (value x <? value y).
Proof.
  intros Hx Hy. rewrite ltb_spec. unfold SFltb.
  rewrite (compare_value x y Hx Hy). unfold Z.ltb.
  destruct (value x ?= value y); reflexivity.
Qed.

Lemma leb_value (x y : float) :
  PrimFloat.is_nan x = false -> PrimFloat.is_nan y = false ->
  (x <=? y)%float = (value x <=? value y).
Proof.
  intros Hx Hy. rewrite leb_spec. unfold SFleb.
  rewrite (compare_value x y Hx Hy). unfold Z.leb.
  destruct (value x ?= value y); reflexivity.
Qed.

Lemma ltb_nan_l (x y : float) :
  PrimFloat.is_nan x = true -> (x <? y)%float = false.
Proof.
  rewrite is_nan_spec, ltb_spec. destruct (Prim2SF x); try discriminate.
  reflexivity.
Qed.

Lemma ltb_nan_r (x y : float) :
  PrimFloat.is_nan y = true -> (x <? y)%float = false.
Proof.
  rewrite is_nan_spec, ltb_spec. destruct (Prim2SF y); try discriminate.
  destruct (Prim2SF x); reflexivity.
Qed.

Lemma leb_nan_l (x y : float) :
  PrimFloat.is_nan x = true -> (x <=? y)%float = false.
Proof.
  rewrite is_nan_spec, leb_spec. destruct (Prim2SF x); try discriminate.
  reflexivity.
Qed.

Lemma leb_nan_r (x y : float) :
  PrimFloat.is_nan y = true -> (x <=? y)%float = false.
Proof.
  rewrite is_nan_spec, leb_spec. destruct (Prim2SF y); try discriminate.
  destruct (Prim2SF x); reflexivity.
Qed.

(** ** Positions between grid points, and rounding to nearest even *)

Lemma code_of_loc (m : Z) (l : location) :
  code_of (shr_record_of_loc m l) = 4 * m + loc_code l.
Proof.
  destruct l as [|[]]; unfold code_of, loc_code;
    cbn [shr_record_of_loc shr_m shr_r shr_s Z.b2z]; lia.
Qed.

Lemma shr_1_eq (mrs : shr_record) :
  0 <= shr_m mrs ->
  shr_1 mrs =
    {| shr_m := shr_m mrs / 2; shr_r := Z.odd (shr_m mrs);
       shr_s := shr_r mrs || shr_s mrs |}.
Proof.
  destruct mrs as [m r s]; cbn [shr_m shr_r shr_s]; intros Hm.
  rewrite <- Z.div2_div.
  destruct m as [|[p|p|]|p]; try lia; reflexivity.
Qed.

Lemma shr_1_code (mrs : shr_record) :
  0 <= shr_m mrs ->
  0 <= shr_m (shr_1 mrs) /\
  code_of (shr_1 mrs) = shift_code 1 (code_of mrs).
Proof.
  intros Hm. rewrite (shr_1_eq mrs Hm).
  destruct mrs as [m r s]; cbn [shr_m shr_r shr_s] in *.
  unfold code_of, shift_code; cbn [shr_m shr_r shr_s].
  change (2 ^ (1 + 1)) with 4.
  split; [apply Z.div_pos; lia|].
  pose proof (Z.div2_odd m) as Ho. rewrite Z.div2_div in Ho.
  assert (Hb : 0 <= Z.b2z (Z.odd m) <= 1) by (destruct (Z.odd m); cbn; lia).
  revert Ho Hb; generalize (Z.b2z (Z.odd m)); intros o Ho Hb.
  destruct r, s; cbn [orb Z.b2z];
    match goal with
    | |- context [?a mod 4 =? 0] =>
        destruct (Z.eqb_spec (a mod 4) 0) as [E|E]
    end;
    Z.to_euclidean_division_equations; lia.
Qed.

Lemma shift_code_0 (p : Z) : shift_code 0 p = p.
Proof.
  unfold shift_code. change (2 ^ (0 + 1)) with 2.
  destruct (Z.eqb_spec (p mod 2) 0); Z.to_euclidean_division_equations; lia.
Qed.

Lemma shift_code_nonneg (k p : Z) : 0 <= k -> 0 <= p -> 0 <= shift_code k p.
Proof.
  intros Hk Hp. unfold shift_code.
  assert (0 <= p / 2 ^ (k + 1))
    by (apply Z.div_pos; [lia | apply pow2_pos; lia]).
  destruct (_ =? _); lia.
Qed.

Lemma shift_code_quarter (k p : Z) :
  0 <= k -> shift_code k p / 4 = p / 4 / 2 ^ k.
Proof.
  intros Hk. unfold shift_code.
  rewrite Z.div_div by (try apply pow2_pos; lia).
  replace (4 * 2 ^ k) with (2 ^ (k + 1) * 2)
    by (rewrite Z.pow_add_r by lia; change (2 ^ 1) with 2; lia).
  rewrite <- Z.div_div by (try apply pow2_pos; lia).
  generalize (p / 2 ^ (k + 1)); intros a.
  destruct (_ =? _); Z.to_euclidean_division_equations; lia.
Qed.

Lemma shift_code_add (j k p : Z) :
  0 <= j -> 0 <= k ->
  shift_code k (shift_code j p) = shift_code (j + k) p.
Proof.
  intros Hj Hk. unfold shift_code at 1 3.
  assert (P1 : 0 < 2 ^ (j + 1)) by (apply pow2_pos; lia).
  assert (Pk : 0 < 2 ^ k) by (apply pow2_pos; lia).
  assert (E : 2 ^ (j + k + 1) = 2 ^ (j + 1) * 2 ^ k)
    by (rewrite <- Z.pow_add_r by lia; f_equal; lia).
  assert (E' : 2 ^ (k + 1) = 2 * 2 ^ k)
    by (rewrite Z.pow_add_r by lia; change (2 ^ 1) with 2; lia).
  rewrite E, E'.
  unfold shift_code.
  set (a := p / 2 ^ (j + 1)). set (r := p mod 2 ^ (j + 1)).
  assert (Hp : p = 2 ^ (j + 1) * a + r) by (apply Z.div_mod; lia).
  assert (Hr : 0 <= r < 2 ^ (j + 1)) by (apply Z.mod_pos_bound; lia).
  set (b := if r =? 0 then 0 else 1).
  assert (Hb : 0 <= b <= 1 /\ (b = 0 <-> r = 0))
    by (subst b; destruct (Z.eqb_spec r 0); lia).
  assert (Q : (2 * a + b) / (2 * 2 ^ k) = a / 2 ^ k).
  { rewrite <- Z.div_div by lia.
    replace ((2 * a + b) / 2) with a
      by (Z.to_euclidean_division_equations; lia). reflexivity. }
  assert (Q' : p / (2 ^ (j + 1) * 2 ^ k) = a / 2 ^ k)
    by (rewrite <- Z.div_div by lia; reflexivity).
  rewrite Q, Q'. f_equal.
  assert (M : p mod (2 ^ (j + 1) * 2 ^ k)
              = 2 ^ (j + 1) * (a mod 2 ^ k) + r).
  { rewrite Z.rem_mul_r by lia. fold a r. lia. }
  assert (M' : (2 * a + b) mod (2 * 2 ^ k) = 2 * (a mod 2 ^ k) + b).
  { rewrite Z.rem_mul_r by lia.
    replace ((2 * a + b) / 2) with a
      by (Z.to_euclidean_division_equations; lia).
    replace ((2 * a + b) mod 2) with b
      by (Z.to_euclidean_division_equations; lia). lia. }
  rewrite M, M'.
  pose proof (Z.mod_pos_bound a (2 ^ k) Pk) as Ha.
  destruct (Z.eqb_spec (2 * (a mod 2 ^ k) + b) 0) as [E1|E1];
    destruct (Z.eqb_spec (2 ^ (j + 1) * (a mod 2 ^ k) + r) 0) as [E2|E2];
    try reflexivity; exfalso.
  - assert (a mod 2 ^ k = 0) by lia. assert (b = 0) by lia.
    apply E2. replace r with 0 by lia. nia.
  - apply E1.
    assert (Hz : 2 ^ (j + 1) * (a mod 2 ^ k) = 0 /\ r = 0) by nia.
    destruct Hz as [Hz1 Hz2].
    assert (a mod 2 ^ k = 0) by nia. lia.
Qed.

Lemma shift_code_mono (k p q : Z) :
  0 <= k -> p <= q -> shift_code k p <= shift_code k q.
Proof.
  intros Hk Hpq. unfold shift_code.
  assert (P : 0 < 2 ^ (k + 1)) by (apply pow2_pos; lia).
  pose proof (Z.div_le_mono p q _ P Hpq) as Hd.
  destruct (Z.eq_dec (p / 2 ^ (k + 1)) (q / 2 ^ (k + 1))) as [E|E].
  - rewrite E.
    destruct (Z.eqb_spec (p mod 2 ^ (k + 1)) 0) as [Ep|Ep];
      destruct (Z.eqb_spec (q mod 2 ^ (k + 1)) 0) as [Eq|Eq]; try lia.
    exfalso. pose proof (Z.div_mod p (2 ^ (k + 1)) ltac:(lia)).
    pose proof (Z.div_mod q (2 ^ (k + 1)) ltac:(lia)).
    pose proof (Z.mod_pos_bound p (2 ^ (k + 1)) P). nia.
  - destruct (_ =? _); destruct (_ =? _); lia.
Qed.

Lemma iter_pos_nat {A : Type} (f : A -> A) (n : positive) (x : A) :
  iter_pos f n x = Nat.iter (Pos.to_nat n) f x.
Proof.
  revert x; induction n as [n IH|n IH|]; intros x; cbn [iter_pos].
  - rewrite !IH, Pos2Nat.inj_xI, Nat.iter_succ_r.
    replace (2 * Pos.to_nat n)%nat with (Pos.to_nat n + Pos.to_nat n)%nat
      by lia.
    rewrite Nat.iter_add. reflexivity.
  - rewrite !IH, Pos2Nat.inj_xO.
    replace (2 * Pos.to_nat n)%nat with (Pos.to_nat n + Pos.to_nat n)%nat
      by lia.
    rewrite Nat.iter_add. reflexivity.
  - reflexivity.
Qed.

Lemma iter_shr_1_code (n : nat) (mrs : shr_record) :
  0 <= shr_m mrs ->
  0 <= shr_m (Nat.iter n shr_1 mrs) /\
  code_of (Nat.iter n shr_1 mrs) = shift_code (Z.of_nat n) (code_of mrs).
Proof.
  intros Hm. induction n as [|n [IH1 IH2]].
  - cbn [Nat.iter]. split; [exact Hm|]. symmetry; apply shift_code_0.
  - rewrite Nat.iter_succ. destruct (shr_1_code _ IH1) as [H1 H2].
    split; [exact H1|]. rewrite H2, IH2.
    rewrite shift_code_add by lia. f_equal; lia.
Qed.

(** [shr] in terms of positions. *)
Lemma shr_code (mrs : shr_record) (e k : Z) :
  0 <= shr_m mrs ->
  let r := shr mrs e k in
  0 <= shr_m (fst r) /\
  code_of (fst r) = shift_code (Z.max k 0) (code_of mrs) /\
  snd r = e + Z.max k 0.
Proof.
  intros Hm. destruct k as [|k|k]; cbn [shr fst snd].
  - rewrite shift_code_0. repeat split; [exact Hm | lia].
  - rewrite iter_pos_nat.
    destruct (iter_shr_1_code (Pos.to_nat k) mrs Hm) as [H1 H2].
    rewrite positive_nat_Z in H2.
    replace (Z.max (Z.pos k) 0) with (Z.pos k) by lia. auto.
  - rewrite shift_code_0. repeat split; [exact Hm | lia].
Qed.

Lemma rne_code (mrs : shr_record) :
  0 <= shr_m mrs ->
  round_nearest_even (shr_m mrs) (loc_of_shr_record mrs) = rne (code_of mrs).
Proof.
  destruct mrs as [m r s]; cbn [shr_m]; intros Hm.
  unfold rne, code_of; cbn [shr_m shr_r shr_s].
  destruct r, s; cbn [loc_of_shr_record round_nearest_even Z.b2z];
    match goal with
    | |- context [(?a mod 4 <? 2)] =>
        replace (a / 4) with m by (Z.to_euclidean_division_equations; lia);
        destruct (Z.ltb_spec (a mod 4) 2);
        [| destruct (Z.eqb_spec (a mod 4) 2)];
        try reflexivity; exfalso; Z.to_euclidean_division_equations; lia
    end.
Qed.

Lemma rne_bounds (p : Z) : p / 4 <= rne p <= p / 4 + 1.
Proof.
  unfold rne. destruct (_ <? _); [lia|].
  destruct (_ =? _); [destruct (Z.even _)|]; lia.
Qed.

Lemma rne_exact (m : Z) : rne (4 * m) = m.
Proof.
  unfold rne. replace (4 * m / 4) with m
    by (Z.to_euclidean_division_equations; lia).
  replace ((4 * m) mod 4) with 0 by (Z.to_euclidean_division_equations; lia).
  reflexivity.
Qed.

Lemma rne_mono (p q : Z) : p <= q -> rne p <= rne q.
Proof.
  intros Hpq.
  pose proof (Z.div_le_mono p q 4 ltac:(lia) Hpq) as Hd.
  destruct (Z.eq_dec (p / 4) (q / 4)) as [E|E].
  - assert (Hm : p mod 4 <= q mod 4)
      by (Z.to_euclidean_division_equations; lia).
    unfold rne. rewrite E.
    destruct (Z.ltb_spec (p mod 4) 2), (Z.ltb_spec (q mod 4) 2);
      destruct (Z.eqb_spec (p mod 4) 2), (Z.eqb_spec (q mod 4) 2);
      destruct (Z.even (q / 4)); lia.
  - pose proof (rne_bounds p). pose proof (rne_bounds q). lia.
Qed.

(** ** Rounding a position to binary64 *)

Lemma cexp_eq (m e : Z) : cexp m e = Z.max (Zdigits2 m + e - 53) (-1074).
Proof. reflexivity. Qed.

Lemma Zdigits2_nonneg (m : Z) : 0 <= Zdigits2 m.
Proof. destruct m; cbn; lia. Qed.

Lemma Zdigits2_bounds (m : Z) :
  0 < m -> 2 ^ (Zdigits2 m - 1) <= m < 2 ^ Zdigits2 m.
Proof. destruct m; try lia. intros _. apply digits2_pos_bounds. Qed.

Lemma Zdigits2_lt (m : Z) : 0 <= m -> m < 2 ^ Zdigits2 m.
Proof.
  intros Hm. destruct (Z.eq_dec m 0) as [->|]; [cbn; lia|].
  apply Zdigits2_bounds; lia.
Qed.

Lemma Zdigits2_le (m n : Z) : 0 <= m -> 0 <= n -> m < 2 ^ n -> Zdigits2 m <= n.
Proof.
  intros Hm Hn Hlt. destruct (Z.eq_dec m 0) as [->|]; [cbn; lia|].
  destruct (Zdigits2_bounds m ltac:(lia)) as [Hl _].
  destruct (Z.le_gt_cases (Zdigits2 m) n) as [|Hgt]; [assumption|exfalso].
  assert (2 ^ n <= 2 ^ (Zdigits2 m - 1)) by (apply Z.pow_le_mono_r; lia).
  lia.
Qed.

Lemma Zdigits2_ge (m n : Z) : 0 <= n -> 2 ^ n <= m -> n + 1 <= Zdigits2 m.
Proof.
  intros Hn Hle.
  assert (0 < m) by (pose proof (pow2_pos n Hn); lia).
  destruct (Zdigits2_bounds m ltac:(lia)) as [_ Hu].
  destruct (Z.le_gt_cases (n + 1) (Zdigits2 m)) as [|Hgt]; [assumption|exfalso].
  pose proof (Zdigits2_nonneg m).
  assert (2 ^ Zdigits2 m <= 2 ^ n) by (apply Z.pow_le_mono_r; lia).
  lia.
Qed.

Lemma Zdigits2_mono (m n : Z) : 0 <= m <= n -> Zdigits2 m <= Zdigits2 n.
Proof.
  intros [Hm Hmn]. apply Zdigits2_le; [lia | apply Zdigits2_nonneg |].
  pose proof (Zdigits2_lt n ltac:(lia)). lia.
Qed.

(** The digits that remain after dropping [k] binary places. *)
Lemma Zdigits2_shift (m k : Z) :
  0 <= k -> 1 <= m / 2 ^ k -> Zdigits2 (m / 2 ^ k) = Zdigits2 m - k.
Proof.
  intros Hk Hq.
  assert (Pk : 0 < 2 ^ k) by (apply pow2_pos; lia).
  assert (Hm : 2 ^ k <= m).
  { pose proof (Z.mul_div_le m (2 ^ k) Pk). nia. }
  assert (0 < m) by lia.
  destruct (Zdigits2_bounds m ltac:(lia)) as [Hl Hu].
  pose proof (Zdigits2_ge m k Hk Hm) as Hd.
  apply Z.le_antisymm.
  - apply Zdigits2_le; [lia | lia |].
    apply Z.div_lt_upper_bound; [lia|].
    rewrite <- Z.pow_add_r by lia.
    replace (k + (Zdigits2 m - k)) with (Zdigits2 m) by lia. exact Hu.
  - assert (2 ^ (Zdigits2 m - k - 1) <= m / 2 ^ k).
    { apply Z.div_le_lower_bound; [lia|].
      rewrite <- Z.pow_add_r by lia.
      replace (k + (Zdigits2 m - k - 1)) with (Zdigits2 m - 1) by lia.
      exact Hl. }
    pose proof (Zdigits2_ge (m / 2 ^ k) (Zdigits2 m - k - 1) ltac:(lia) H0).
    lia.
Qed.

Lemma rne_nonneg (p : Z) : 0 <= p -> 0 <= rne p.
Proof.
  intros Hp. pose proof (rne_bounds p).
  assert (0 <= p / 4) by (apply Z.div_pos; lia). lia.
Qed.

(** A mantissa with at most 53 digits rounds to at most [2^53]. *)
Lemma rne_le_pow (p n : Z) : 0 <= n -> p / 4 < 2 ^ n -> rne p <= 2 ^ n.
Proof. intros Hn Hp. pose proof (rne_bounds p). lia. Qed.

Section Rounded.

Variables (p e : Z).
Hypothesis Hp : 0 <= p.
Hypothesis Hfine : e <= cexp (p / 4) e.

Local Set Default Proof Using "Type*".
Local Abbreviation m := (p / 4).
Local Abbreviation E := (cexp m e).
Local Abbreviation m1 := (rne (shift_code (E - e) p)).

Lemma m_nonneg : 0 <= m.
Proof. apply Z.div_pos; lia. Qed.

Lemma E_ge : -1074 <= E.
Proof. rewrite cexp_eq. lia. Qed.

Lemma shifted_lt : shift_code (E - e) p / 4 < 2 ^ 53.
Proof.
  rewrite shift_code_quarter by lia.
  assert (Pk : 0 < 2 ^ (E - e)) by (apply pow2_pos; lia).
  apply Z.div_lt_upper_bound; [lia|].
  rewrite <- Z.pow_add_r by lia.
  eapply Z.lt_le_trans; [apply Zdigits2_lt, m_nonneg|].
  apply Z.pow_le_mono_r; [lia|].
  rewrite cexp_eq. pose proof (Zdigits2_nonneg m). lia.
Qed.

Lemma m1_range : 0 <= m1 <= 2 ^ 53.
Proof.
  split.
  - apply rne_nonneg, shift_code_nonneg; lia.
  - apply rne_le_pow; [lia | apply shifted_lt].
Qed.

(** Above the subnormal range the rounded mantissa has 53 digits. *)
Lemma m1_normal : -1074 < E -> 2 ^ 52 <= m1.
Proof.
  intros HE.
  eapply Z.le_trans; [|apply rne_bounds].
  rewrite shift_code_quarter by lia.
  assert (HEq : E = Zdigits2 m + e - 53) by (rewrite cexp_eq in *; lia).
  assert (Hpos : 0 < m).
  { pose proof m_nonneg. destruct (Z.eq_dec m 0) as [Hz|]; [|lia]. exfalso.
    rewrite Hz, cexp_eq in HE, Hfine. cbn [Zdigits2] in *. lia. }
  destruct (Zdigits2_bounds m Hpos) as [Hl _].
  apply Z.div_le_lower_bound; [apply pow2_pos; lia|].
  rewrite <- Z.pow_add_r by lia.
  replace (E - e + 52) with (Zdigits2 m - 1) by lia. exact Hl.
Qed.

(** The rounded mantissa is below the next power of two of the input. *)
Lemma m1_le : m1 * 2 ^ (E + 1074) <= 2 ^ (Z.max (Zdigits2 m + e) E + 1074).
Proof.
  pose proof E_ge. pose proof (Zdigits2_nonneg m). pose proof m_nonneg.
  assert (Hq : shift_code (E - e) p / 4 < 2 ^ Z.max (Zdigits2 m + e - E) 0).
  { rewrite shift_code_quarter by lia.
    apply Z.div_lt_upper_bound; [apply pow2_pos; lia|].
    rewrite <- Z.pow_add_r by lia.
    eapply Z.lt_le_trans; [apply Zdigits2_lt; lia|].
    apply Z.pow_le_mono_r; lia. }
  pose proof (rne_le_pow _ (Z.max (Zdigits2 m + e - E) 0) ltac:(lia) Hq)
    as Hr.
  eapply Z.le_trans.
  - apply Z.mul_le_mono_nonneg_r; [|exact Hr].
    apply Z.lt_le_incl, pow2_pos; lia.
  - rewrite <- Z.pow_add_r by lia. apply Z.pow_le_mono_r; lia.
Qed.

End Rounded.

Lemma loc_code_range (l : location) : 0 <= loc_code l <= 3.
Proof. destruct l as [|[]]; cbn; lia. Qed.

Lemma code_quarter (m : Z) (l : location) : (4 * m + loc_code l) / 4 = m.
Proof.
  pose proof (loc_code_range l). Z.to_euclidean_division_equations; lia.
Qed.

(** [binary_round_aux] rounds the position it is given to nearest even,
    provided the grid it is given on is fine enough. *)
Lemma round_aux_scaled (s : bool) (m e : Z) (l : location) :
  0 <= m -> e <= cexp m e ->
  is_nan_SF (binary_round_aux prec emax s m e l) = false /\
  valid_binary (binary_round_aux prec emax s m e l) = true /\
  scaled (binary_round_aux prec emax s m e l)
    = cond_Zopp s (rounded (4 * m + loc_code l) e).
Proof.
  intros Hm Hfine.
  set (p := 4 * m + loc_code l).
  assert (Hq : p / 4 = m) by apply code_quarter.
  assert (Hp : 0 <= p) by (pose proof (loc_code_range l); lia).
  assert (Hfine' : e <= cexp (p / 4) e) by (rewrite Hq; exact Hfine).
  set (E := cexp m e).
  set (m1 := rne (shift_code (E - e) p)).
  pose proof (m1_range p e Hp Hfine') as R1.
  pose proof (m1_normal p e Hp Hfine') as Hnorm.
  pose proof (E_ge p e) as GE.
  rewrite Hq in R1, Hnorm, GE. fold E in R1, Hnorm, GE. fold m1 in R1, Hnorm.
  assert (V : rounded p e = Z.min (m1 * 2 ^ (E + 1074)) (2 ^ 2098)).
  { unfold rounded. rewrite Hq. reflexivity. }
  rewrite V. clear V.
  unfold binary_round_aux, shr_fexp.
  pose proof (shr_code (shr_record_of_loc m l) e
                (fexp prec emax (Zdigits2 m + e) - e)) as H1.
  destruct (shr (shr_record_of_loc m l) e _) as [mrs' e'].
  cbn [fst snd] in H1.
  destruct H1 as (N1 & C1 & X1);
    [destruct l as [|[]]; exact Hm|].
  rewrite code_of_loc in C1. fold p in C1.
  change (fexp prec emax (Zdigits2 m + e)) with E in *.
  replace (Z.max (E - e) 0) with (E - e) in * by lia.
  replace (e + (E - e)) with E in X1 by lia. subst e'.
  rewrite (rne_code mrs' N1), C1. fold m1.
  pose proof (shr_code (shr_record_of_loc m1 loc_Exact) E
                (fexp prec emax (Zdigits2 m1 + E) - E)) as H2.
  destruct (shr (shr_record_of_loc m1 loc_Exact) E _) as [mrs'' e''].
  cbn [fst snd] in H2.
  destruct H2 as (N2 & C2 & X2); [cbn; lia|].
  rewrite code_of_loc in C2. cbn [loc_code] in C2.
  assert (Q2 : shr_m mrs'' = code_of mrs'' / 4).
  { unfold code_of. destruct (shr_r mrs''), (shr_s mrs''); cbn [Z.b2z];
      Z.to_euclidean_division_equations; lia. }
  assert (P1 : 0 < 2 ^ (E + 1074)) by (apply pow2_pos; lia).
  change (fexp prec emax (Zdigits2 m1 + E)) with (cexp m1 E) in *.
  destruct (Z.eq_dec m1 (2 ^ 53)) as [Ec|Nc].
  - (* the mantissa carried into a 54th digit *)
    assert (K : cexp m1 E - E = 1).
    { rewrite cexp_eq, Ec. change (Zdigits2 (2 ^ 53)) with 54. lia. }
    rewrite K in *. change (Z.max 1 0) with 1 in *.
    assert (M2 : shr_m mrs'' = 2 ^ 52).
    { rewrite Q2, C2, shift_code_quarter by lia.
      replace (4 * m1 + 0) with (4 * m1) by lia.
      replace (4 * m1 / 4) with m1
        by (Z.to_euclidean_division_equations; lia).
      rewrite Ec. reflexivity. }
    rewrite M2. subst e''. change (2 ^ 52) with (Z.pos (2 ^ 52)).
    cbv iota beta.
    change emax with 1024; change prec with 53.
    destruct (Z.leb_spec (E + 1) (1024 - 53)) as [Hle|Hgt];
      cbn [is_nan_SF scaled valid_binary]; (split; [reflexivity|]);
      (split; [|f_equal]); try reflexivity.
    + unfold bounded, canonical_mantissa, fexp, SpecFloat.emin.
      change (Z.pos (digits2_pos (2 ^ 52))) with 53.
      change emax with 1024; change prec with 53.
      apply andb_true_intro; split; [apply Z.eqb_eq | apply Z.leb_le]; lia.
    + assert (E2 : m1 * 2 ^ (E + 1074) = 2 ^ 52 * 2 ^ (E + 1 + 1074)).
      { rewrite Ec. rewrite <- !Z.pow_add_r by lia. f_equal; lia. }
      rewrite E2. change (Z.pos (2 ^ 52)) with (2 ^ 52).
      assert (2 ^ 52 * 2 ^ (E + 1 + 1074) <= 2 ^ 2098).
      { rewrite <- Z.pow_add_r by lia. apply Z.pow_le_mono_r; lia. }
      lia.
    + assert (2 ^ 2098 <= m1 * 2 ^ (E + 1074)).
      { rewrite Ec. rewrite <- Z.pow_add_r by lia.
        apply Z.pow_le_mono_r; lia. }
      lia.
  - (* no carry: the second normalisation does nothing *)
    assert (K : Z.max (cexp m1 E - E) 0 = 0).
    { assert (Zdigits2 m1 <= 53)
        by (apply Zdigits2_le; lia).
      rewrite cexp_eq. lia. }
    rewrite K in *. rewrite shift_code_0 in C2.
    assert (M2 : shr_m mrs'' = m1).
    { rewrite Q2, C2. Z.to_euclidean_division_equations; lia. }
    rewrite M2. replace (E + 0) with E in X2 by lia. subst e''.
    clearbody m1.
    destruct m1 as [|q|q]; [| |lia].
    + cbn [is_nan_SF scaled valid_binary]. split; [reflexivity|].
      split; [reflexivity|].
      rewrite Z.mul_0_l. rewrite Z.min_l by (pose proof (pow2_pos 2098); lia).
      destruct s; reflexivity.
    + change emax with 1024; change prec with 53.
      destruct (Z.leb_spec E (1024 - 53)) as [Hle|Hgt];
        cbn [is_nan_SF scaled valid_binary]; (split; [reflexivity|]);
        (split; [|f_equal]); try reflexivity.
      * assert (Hd : Zdigits2 (Z.pos q) <= 53) by (apply Zdigits2_le; lia).
        cbn [Zdigits2] in Hd.
        unfold bounded, canonical_mantissa, fexp, SpecFloat.emin.
        change emax with 1024; change prec with 53.
        apply andb_true_intro; split; [apply Z.eqb_eq | apply Z.leb_le; lia].
        destruct (Z.eq_dec E (-1074)) as [E0|E0]; [lia|].
        pose proof (Hnorm ltac:(lia)) as Hn.
        pose proof (Zdigits2_ge (Z.pos q) 52 ltac:(lia) Hn) as Hg.
        cbn [Zdigits2] in Hg. lia.
      * assert (Z.pos q * 2 ^ (E + 1074) < 2 ^ 53 * 2 ^ (E + 1074))
          by (apply Z.mul_lt_mono_pos_r; lia).
        assert (2 ^ 53 * 2 ^ (E + 1074) <= 2 ^ 2098).
        { rewrite <- Z.pow_add_r by lia. apply Z.pow_le_mono_r; lia. }
        lia.
      * pose proof (Hnorm ltac:(lia)) as Hn.
        assert (2 ^ 52 * 2 ^ (E + 1074) <= Z.pos q * 2 ^ (E + 1074))
          by (apply Z.mul_le_mono_nonneg_r; lia).
        assert (2 ^ 2098 <= 2 ^ 52 * 2 ^ (E + 1074)).
        { rewrite <- Z.pow_add_r by lia. apply Z.pow_le_mono_r; lia. }
        lia.
Qed.

Lemma cexp_mono (m n e : Z) : 0 <= m <= n -> cexp m e <= cexp n e.
Proof.
  intros H. rewrite !cexp_eq. pose proof (Zdigits2_mono m n H). lia.
Qed.

(** Rounding is monotone. *)
Lemma rounded_mono (p q e : Z) :
  e <= -1074 -> 0 <= p <= q -> rounded p e <= rounded q e.
Proof.
  intros He [Hp Hpq].
  assert (Fp : e <= cexp (p / 4) e) by (rewrite cexp_eq; lia).
  assert (Fq : e <= cexp (q / 4) e) by (rewrite cexp_eq; lia).
  assert (Hm : 0 <= p / 4 <= q / 4).
  { split; [apply Z.div_pos; lia | apply Z.div_le_mono; lia]. }
  pose proof (cexp_mono _ _ e Hm) as HE.
  unfold rounded. apply Z.min_le_compat_r.
  destruct (Z.eq_dec (cexp (p / 4) e) (cexp (q / 4) e)) as [Eq|Ne].
  - rewrite Eq. apply Z.mul_le_mono_nonneg_r.
    + apply Z.lt_le_incl, pow2_pos. rewrite cexp_eq. lia.
    + apply rne_mono, shift_code_mono; [rewrite cexp_eq; lia | lia].
  - pose proof (m1_le p e Hp Fp) as Up.
    pose proof (m1_normal q e ltac:(lia) Fq) as Lq.
    pose proof (E_ge p e) as Gp.
    assert (Hq : -1074 < cexp (q / 4) e) by lia.
    specialize (Lq Hq).
    assert (HEq : cexp (q / 4) e = Zdigits2 (q / 4) + e - 53)
      by (rewrite cexp_eq in *; lia).
    assert (Hd : Zdigits2 (p / 4) < Zdigits2 (q / 4)).
    { rewrite !cexp_eq in HE, Ne, Hq. pose proof (Zdigits2_mono _ _ Hm). lia. }
    eapply Z.le_trans; [exact Up|].
    apply Z.le_trans with (2 ^ 52 * 2 ^ (cexp (q / 4) e + 1074)).
    + rewrite <- Z.pow_add_r by lia. apply Z.pow_le_mono_r; lia.
    + apply Z.mul_le_mono_nonneg_r; [|exact Lq].
      apply Z.lt_le_incl, pow2_pos; lia.
Qed.

(** Rounding does not depend on the grid a position is given on. *)
Lemma rounded_shift (p e j : Z) :
  0 <= p -> 0 <= j -> e <= cexp (shift_code j p / 4) e ->
  rounded p (e - j) = rounded (shift_code j p) e.
Proof.
  intros Hp Hj Hfine.
  assert (Hq : shift_code j p / 4 = p / 4 / 2 ^ j)
    by (apply shift_code_quarter; lia).
  assert (Pj : 0 < 2 ^ j) by (apply pow2_pos; lia).
  assert (Hm' : 0 <= p / 4) by (apply Z.div_pos; lia).
  assert (HE : cexp (p / 4) (e - j) = cexp (shift_code j p / 4) e).
  { rewrite Hq in *. rewrite !cexp_eq in *.
    destruct (Z.le_gt_cases 1 (p / 4 / 2 ^ j)) as [H1|H0].
    - rewrite (Zdigits2_shift _ _ Hj H1). f_equal; lia.
    - assert (Hz : p / 4 / 2 ^ j = 0)
        by (pose proof (Z.div_pos (p / 4) (2 ^ j) Hm' Pj); lia).
      rewrite Hz in *. cbn [Zdigits2] in *.
      assert (p / 4 < 2 ^ j).
      { apply Z.div_small_iff in Hz; lia. }
      pose proof (Zdigits2_le (p / 4) j Hm' Hj H). lia. }
  unfold rounded. rewrite HE. f_equal. f_equal. f_equal.
  rewrite shift_code_add by lia. f_equal; lia.
Qed.

(** ** Rounding a dyadic number *)

Lemma rounded_0 (e : Z) : rounded 0 e = 0.
Proof.
  unfold rounded. change (0 / 4) with 0.
  assert (H : shift_code (cexp 0 e - e) 0 = 0).
  { unfold shift_code. rewrite Zdiv_0_l, Zmod_0_l. reflexivity. }
  rewrite H. change (rne 0) with 0. rewrite Z.mul_0_l.
  apply Z.min_l. apply Z.lt_le_incl, pow2_pos; lia.
Qed.

Lemma rounded_nonneg (p e : Z) : 0 <= p -> e <= -1074 -> 0 <= rounded p e.
Proof.
  intros Hp He. rewrite <- (rounded_0 e). apply rounded_mono; lia.
Qed.

Lemma rounded_le_inf (p e : Z) : rounded p e <= 2 ^ 2098.
Proof. unfold rounded. apply Z.le_min_r. Qed.

Lemma round_dyadic_mono (v w e : Z) :
  e <= -1074 -> v <= w -> round_dyadic v e <= round_dyadic w e.
Proof.
  intros He Hvw. unfold round_dyadic.
  pose proof (rounded_nonneg (4 * Z.abs v) e ltac:(lia) He).
  pose proof (rounded_nonneg (4 * Z.abs w) e ltac:(lia) He).
  destruct (Z.sgn_spec v) as [[Hv ->]|[[Hv ->]|[Hv ->]]];
    destruct (Z.sgn_spec w) as [[Hw ->]|[[Hw ->]|[Hw ->]]]; try lia.
  - assert (rounded (4 * Z.abs v) e <= rounded (4 * Z.abs w) e)
      by (apply rounded_mono; lia). lia.
  - assert (rounded (4 * Z.abs w) e <= rounded (4 * Z.abs v) e)
      by (apply rounded_mono; lia). lia.
Qed.

Lemma round_dyadic_opp (v e : Z) : round_dyadic (- v) e = - round_dyadic v e.
Proof. unfold round_dyadic. rewrite Z.sgn_opp, Z.abs_opp. lia. Qed.

Lemma round_dyadic_pos (v e : Z) :
  0 <= v -> round_dyadic v e = rounded (4 * v) e.
Proof.
  intros Hv. unfold round_dyadic.
  destruct (Z.eq_dec v 0) as [->|].
  - cbn. rewrite rounded_0. reflexivity.
  - rewrite Z.sgn_pos, Z.abs_eq by lia. lia.
Qed.

Lemma round_dyadic_cond (s : bool) (v e : Z) :
  0 <= v -> round_dyadic (cond_Zopp s v) e = cond_Zopp s (rounded (4 * v) e).
Proof.
  intros Hv. destruct s; cbn [cond_Zopp].
  - rewrite round_dyadic_opp, round_dyadic_pos by lia. reflexivity.
  - apply round_dyadic_pos; lia.
Qed.

(** An exact position moved to a finer grid. *)
Lemma shift_code_exact (a j : Z) :
  0 <= j -> shift_code j (4 * (a * 2 ^ j)) = 4 * a.
Proof.
  intros Hj. unfold shift_code.
  assert (P : 0 < 2 ^ (j + 1)) by (apply pow2_pos; lia).
  replace (4 * (a * 2 ^ j)) with (2 * a * 2 ^ (j + 1))
    by (rewrite Z.pow_add_r by lia; change (2 ^ 1) with 2; lia).
  rewrite Z.div_mul, Z.mod_mul by lia. cbn. lia.
Qed.

Lemma rounded_exact_shift (a e e0 : Z) :
  0 <= a -> e0 <= e -> e <= cexp a e ->
  rounded (4 * (a * 2 ^ (e - e0))) e0 = rounded (4 * a) e.
Proof.
  intros Ha He Hfine.
  pose proof (rounded_shift (4 * (a * 2 ^ (e - e0))) e (e - e0)) as H.
  rewrite shift_code_exact in H by lia.
  replace (e - (e - e0)) with e0 in H by lia.
  apply H; [|lia|].
  - pose proof (pow2_pos (e - e0) ltac:(lia)). nia.
  - replace (4 * a / 4) with a by (Z.to_euclidean_division_equations; lia).
    exact Hfine.
Qed.

(** A valid number is its own rounding. *)
Lemma rounded_valid (m : positive) (e : Z) :
  bounded prec emax m e = true ->
  rounded (4 * Z.pos m) e = Z.pos m * 2 ^ (e + 1074).
Proof.
  intros Hb. pose proof (finite_bounds m e Hb) as Hf.
  unfold rounded.
  replace (4 * Z.pos m / 4) with (Z.pos m)
    by (Z.to_euclidean_division_equations; lia).
  assert (HE : cexp (Z.pos m) e = e).
  { unfold bounded, canonical_mantissa in Hb.
    apply andb_prop in Hb as [Hb _]. apply Z.eqb_eq in Hb. exact Hb. }
  rewrite HE, Z.sub_diag, shift_code_0, rne_exact. lia.
Qed.

Lemma cexp_valid (m : positive) (e : Z) :
  bounded prec emax m e = true -> cexp (Z.pos m) e = e.
Proof.
  intros Hb. unfold bounded, canonical_mantissa in Hb.
  apply andb_prop in Hb as [Hb _]. apply Z.eqb_eq in Hb. exact Hb.
Qed.

Lemma round_dyadic_valid (x : spec_float) :
  valid_binary x = true -> finite_or_zero x = true ->
  round_dyadic (scaled x) (-1074) = scaled x.
Proof.
  destruct x as [s|s| |s m e]; try discriminate; cbn [valid_binary scaled];
    intros Hv _.
  - reflexivity.
  - destruct (bounded_inv m e Hv) as (He & _).
    pose proof (pow2_pos (e + 1074) ltac:(lia)).
    rewrite round_dyadic_cond by lia. f_equal.
    replace (e + 1074) with (e - -1074) by lia.
    rewrite rounded_exact_shift; try lia.
    + rewrite rounded_valid by assumption. f_equal; lia.
    + rewrite cexp_valid by assumption. lia.
Qed.

(** ** Left shifts of a mantissa *)

Lemma iter_xO (m d : positive) :
  Z.pos (Pos.iter xO m d) = Z.pos m * 2 ^ Z.pos d.
Proof.
  induction d as [|d IH] using Pos.peano_ind.
  - cbn [Pos.iter]. lia.
  - rewrite Pos.iter_succ. rewrite Pos2Z.inj_xO, IH, Pos2Z.inj_succ.
    rewrite Z.pow_succ_r by lia. lia.
Qed.

Lemma shl_align_spec (m : positive) (e e' : Z) :
  let r := shl_align m e e' in
  snd r = Z.min e e' /\ Z.pos (fst r) = Z.pos m * 2 ^ (e - Z.min e e').
Proof.
  unfold shl_align. destruct (e' - e) as [|d|d] eqn:Ed; cbn [fst snd].
  - replace (Z.min e e') with e by lia. rewrite Z.sub_diag. lia.
  - replace (Z.min e e') with e by lia. rewrite Z.sub_diag. lia.
  - replace (Z.min e e') with e' by lia. split; [reflexivity|].
    rewrite iter_xO. f_equal. f_equal. lia.
Qed.

Lemma Zdigits2_mul_pow (a j : Z) :
  0 < a -> 0 <= j -> Zdigits2 (a * 2 ^ j) = Zdigits2 a + j.
Proof.
  intros Ha Hj.
  pose proof (pow2_pos j Hj) as Pj.
  pose proof (Zdigits2_shift (a * 2 ^ j) j Hj) as H.
  rewrite Z.div_mul in H by lia. rewrite H; lia.
Qed.

(** [binary_round] rounds the dyadic [m * 2^e]. *)
Lemma binary_round_scaled (s : bool) (m : positive) (e e0 : Z) :
  e0 <= e -> e0 <= -1074 ->
  is_nan_SF (binary_round prec emax s m e) = false /\
  valid_binary (binary_round prec emax s m e) = true /\
  scaled (binary_round prec emax s m e)
    = cond_Zopp s (rounded (4 * (Z.pos m * 2 ^ (e - e0))) e0).
Proof.
  intros He He0. unfold binary_round.
  pose proof (shl_align_spec m e (fexp prec emax (Z.pos (digits2_pos m) + e)))
    as H.
  destruct (shl_align m e _) as [mz ez]. cbn [fst snd] in H.
  destruct H as [Hez Hmz].
  change (fexp prec emax (Z.pos (digits2_pos m) + e))
    with (cexp (Z.pos m) e) in *.
  assert (Hfine : ez <= cexp (Z.pos mz) ez).
  { rewrite Hmz, Hez.
    destruct (Z.le_gt_cases e (cexp (Z.pos m) e)) as [Hle|Hgt].
    - replace (Z.min e (cexp (Z.pos m) e)) with e by lia.
      rewrite Z.sub_diag, Z.mul_1_r. exact Hle.
    - replace (Z.min e (cexp (Z.pos m) e)) with (cexp (Z.pos m) e) by lia.
      assert (Hd : Zdigits2 (Z.pos m * 2 ^ (e - cexp (Z.pos m) e))
                   = Zdigits2 (Z.pos m) + (e - cexp (Z.pos m) e))
        by (apply Zdigits2_mul_pow; lia).
      rewrite (cexp_eq (Z.pos m * _)), Hd.
      rewrite cexp_eq. lia. }
  destruct (round_aux_scaled s (Z.pos mz) ez loc_Exact ltac:(lia) Hfine)
    as (Hn & Hv & Hs).
  split; [exact Hn|]. split; [exact Hv|]. rewrite Hs. f_equal.
  cbn [loc_code].
  rewrite Z.add_0_r.
  assert (Hge : e0 <= ez) by (rewrite Hez, cexp_eq; lia).
  rewrite <- (rounded_exact_shift (Z.pos mz) ez e0) by lia.
  f_equal. f_equal. rewrite Hmz, <- Z.mul_assoc, <- Z.pow_add_r by lia.
  f_equal. f_equal. lia.
Qed.

Lemma binary_normalize_scaled (v e e0 : Z) :
  e0 <= e -> e0 <= -1074 ->
  is_nan_SF (binary_normalize prec emax v e false) = false /\
  valid_binary (binary_normalize prec emax v e false) = true /\
  scaled (binary_normalize prec emax v e false)
    = round_dyadic (v * 2 ^ (e - e0)) e0.
Proof.
  intros He He0. pose proof (pow2_pos (e - e0) ltac:(lia)) as P.
  destruct v as [|m|m]; cbn [binary_normalize].
  - split; [reflexivity|]. split; [reflexivity|].
    cbn. unfold round_dyadic. cbn. lia.
  - destruct (binary_round_scaled false m e e0 He He0) as (Hn & Hv & Hs).
    split; [exact Hn|]. split; [exact Hv|]. rewrite Hs. cbn [cond_Zopp].
    rewrite round_dyadic_pos by lia. reflexivity.
  - destruct (binary_round_scaled true m e e0 He He0) as (Hn & Hv & Hs).
    split; [exact Hn|]. split; [exact Hv|]. rewrite Hs. cbn [cond_Zopp].
    change (Z.neg m) with (- Z.pos m).
    rewrite Z.mul_opp_l, round_dyadic_opp, round_dyadic_pos by lia.
    reflexivity.
Qed.

(** ** Addition, subtraction and multiplication *)

Lemma scaled_finite (s : bool) (m : positive) (e : Z) :
  scaled (S754_finite s m e) = cond_Zopp s (Z.pos m * 2 ^ (e + 1074)).
Proof. reflexivity. Qed.

Lemma cond_Zopp_mul (s : bool) (a b : Z) :
  cond_Zopp s a * b = cond_Zopp s (a * b).
Proof. destruct s; cbn; lia. Qed.

Lemma cond_Zopp_xorb (s t : bool) (a b : Z) :
  cond_Zopp s a * cond_Zopp t b = cond_Zopp (xorb s t) (a * b).
Proof. destruct s, t; cbn; lia. Qed.

(** ** Addition and subtraction of finite numbers *)

Lemma aligned (m : positive) (e e' : Z) :
  -1074 <= e' <= e ->
  Z.pos (fst (shl_align m e e')) * 2 ^ (e' + 1074)
    = Z.pos m * 2 ^ (e + 1074).
Proof.
  intros He. destruct (shl_align_spec m e e') as [_ H]. rewrite H.
  replace (Z.min e e') with e' by lia.
  rewrite <- Z.mul_assoc, <- Z.pow_add_r by lia. f_equal. f_equal. lia.
Qed.

Lemma SFadd_scaled (x y : spec_float) :
  valid_binary x = true -> valid_binary y = true ->
  finite_or_zero x = true -> finite_or_zero y = true ->
  is_nan_SF (SF64add x y) = false /\
  scaled (SF64add x y) = round_dyadic (scaled x + scaled y) (-1074).
Proof.
  intros Vx Vy Fx Fy.
  destruct x as [sx|sx| |sx mx ex], y as [sy|sy| |sy my ey];
    try discriminate; unfold SF64add; cbn [SFadd].
  - split; [destruct sx, sy; reflexivity|].
    destruct sx, sy; reflexivity.
  - split; [reflexivity|].
    rewrite Z.add_0_l. symmetry. apply round_dyadic_valid; assumption.
  - split; [reflexivity|].
    change (scaled (S754_zero sy)) with 0. rewrite Z.add_0_r.
    symmetry. apply round_dyadic_valid; assumption.
  - cbn [valid_binary] in Vx, Vy.
    destruct (bounded_inv mx ex Vx) as (Hex & _).
    destruct (bounded_inv my ey Vy) as (Hey & _).
    set (ez := Z.min ex ey).
    destruct (binary_normalize_scaled
                (cond_Zopp sx (Z.pos (fst (shl_align mx ex ez)))
                 + cond_Zopp sy (Z.pos (fst (shl_align my ey ez))))
                ez (-1074) ltac:(lia) ltac:(lia)) as (Hn & _ & Hs).
    split; [exact Hn|]. rewrite Hs. f_equal.
    replace (ez - -1074) with (ez + 1074) by lia.
    rewrite Z.mul_add_distr_r, !cond_Zopp_mul, !aligned by lia.
    reflexivity.
Qed.

Lemma SFsub_scaled (x y : spec_float) :
  valid_binary x = true -> valid_binary y = true ->
  finite_or_zero x = true -> finite_or_zero y = true ->
  is_nan_SF (SF64sub x y) = false /\
  scaled (SF64sub x y) = round_dyadic (scaled x - scaled y) (-1074).
Proof.
  intros Vx Vy Fx Fy.
  destruct x as [sx|sx| |sx mx ex], y as [sy|sy| |sy my ey];
    try discriminate; unfold SF64sub; cbn [SFsub].
  - split; [destruct sx, sy; reflexivity|].
    destruct sx, sy; reflexivity.
  - split; [reflexivity|].
    change (scaled (S754_zero sx)) with 0. rewrite Z.sub_0_l.
    rewrite round_dyadic_opp, round_dyadic_valid by assumption.
    rewrite !scaled_finite. destruct sy; cbn; lia.
  - split; [reflexivity|].
    change (scaled (S754_zero sy)) with 0. rewrite Z.sub_0_r.
    symmetry. apply round_dyadic_valid; assumption.
  - cbn [valid_binary] in Vx, Vy.
    destruct (bounded_inv mx ex Vx) as (Hex & _).
    destruct (bounded_inv my ey Vy) as (Hey & _).
    set (ez := Z.min ex ey).
    destruct (binary_normalize_scaled
                (cond_Zopp sx (Z.pos (fst (shl_align mx ex ez)))
                 - cond_Zopp sy (Z.pos (fst (shl_align my ey ez))))
                ez (-1074) ltac:(lia) ltac:(lia)) as (Hn & _ & Hs).
    split; [exact Hn|]. rewrite Hs. f_equal.
    replace (ez - -1074) with (ez + 1074) by lia.
    rewrite Z.mul_sub_distr_r, !cond_Zopp_mul, !aligned by lia.
    reflexivity.
Qed.

(** ** Multiplication of finite numbers *)

Lemma Zdigits2_mul (a b : Z) :
  0 < a -> 0 < b -> Zdigits2 a + Zdigits2 b - 1 <= Zdigits2 (a * b).
Proof.
  intros Ha Hb.
  destruct (Zdigits2_bounds a Ha) as [La _].
  destruct (Zdigits2_bounds b Hb) as [Lb _].
  pose proof (Zdigits2_nonneg a). pose proof (Zdigits2_nonneg b).
  assert (0 < Zdigits2 a).
  { destruct a; try lia. cbn. lia. }
  assert (0 < Zdigits2 b).
  { destruct b; try lia. cbn. lia. }
  assert (Hab : 2 ^ (Zdigits2 a - 1 + (Zdigits2 b - 1)) <= a * b).
  { rewrite Z.pow_add_r by lia.
    apply Z.mul_le_mono_nonneg; try lia;
      apply Z.lt_le_incl, pow2_pos; lia. }
  pose proof (Zdigits2_ge (a * b) (Zdigits2 a - 1 + (Zdigits2 b - 1))
               ltac:(lia) Hab). lia.
Qed.

Lemma product_fine (mx my : positive) (ex ey : Z) :
  bounded prec emax mx ex = true -> bounded prec emax my ey = true ->
  ex + ey <= cexp (Z.pos (mx * my)) (ex + ey).
Proof.
  intros Vx Vy.
  destruct (bounded_inv mx ex Vx) as (Hex & Hdx & Hnx).
  destruct (bounded_inv my ey Vy) as (Hey & Hdy & Hny).
  pose proof (Zdigits2_mul (Z.pos mx) (Z.pos my) ltac:(lia) ltac:(lia)) as Hd.
  cbn [Zdigits2] in Hd. rewrite Pos2Z.inj_mul, cexp_eq.
  assert (0 < Z.pos (digits2_pos mx)) by lia.
  assert (0 < Z.pos (digits2_pos my)) by lia.
  destruct (Z.eq_dec ex (-1074)), (Z.eq_dec ey (-1074)); lia.
Qed.

Lemma SFmul_scaled (x y : spec_float) :
  valid_binary x = true -> valid_binary y = true ->
  finite_or_zero x = true -> finite_or_zero y = true ->
  is_nan_SF (SF64mul x y) = false /\
  scaled (SF64mul x y) = round_dyadic (scaled x * scaled y) (-2148).
Proof.
  intros Vx Vy Fx Fy.
  destruct x as [sx|sx| |sx mx ex], y as [sy|sy| |sy my ey];
    try discriminate; unfold SF64mul; cbn [SFmul];
    try (split; [reflexivity|]; cbn [scaled];
         rewrite ?Z.mul_0_l, ?Z.mul_0_r; reflexivity).
  cbn [valid_binary] in Vx, Vy.
  destruct (bounded_inv mx ex Vx) as (Hex & _).
  destruct (bounded_inv my ey Vy) as (Hey & _).
  destruct (round_aux_scaled (xorb sx sy) (Z.pos (mx * my)) (ex + ey)
              loc_Exact ltac:(lia) (product_fine _ _ _ _ Vx Vy))
    as (Hn & _ & Hs).
  split; [exact Hn|]. rewrite Hs. cbn [loc_code]. rewrite Z.add_0_r.
  rewrite !scaled_finite, cond_Zopp_xorb.
  pose proof (pow2_pos (ex + 1074) ltac:(lia)).
  pose proof (pow2_pos (ey + 1074) ltac:(lia)).
  rewrite round_dyadic_cond by nia. f_equal.
  rewrite <- (rounded_exact_shift (Z.pos (mx * my)) (ex + ey) (-2148));
    [|lia|lia|exact (product_fine _ _ _ _ Vx Vy)].
  f_equal. f_equal. rewrite Pos2Z.inj_mul.
  replace (ex + ey - -2148) with ((ex + 1074) + (ey + 1074)) by lia.
  rewrite Z.pow_add_r by lia. lia.
Qed.

(** ** Quotients *)

Lemma quot_code_nonneg (n d : Z) : 0 <= n -> 0 < d -> 0 <= quot_code n d.
Proof.
  intros Hn Hd. unfold quot_code.
  pose proof (Z.div_pos n d Hn Hd). destruct (_ =? _); lia.
Qed.

Lemma quot_code_mono (n n' d : Z) :
  0 < d -> n <= n' -> quot_code n d <= quot_code n' d.
Proof.
  intros Hd Hn. unfold quot_code.
  pose proof (Z.div_le_mono n n' d Hd Hn) as Hq.
  destruct (Z.eq_dec (n / d) (n' / d)) as [E|E].
  - rewrite E.
    destruct (Z.eqb_spec (n mod d) 0) as [Ep|Ep];
      destruct (Z.eqb_spec (n' mod d) 0) as [Eq|Eq]; try lia.
    exfalso. pose proof (Z.div_mod n d ltac:(lia)).
    pose proof (Z.div_mod n' d ltac:(lia)).
    pose proof (Z.mod_pos_bound n d Hd). nia.
  - destruct (_ =? _); destruct (_ =? _); lia.
Qed.

(** The position of a quotient moved to a finer grid. *)
Lemma shift_quot_code (n d j : Z) :
  0 <= n -> 0 < d -> 0 <= j ->
  shift_code j (quot_code (n * 2 ^ j) d) = quot_code n d.
Proof.
  intros Hn Hd Hj.
  assert (Pj : 0 < 2 ^ j) by (apply pow2_pos; lia).
  set (c := n / d). set (r := n mod d).
  assert (En : n = d * c + r) by (apply Z.div_mod; lia).
  assert (Hr : 0 <= r < d) by (apply Z.mod_pos_bound; lia).
  set (a' := (r * 2 ^ j) / d). set (r' := (r * 2 ^ j) mod d).
  assert (Er : r * 2 ^ j = d * a' + r') by (apply Z.div_mod; lia).
  assert (Hr' : 0 <= r' < d) by (apply Z.mod_pos_bound; lia).
  assert (Ha' : 0 <= a' < 2 ^ j).
  { split; [apply Z.div_pos; nia|].
    apply Z.div_lt_upper_bound; [lia|]. nia. }
  assert (Q : n * 2 ^ j / d = c * 2 ^ j + a').
  { symmetry. apply (Z.div_unique _ _ _ r'); [lia|]. nia. }
  assert (R : (n * 2 ^ j) mod d = r').
  { symmetry. apply (Z.mod_unique _ _ (c * 2 ^ j + a')); [lia|]. nia. }
  unfold quot_code at 1. rewrite Q, R.
  set (b := if r' =? 0 then 0 else 1).
  assert (Hb : 0 <= b <= 1 /\ (b = 0 <-> r' = 0))
    by (subst b; destruct (Z.eqb_spec r' 0); lia).
  unfold shift_code, quot_code. fold c r.
  assert (E2 : 2 ^ (j + 1) = 2 ^ j * 2)
    by (rewrite Z.pow_add_r by lia; change (2 ^ 1) with 2; lia).
  assert (Q2 : (2 * (c * 2 ^ j + a') + b) / 2 ^ (j + 1) = c).
  { symmetry. apply (Z.div_unique _ _ _ (2 * a' + b)); lia. }
  assert (R2 : (2 * (c * 2 ^ j + a') + b) mod 2 ^ (j + 1) = 2 * a' + b).
  { symmetry. apply (Z.mod_unique _ _ c); lia. }
  rewrite Q2, R2. f_equal.
  destruct (Z.eqb_spec (2 * a' + b) 0) as [E0|E0];
    destruct (Z.eqb_spec r 0) as [E1|E1]; try reflexivity; exfalso.
  - assert (a' = 0) by lia. assert (r' = 0) by lia.
    assert (r * 2 ^ j = 0) by lia. nia.
  - apply E0. subst r. rewrite E1 in *.
    assert (a' = 0 /\ r' = 0) by nia. lia.
Qed.

Lemma new_location_code (d r : Z) :
  0 < d -> 0 <= r < d ->
  loc_code (new_location d r)
    = (if 2 * r <? d then 0 else 2) + (if (2 * r) mod d =? 0 then 0 else 1).
Proof.
  intros Hd Hr. unfold new_location.
  destruct (Z.even d) eqn:Ev.
  - unfold new_location_even.
    destruct (Z.eqb_spec r 0) as [->|Nr].
    + cbn [loc_code]. rewrite Zmod_0_l, Z.eqb_refl.
      destruct (Z.ltb_spec (2 * 0) d); lia.
    + change (Z.pos 2 * r) with (2 * r).
      destruct (Z.compare_spec (2 * r) d) as [E|L|G]; cbn [loc_code].
      * rewrite E, Z.mod_same, Z.eqb_refl by lia.
        destruct (Z.ltb_spec d d); lia.
      * rewrite Z.mod_small by lia.
        destruct (Z.ltb_spec (2 * r) d); destruct (Z.eqb_spec (2 * r) 0); lia.
      * assert (M : (2 * r) mod d = 2 * r - d).
        { symmetry. apply (Z.mod_unique _ _ 1); lia. }
        rewrite M.
        destruct (Z.ltb_spec (2 * r) d); destruct (Z.eqb_spec (2 * r - d) 0);
          lia.
  - unfold new_location_odd.
    assert (Ho : d <> 2 * r).
    { intros E. rewrite E, Z.even_mul in Ev. discriminate. }
    destruct (Z.eqb_spec r 0) as [->|Nr].
    + cbn [loc_code]. rewrite Zmod_0_l, Z.eqb_refl.
      destruct (Z.ltb_spec (2 * 0) d); lia.
    + change (Z.pos 2 * r + Z.pos 1) with (2 * r + 1).
      destruct (Z.compare_spec (2 * r + 1) d) as [E|L|G]; cbn [loc_code].
      * rewrite Z.mod_small by lia.
        destruct (Z.ltb_spec (2 * r) d); destruct (Z.eqb_spec (2 * r) 0); lia.
      * rewrite Z.mod_small by lia.
        destruct (Z.ltb_spec (2 * r) d); destruct (Z.eqb_spec (2 * r) 0); lia.
      * assert (M : (2 * r) mod d = 2 * r - d).
        { symmetry. apply (Z.mod_unique _ _ 1); lia. }
        rewrite M.
        destruct (Z.ltb_spec (2 * r) d); destruct (Z.eqb_spec (2 * r - d) 0);
          lia.
Qed.

(** The quotient and location [SFdiv_core_binary] computes, as a
    position. *)
Lemma div_code (n d : Z) :
  0 <= n -> 0 < d ->
  4 * (n / d) + loc_code (new_location d (n mod d)) = quot_code (2 * n) d.
Proof.
  intros Hn Hd.
  pose proof (Z.mod_pos_bound n d Hd) as Hr.
  pose proof (Z.div_mod n d ltac:(lia)) as En.
  rewrite (new_location_code d (n mod d) Hd Hr).
  set (q := n / d) in *. set (r := n mod d) in *.
  unfold quot_code.
  destruct (Z.ltb_spec (2 * r) d) as [L|G].
  - assert (Q : 2 * n / d = 2 * q).
    { symmetry. apply (Z.div_unique _ _ _ (2 * r)); lia. }
    assert (R : (2 * n) mod d = 2 * r).
    { symmetry. apply (Z.mod_unique _ _ (2 * q)); lia. }
    rewrite Q, R, (Z.mod_small (2 * r)) by lia. lia.
  - assert (Q : 2 * n / d = 2 * q + 1).
    { symmetry. apply (Z.div_unique _ _ _ (2 * r - d)); lia. }
    assert (R : (2 * n) mod d = 2 * r - d).
    { symmetry. apply (Z.mod_unique _ _ (2 * q + 1)); lia. }
    assert (R' : (2 * r) mod d = 2 * r - d).
    { symmetry. apply (Z.mod_unique _ _ 1); lia. }
    rewrite Q, R, R'. lia.
Qed.

(** ** Division *)

Lemma round_quot_0 (d : Z) : round_quot 0 d = 0.
Proof. reflexivity. Qed.

Lemma round_quot_opp (v d : Z) : round_quot (- v) d = - round_quot v d.
Proof. unfold round_quot. rewrite Z.sgn_opp, Z.abs_opp. lia. Qed.

Lemma round_quot_pos (v d : Z) :
  0 < v -> round_quot v d = rounded (quot_code (2 * v) d) (-2200).
Proof.
  intros Hv. unfold round_quot. rewrite Z.sgn_pos, Z.abs_eq by lia. lia.
Qed.

Lemma round_quot_nonneg (v d : Z) : 0 <= v -> 0 < d -> 0 <= round_quot v d.
Proof.
  intros Hv Hd. destruct (Z.eq_dec v 0) as [->|]; [rewrite round_quot_0; lia|].
  rewrite round_quot_pos by lia.
  apply rounded_nonneg; [apply quot_code_nonneg; lia | lia].
Qed.

Lemma round_quot_mono (v w d : Z) :
  0 < d -> v <= w -> round_quot v d <= round_quot w d.
Proof.
  intros Hd Hvw.
  assert (Hpos : forall a b, 0 < a <= b -> round_quot a d <= round_quot b d).
  { intros a b Hab. rewrite !round_quot_pos by lia.
    apply rounded_mono; [lia|]. split.
    - apply quot_code_nonneg; lia.
    - apply quot_code_mono; lia. }
  destruct (Z.lt_trichotomy v 0) as [Nv|[->|Pv]];
    destruct (Z.lt_trichotomy w 0) as [Nw|[->|Pw]]; try lia.
  - replace v with (- - v) by lia. replace w with (- - w) by lia.
    rewrite (round_quot_opp (- v)), (round_quot_opp (- w)).
    pose proof (Hpos (- w) (- v) ltac:(lia)). lia.
  - replace v with (- - v) by lia. rewrite (round_quot_opp (- v)).
    rewrite round_quot_0.
    pose proof (round_quot_nonneg (- v) d ltac:(lia) Hd). lia.
  - replace v with (- - v) by lia. rewrite (round_quot_opp (- v)).
    pose proof (round_quot_nonneg (- v) d ltac:(lia) Hd).
    pose proof (round_quot_nonneg w d ltac:(lia) Hd). lia.
  - rewrite round_quot_0. apply round_quot_nonneg; lia.
  - apply Hpos; lia.
Qed.

(** The quotient has the digits the exponent was chosen for. *)
Lemma quotient_digits (mx my s : Z) :
  0 < mx -> 0 < my -> 0 <= s ->
  Zdigits2 mx + s - Zdigits2 my <= Zdigits2 (mx * 2 ^ s / my).
Proof.
  intros Hx Hy Hs.
  pose proof (pow2_pos s Hs) as Ps.
  assert (Hq : 0 <= mx * 2 ^ s / my) by (apply Z.div_pos; nia).
  pose proof (Zdigits2_nonneg (mx * 2 ^ s / my)).
  destruct (Z.le_gt_cases (Zdigits2 mx + s - Zdigits2 my) 0) as [|Hk]; [lia|].
  destruct (Zdigits2_bounds mx Hx) as [Lx _].
  destruct (Zdigits2_bounds my Hy) as [_ Uy].
  pose proof (Zdigits2_nonneg my).
  assert (0 < Zdigits2 mx) by (destruct mx; cbn; lia).
  assert (Hle : 2 ^ (Zdigits2 mx + s - Zdigits2 my - 1) <= mx * 2 ^ s / my).
  { apply Z.div_le_lower_bound; [lia|].
    apply Z.le_trans with (2 ^ Zdigits2 my
                           * 2 ^ (Zdigits2 mx + s - Zdigits2 my - 1)).
    - apply Z.mul_le_mono_nonneg_r; [|lia].
      apply Z.lt_le_incl, pow2_pos; lia.
    - rewrite <- Z.pow_add_r by lia.
      replace (Zdigits2 my + (Zdigits2 mx + s - Zdigits2 my - 1))
        with (Zdigits2 mx - 1 + s) by lia.
      rewrite Z.pow_add_r by lia.
      apply Z.mul_le_mono_nonneg_r; lia. }
  pose proof (Zdigits2_ge (mx * 2 ^ s / my)
                (Zdigits2 mx + s - Zdigits2 my - 1) ltac:(lia) Hle). lia.
Qed.

Lemma SFdiv_scaled (x : spec_float) (sy : bool) (my : positive) (ey : Z) :
  valid_binary x = true -> bounded prec emax my ey = true ->
  finite_or_zero x = true ->
  is_nan_SF (SF64div x (S754_finite sy my ey)) = false /\
  scaled (SF64div x (S754_finite sy my ey))
    = cond_Zopp sy (round_quot (scaled x * 2 ^ (1126 - ey)) (Z.pos my)).
Proof.
  intros Vx Vy Fx.
  destruct (bounded_inv my ey Vy) as (Hey & _).
  destruct x as [sx|sx| |sx mx ex]; try discriminate;
    unfold SF64div; cbn [SFdiv].
  { split; [reflexivity|]. cbn [scaled]. rewrite Z.mul_0_l, round_quot_0.
    destruct sy; reflexivity. }
  cbn [valid_binary] in Vx.
  destruct (bounded_inv mx ex Vx) as (Hex & _).
  unfold SFdiv_core_binary.
  set (e' := Z.min (fexp prec emax
                      (Zdigits2 (Z.pos mx) + ex - (Zdigits2 (Z.pos my) + ey)))
               (ex - ey)).
  set (s := ex - ey - e').
  assert (He' : -2200 <= e' <= ex - ey).
  { subst e'. unfold fexp, SpecFloat.emin.
    change prec with 53; change emax with 1024. lia. }
  assert (Hs : 0 <= s) by (subst s; lia).
  assert (Em : match s with
               | 0 => Z.pos mx
               | Z.pos _ => Z.shiftl (Z.pos mx) s
               | Z.neg _ => 0
               end = Z.pos mx * 2 ^ s).
  { destruct s as [|k|k] eqn:Es; [cbn; lia | | lia].
    apply Z.shiftl_mul_pow2; lia. }
  rewrite Em.
  pose proof (pow2_pos s Hs) as Ps.
  set (n := Z.pos mx * 2 ^ s).
  assert (Hn : 0 < n) by (subst n; nia).
  pose proof (Z_div_mod_full n (Z.pos my) ltac:(lia)) as Hdm.
  assert (Eq : Z.div_eucl n (Z.pos my) = (n / Z.pos my, n mod Z.pos my)).
  { unfold Z.div, Z.modulo. destruct (Z.div_eucl n (Z.pos my)); reflexivity. }
  rewrite Eq.
  assert (Hq : 0 <= n / Z.pos my) by (apply Z.div_pos; lia).
  assert (Hfine : e' <= cexp (n / Z.pos my) e').
  { pose proof (quotient_digits (Z.pos mx) (Z.pos my) s
                  ltac:(lia) ltac:(lia) Hs) as Hd.
    fold n in Hd. rewrite cexp_eq.
    subst e' s. unfold fexp, SpecFloat.emin in *.
    change prec with 53 in *; change emax with 1024 in *. lia. }
  destruct (round_aux_scaled (xorb sx sy) (n / Z.pos my) e'
              (new_location (Z.pos my) (n mod Z.pos my)) Hq Hfine)
    as (Nn & _ & Hsc).
  split; [exact Nn|]. rewrite Hsc.
  rewrite div_code by lia.
  rewrite scaled_finite, cond_Zopp_mul.
  assert (P2 : 0 < 2 ^ (ex + 1074)) by (apply pow2_pos; lia).
  assert (P3 : 0 < 2 ^ (1126 - ey)) by (apply pow2_pos; lia).
  assert (Ev : Z.pos mx * 2 ^ (ex + 1074) * 2 ^ (1126 - ey)
               = n * 2 ^ (e' + 2200)).
  { subst n. rewrite <- !Z.mul_assoc, <- !Z.pow_add_r by lia.
    f_equal. f_equal. subst s. lia. }
  rewrite Ev.
  pose proof (pow2_pos (e' + 2200) ltac:(lia)) as P4.
  assert (Hw : 0 < n * 2 ^ (e' + 2200)) by nia.
  replace (cond_Zopp sy (round_quot (cond_Zopp sx (n * 2 ^ (e' + 2200)))
                           (Z.pos my)))
    with (cond_Zopp (xorb sx sy)
            (round_quot (n * 2 ^ (e' + 2200)) (Z.pos my))).
  2:{ destruct sx, sy; cbn [cond_Zopp xorb];
        rewrite ?round_quot_opp; lia. }
  f_equal. rewrite round_quot_pos by lia.
  pose proof (rounded_shift (quot_code (2 * (n * 2 ^ (e' + 2200))) (Z.pos my))
                e' (e' + 2200)) as Hsh.
  replace (2 * (n * 2 ^ (e' + 2200))) with (2 * n * 2 ^ (e' + 2200))
    in * by lia.
  rewrite shift_quot_code in Hsh by lia.
  replace (e' - (e' + 2200)) with (-2200) in Hsh by lia.
  symmetry. apply Hsh.
  - apply quot_code_nonneg; nia.
  - lia.
  - rewrite <- div_code by lia. rewrite code_quarter. exact Hfine.
Qed.

(** ** Primitive floats through their values *)

Lemma INF_pos : 0 < INF.
Proof. apply pow2_pos; lia. Qed.

Lemma scaled_range (x : spec_float) :
  valid_binary x = true -> - INF <= scaled x <= INF.
Proof.
  pose proof INF_pos. unfold INF in *.
  destruct x as [s|s| |s m e]; cbn [valid_binary scaled]; intros Hv;
    try lia.
  - destruct s; cbn; lia.
  - pose proof (finite_bounds m e Hv). destruct s; cbn; lia.
Qed.

Lemma scaled_finite_range (x : spec_float) :
  valid_binary x = true -> finite_or_zero x = true ->
  - INF < scaled x < INF.
Proof.
  pose proof INF_pos. unfold INF in *.
  destruct x as [s|s| |s m e]; cbn [valid_binary scaled]; intros Hv Hf;
    try discriminate; try lia.
  pose proof (finite_bounds m e Hv). destruct s; cbn; lia.
Qed.

Lemma scaled_inf (x : spec_float) :
  is_nan_SF x = false -> finite_or_zero x = false ->
  x = S754_infinity (scaled x <? 0) /\ Z.abs (scaled x) = INF.
Proof.
  pose proof INF_pos. unfold INF in *.
  destruct x as [s|s| |s m e]; try discriminate; intros _ _.
  destruct s; cbn [scaled cond_Zopp].
  - destruct (Z.ltb_spec (- 2 ^ 2098) 0); [split; [reflexivity|lia]|lia].
  - destruct (Z.ltb_spec (2 ^ 2098) 0); [lia|split; [reflexivity|lia]].
Qed.

Lemma value_range (x : float) : - INF <= value x <= INF.
Proof. apply scaled_range, Prim2SF_valid. Qed.

Lemma value_finite (x : float) : finite x = true -> - INF < value x < INF.
Proof. apply scaled_finite_range, Prim2SF_valid. Qed.

Lemma finite_not_nan (x : float) :
  finite x = true -> PrimFloat.is_nan x = false.
Proof.
  rewrite is_nan_spec. unfold finite. destruct (Prim2SF x); auto; discriminate.
Qed.

Lemma fle_spec (x y : float) :
  fle x y <->
  PrimFloat.is_nan x = false /\ PrimFloat.is_nan y = false /\
  value x <= value y.
Proof.
  unfold fle. split.
  - intros H.
    destruct (PrimFloat.is_nan x) eqn:Nx;
      [rewrite leb_nan_l in H by assumption; discriminate|].
    destruct (PrimFloat.is_nan y) eqn:Ny;
      [rewrite leb_nan_r in H by assumption; discriminate|].
    rewrite leb_value in H by assumption. apply Z.leb_le in H. auto.
  - intros (Nx & Ny & H). rewrite leb_value by assumption.
    apply Z.leb_le; exact H.
Qed.

Lemma ltb_false (x y : float) :
  PrimFloat.is_nan x = true \/ PrimFloat.is_nan y = true \/ fle y x ->
  (x <? y)%float = false.
Proof.
  intros [H|[H|H]].
  - apply ltb_nan_l; exact H.
  - apply ltb_nan_r; exact H.
  - apply fle_spec in H as (Ny & Nx & H).
    rewrite ltb_value by assumption. apply Z.ltb_ge; exact H.
Qed.

(** ** The operations on values *)

Section Operations.

Variables x y : float.

Lemma nan_kind (z : float) :
  PrimFloat.is_nan z = false ->
  (finite z = true) \/
  (finite z = false /\ Z.abs (value z) = INF /\
   Prim2SF z = S754_infinity (value z <? 0)).
Proof.
  rewrite is_nan_spec. intros Nz. unfold finite, value.
  destruct (finite_or_zero (Prim2SF z)) eqn:F; [left; reflexivity|right].
  destruct (scaled_inf _ Nz F) as [E A]. auto.
Qed.

Lemma add_finite :
  finite x = true -> finite y = true ->
  PrimFloat.is_nan (x + y) = false /\
  value (x + y) = round_dyadic (value x + value y) (-1074).
Proof.
  intros Fx Fy. rewrite is_nan_spec. unfold value. rewrite add_spec.
  apply SFadd_scaled; auto using Prim2SF_valid.
Qed.

Lemma sub_finite :
  finite x = true -> finite y = true ->
  PrimFloat.is_nan (x - y) = false /\
  value (x - y) = round_dyadic (value x - value y) (-1074).
Proof.
  intros Fx Fy. rewrite is_nan_spec. unfold value. rewrite sub_spec.
  apply SFsub_scaled; auto using Prim2SF_valid.
Qed.

Lemma mul_finite :
  finite x = true -> finite y = true ->
  PrimFloat.is_nan (x * y) = false /\
  value (x * y) = round_dyadic (value x * value y) (-2148).
Proof.
  intros Fx Fy. rewrite is_nan_spec. unfold value. rewrite mul_spec.
  apply SFmul_scaled; auto using Prim2SF_valid.
Qed.

(** Operations on NaN. *)
Lemma add_nan_l :
  PrimFloat.is_nan x = true -> PrimFloat.is_nan (x + y) = true.
Proof.
  rewrite !is_nan_spec, add_spec. destruct (Prim2SF x); try discriminate.
  reflexivity.
Qed.

Lemma add_nan_r :
  PrimFloat.is_nan y = true -> PrimFloat.is_nan (x + y) = true.
Proof.
  rewrite !is_nan_spec, add_spec. destruct (Prim2SF y); try discriminate.
  destruct (Prim2SF x); reflexivity.
Qed.

Lemma mul_nan_l :
  PrimFloat.is_nan x = true -> PrimFloat.is_nan (x * y) = true.
Proof.
  rewrite !is_nan_spec, mul_spec. destruct (Prim2SF x); try discriminate.
  reflexivity.
Qed.

Lemma sub_nan_r :
  PrimFloat.is_nan y = true -> PrimFloat.is_nan (x - y) = true.
Proof.
  rewrite !is_nan_spec, sub_spec. destruct (Prim2SF y); try discriminate.
  destruct (Prim2SF x); reflexivity.
Qed.

Lemma sub_nan_l :
  PrimFloat.is_nan x = true -> PrimFloat.is_nan (x - y) = true.
Proof.
  rewrite !is_nan_spec, sub_spec. destruct (Prim2SF x); try discriminate.
  reflexivity.
Qed.

End Operations.

(** ** Monotone operations *)

Lemma round_dyadic_range (v e : Z) :
  e <= -1074 -> - INF <= round_dyadic v e <= INF.
Proof.
  intros He. unfold round_dyadic, INF.
  pose proof (rounded_le_inf (4 * Z.abs v) e).
  pose proof (rounded_nonneg (4 * Z.abs v) e ltac:(lia) He).
  destruct (Z.sgn_spec v) as [[_ ->]|[[_ ->]|[_ ->]]]; lia.
Qed.

Lemma round_quot_range (v d : Z) : 0 < d -> - INF <= round_quot v d <= INF.
Proof.
  intros Hd. unfold round_quot, INF.
  pose proof (rounded_le_inf (quot_code (2 * Z.abs v) d) (-2200)).
  pose proof (rounded_nonneg (quot_code (2 * Z.abs v) d) (-2200)
                ltac:(apply quot_code_nonneg; lia) ltac:(lia)).
  destruct (Z.sgn_spec v) as [[_ ->]|[[_ ->]|[_ ->]]]; lia.
Qed.

Lemma positive_finite_value (c : float) (m : positive) (e : Z) :
  positive_finite c m e ->
  finite c = true /\ 0 < value c /\ bounded prec emax m e = true.
Proof.
  intros Hc. pose proof (Prim2SF_valid c) as Hv.
  unfold finite, value. rewrite Hc in *. cbn [valid_binary] in Hv.
  pose proof (finite_bounds m e Hv). cbn. auto with zarith.
Qed.

Section Monotone.

Variables (c : float) (mc : positive) (ec : Z).
Hypothesis Hc : positive_finite c mc ec.

Local Set Default Proof Using "Type*".

(** *** Multiplication by a positive constant *)

Lemma mul_pos_value (z : float) :
  PrimFloat.is_nan z = false ->
  PrimFloat.is_nan (z * c) = false /\
  value (z * c) =
    if finite z then round_dyadic (value z * value c) (-2148) else value z.
Proof.
  intros Nz. destruct (positive_finite_value _ _ _ Hc) as (Fc & Pc & _).
  destruct (nan_kind z Nz) as [Fz|(Fz & Az & Ez)]; rewrite Fz.
  - apply mul_finite; assumption.
  - rewrite is_nan_spec. unfold value at 1. rewrite mul_spec, Ez, Hc.
    cbn [SF64mul SFmul is_nan_SF scaled]. rewrite xorb_false_r.
    split; [reflexivity|]. unfold value. rewrite Ez at 2. reflexivity.
Qed.

Lemma mul_mono (a b : float) : fle a b -> fle (a * c) (b * c).
Proof.
  intros H. apply fle_spec in H as (Na & Nb & Hab).
  destruct (positive_finite_value _ _ _ Hc) as (Fc & Pc & _).
  destruct (mul_pos_value a Na) as [Na' Va].
  destruct (mul_pos_value b Nb) as [Nb' Vb].
  apply fle_spec. split; [exact Na'|]. split; [exact Nb'|].
  rewrite Va, Vb.
  pose proof (round_dyadic_range (value a * value c) (-2148) ltac:(lia)).
  pose proof (round_dyadic_range (value b * value c) (-2148) ltac:(lia)).
  destruct (nan_kind a Na) as [Fa|(Fa & Aa & _)];
    destruct (nan_kind b Nb) as [Fb|(Fb & Ab & _)]; rewrite Fa, Fb.
  - apply round_dyadic_mono; [lia | nia].
  - pose proof (value_finite a Fa). lia.
  - pose proof (value_finite b Fb). lia.
  - exact Hab.
Qed.

(** *** Division by a positive constant *)

Lemma div_pos_value (z : float) :
  PrimFloat.is_nan z = false ->
  PrimFloat.is_nan (z / c) = false /\
  value (z / c) =
    if finite z then round_quot (value z * 2 ^ (1126 - ec)) (Z.pos mc)
    else value z.
Proof.
  intros Nz. destruct (positive_finite_value _ _ _ Hc) as (Fc & Pc & Vc).
  destruct (nan_kind z Nz) as [Fz|(Fz & Az & Ez)]; rewrite Fz.
  - rewrite is_nan_spec. unfold value. rewrite div_spec, Hc.
    destruct (SFdiv_scaled (Prim2SF z) false mc ec (Prim2SF_valid z) Vc Fz)
      as [Hn Hs].
    split; [exact Hn|]. rewrite Hs. reflexivity.
  - rewrite is_nan_spec. unfold value at 1. rewrite div_spec, Ez, Hc.
    cbn [SF64div SFdiv is_nan_SF scaled]. rewrite xorb_false_r.
    split; [reflexivity|]. unfold value. rewrite Ez at 2. reflexivity.
Qed.

Lemma div_mono (a b : float) : fle a b -> fle (a / c) (b / c).
Proof.
  intros H. apply fle_spec in H as (Na & Nb & Hab).
  destruct (positive_finite_value _ _ _ Hc) as (Fc & Pc & Vc).
  destruct (bounded_inv mc ec Vc) as (Hec & _).
  destruct (div_pos_value a Na) as [Na' Va].
  destruct (div_pos_value b Nb) as [Nb' Vb].
  apply fle_spec. split; [exact Na'|]. split; [exact Nb'|].
  rewrite Va, Vb.
  pose proof (pow2_pos (1126 - ec) ltac:(lia)) as P.
  pose proof (round_quot_range (value a * 2 ^ (1126 - ec)) (Z.pos mc)
                ltac:(lia)).
  pose proof (round_quot_range (value b * 2 ^ (1126 - ec)) (Z.pos mc)
                ltac:(lia)).
  destruct (nan_kind a Na) as [Fa|(Fa & Aa & _)];
    destruct (nan_kind b Nb) as [Fb|(Fb & Ab & _)]; rewrite Fa, Fb.
  - apply round_quot_mono; [lia | nia].
  - pose proof (value_finite a Fa). lia.
  - pose proof (value_finite b Fb). lia.
  - exact Hab.
Qed.

(** *** Subtraction from a finite constant *)

Lemma sub_from_value (z : float) :
  PrimFloat.is_nan z = false ->
  PrimFloat.is_nan (c - z) = false /\
  value (c - z) =
    if finite z then round_dyadic (value c - value z) (-1074)
    else - value z.
Proof.
  intros Nz. destruct (positive_finite_value _ _ _ Hc) as (Fc & Pc & _).
  destruct (nan_kind z Nz) as [Fz|(Fz & Az & Ez)]; rewrite Fz.
  - apply sub_finite; assumption.
  - rewrite is_nan_spec. remember (value z <? 0) as b eqn:Eb. clear Eb.
    unfold value. rewrite sub_spec, Ez, Hc.
    cbn [SF64sub SFsub is_nan_SF scaled].
    split; [reflexivity|]. destruct b; cbn [negb cond_Zopp]; lia.
Qed.

Lemma sub_from_anti (a b : float) : fle a b -> fle (c - b) (c - a).
Proof.
  intros H. apply fle_spec in H as (Na & Nb & Hab).
  destruct (sub_from_value a Na) as [Na' Va].
  destruct (sub_from_value b Nb) as [Nb' Vb].
  apply fle_spec. split; [exact Nb'|]. split; [exact Na'|].
  rewrite Va, Vb.
  pose proof (round_dyadic_range (value c - value a) (-1074) ltac:(lia)).
  pose proof (round_dyadic_range (value c - value b) (-1074) ltac:(lia)).
  destruct (nan_kind a Na) as [Fa|(Fa & Aa & _)];
    destruct (nan_kind b Nb) as [Fb|(Fb & Ab & _)]; rewrite Fa, Fb.
  - apply round_dyadic_mono; lia.
  - pose proof (value_finite a Fa). lia.
  - pose proof (value_finite b Fb). lia.
  - lia.
Qed.

End Monotone.

(** *** Addition *)

Lemma SFadd_comm (x y : spec_float) : SF64add x y = SF64add y x.
Proof.
  unfold SF64add.
  destruct x as [sx|sx| |sx mx ex], y as [sy|sy| |sy my ey];
    cbn [SFadd]; try reflexivity.
  - destruct sx, sy; reflexivity.
  - destruct sx, sy; reflexivity.
  - rewrite (Z.min_comm ey ex), Z.add_comm. reflexivity.
Qed.

Lemma add_comm (x y : float) : (x + y = y + x)%float.
Proof. apply Prim2SF_inj. rewrite !add_spec. apply SFadd_comm. Qed.

Lemma add_value (x z : float) :
  PrimFloat.is_nan (x + z) = false ->
  PrimFloat.is_nan x = false /\ PrimFloat.is_nan z = false /\
  value (x + z) =
    if finite x
    then (if finite z then round_dyadic (value x + value z) (-1074)
          else value z)
    else value x.
Proof.
  intros N.
  assert (Nx : PrimFloat.is_nan x = false).
  { destruct (PrimFloat.is_nan x) eqn:E; [|reflexivity].
    rewrite (add_nan_l x z E) in N. discriminate. }
  assert (Nz : PrimFloat.is_nan z = false).
  { destruct (PrimFloat.is_nan z) eqn:E; [|reflexivity].
    rewrite (add_nan_r x z E) in N. discriminate. }
  split; [exact Nx|]. split; [exact Nz|].
  destruct (nan_kind x Nx) as [Fx|(Fx & Ax & Ex)];
    destruct (nan_kind z Nz) as [Fz|(Fz & Az & Ez)]; rewrite Fx, ?Fz.
  - apply add_finite; assumption.
  - remember (value z <? 0) as bz eqn:Eb. clear Eb.
    unfold value. rewrite add_spec, Ez. unfold finite in Fx.
    destruct (Prim2SF x); try discriminate; reflexivity.
  - remember (value x <? 0) as bx eqn:Eb. clear Eb.
    unfold value. rewrite add_spec, Ex. unfold finite in Fz.
    destruct (Prim2SF z); try discriminate; reflexivity.
  - remember (value x <? 0) as bx eqn:Eb. clear Eb.
    remember (value z <? 0) as bz eqn:Eb. clear Eb.
    rewrite is_nan_spec, add_spec in N.
    unfold value. rewrite add_spec. rewrite Ex, Ez in *.
    destruct bx, bz; try discriminate; reflexivity.
Qed.

Lemma add_mono_r (x a b : float) :
  fle a b ->
  PrimFloat.is_nan (x + a) = false -> PrimFloat.is_nan (x + b) = false ->
  fle (x + a) (x + b).
Proof.
  intros H Ha Hb. apply fle_spec in H as (Na & Nb & Hab).
  destruct (add_value x a Ha) as (Nx & _ & Va).
  destruct (add_value x b Hb) as (_ & _ & Vb).
  apply fle_spec. split; [exact Ha|]. split; [exact Hb|].
  rewrite Va, Vb.
  pose proof (round_dyadic_range (value x + value a) (-1074) ltac:(lia)).
  pose proof (round_dyadic_range (value x + value b) (-1074) ltac:(lia)).
  destruct (finite x); [|lia].
  destruct (nan_kind a Na) as [Fa|(Fa & Aa & _)];
    destruct (nan_kind b Nb) as [Fb|(Fb & Ab & _)]; rewrite Fa, Fb.
  - apply round_dyadic_mono; lia.
  - pose proof (value_finite a Fa). lia.
  - pose proof (value_finite b Fb). lia.
  - exact Hab.
Qed.

Lemma add_mono_l (x a b : float) :
  fle a b ->
  PrimFloat.is_nan (a + x) = false -> PrimFloat.is_nan (b + x) = false ->
  fle (a + x) (b + x).
Proof.
  rewrite (add_comm a x), (add_comm b x). apply add_mono_r.
Qed.

(** ** Constants *)

Lemma const_04 : positive_finite 0.4 7205759403792794 (-54).
Proof. reflexivity. Qed.

Lemma const_02 : positive_finite 0.2 7205759403792794 (-55).
Proof. reflexivity. Qed.

Lemma const_2 : positive_finite 2 4503599627370496 (-51).
Proof. reflexivity. Qed.

Lemma const_5 : positive_finite 5 5629499534213120 (-50).
Proof. reflexivity. Qed.

Lemma const_1 : positive_finite 1 4503599627370496 (-52).
Proof. reflexivity. Qed.

Lemma value_0 : value 0 = 0.
Proof. reflexivity. Qed.

Lemma value_1_pos : 0 < value 1.
Proof. apply (positive_finite_value _ _ _ const_1). Qed.

Lemma nan_0 : PrimFloat.is_nan 0 = false.
Proof. reflexivity. Qed.

Lemma nan_1 : PrimFloat.is_nan 1 = false.
Proof. reflexivity. Qed.

(** ** Comparisons *)

Lemma fle_refl (x : float) : PrimFloat.is_nan x = false -> fle x x.
Proof. intros N. apply fle_spec. auto with zarith. Qed.

Lemma fle_trans (x y z : float) : fle x y -> fle y z -> fle x z.
Proof.
  rewrite !fle_spec. intros (Nx & Ny & Hxy) (_ & Nz & Hyz).
  split; [exact Nx|]. split; [exact Nz|]. lia.
Qed.

Lemma fle_never_exceeds (a b : float) : fle a b -> never_exceeds a b.
Proof.
  intros H. apply fle_spec in H as (Na & Nb & Hab).
  unfold never_exceeds. rewrite ltb_value by assumption.
  apply Z.ltb_ge. exact Hab.
Qed.

Lemma never_exceeds_spec (a b : float) :
  never_exceeds a b <->
  PrimFloat.is_nan a = true \/ PrimFloat.is_nan b = true \/ fle a b.
Proof.
  unfold never_exceeds. split.
  - intros H.
    destruct (PrimFloat.is_nan a) eqn:Na; [left; reflexivity|].
    destruct (PrimFloat.is_nan b) eqn:Nb; [right; left; reflexivity|].
    right; right. apply fle_spec. rewrite ltb_value in H by assumption.
    apply Z.ltb_ge in H. auto.
  - intros [Na|[Nb|H]].
    + apply ltb_nan_r. exact Na.
    + apply ltb_nan_l. exact Nb.
    + apply fle_never_exceeds. exact H.
Qed.

Lemma never_exceeds_numbers (a b : float) :
  never_exceeds a b ->
  PrimFloat.is_nan a = false -> PrimFloat.is_nan b = false -> fle a b.
Proof.
  intros H Na Nb. apply never_exceeds_spec in H as [H|[H|H]];
    [congruence|congruence|exact H].
Qed.

Lemma finite_of_bounds (z : float) :
  PrimFloat.is_nan z = false -> - INF < value z < INF -> finite z = true.
Proof.
  intros N H. destruct (nan_kind z N) as [F|(_ & A & _)]; [exact F|lia].
Qed.

(** * The credibility score *)

Section CredibilityScore.

Import go application.

(** ** Conversion from [int] *)

Lemma float64_of_int_value (n : Z) :
  PrimFloat.is_nan (float64_of_int n) = false /\
  value (float64_of_int n) = round_dyadic (n * 2 ^ 1074) (-1074).
Proof.
  destruct (binary_normalize_scaled n 0 (-1074) ltac:(lia) ltac:(lia))
    as (Hn & Hv & Hs).
  rewrite is_nan_spec. unfold value, float64_of_int.
  rewrite (Prim2SF_SF2Prim _ Hv). split; [exact Hn|exact Hs].
Qed.

Lemma float64_of_int_mono (n n' : Z) :
  n <= n' -> fle (float64_of_int n) (float64_of_int n').
Proof.
  intros H. destruct (float64_of_int_value n) as [N V].
  destruct (float64_of_int_value n') as [N' V'].
  apply fle_spec. split; [exact N|]. split; [exact N'|].
  rewrite V, V'. apply round_dyadic_mono; [lia|].
  pose proof (pow2_pos 1074 ltac:(lia)). nia.
Qed.

(** ** The helpers [abs], [max] and [min] of the service *)

Lemma scaled_opp (x : spec_float) : scaled (SFopp x) = - scaled x.
Proof.
  destruct x as [s|s| |s m e]; cbn [SFopp scaled]; try reflexivity;
    destruct s; cbn [negb cond_Zopp]; lia.
Qed.

Lemma opp_value (x : float) :
  PrimFloat.is_nan (- x) = PrimFloat.is_nan x /\ value (- x) = - value x.
Proof.
  rewrite !is_nan_spec. unfold value. rewrite opp_spec, scaled_opp.
  split; [|reflexivity]. destruct (Prim2SF x); reflexivity.
Qed.

Lemma abs_nan (x : float) :
  PrimFloat.is_nan (abs x) = PrimFloat.is_nan x.
Proof.
  unfold abs. destruct (x <? 0)%float; [|reflexivity].
  apply opp_value.
Qed.

Lemma abs_nonneg (x : float) :
  PrimFloat.is_nan x = false -> fle 0 (abs x).
Proof.
  intros N. apply fle_spec. split; [reflexivity|].
  split; [rewrite abs_nan; exact N|]. rewrite value_0.
  unfold abs. pose proof (ltb_value x 0 N nan_0) as L. rewrite value_0 in L.
  destruct (x <? 0)%float; symmetry in L.
  - apply Z.ltb_lt in L. destruct (opp_value x) as [_ ->]. lia.
  - apply Z.ltb_ge in L. exact L.
Qed.

Lemma max_0_nan (t : float) :
  PrimFloat.is_nan (max 0 t) = PrimFloat.is_nan t.
Proof.
  unfold max. destruct (t <? 0)%float eqn:L; [|reflexivity].
  destruct (PrimFloat.is_nan t) eqn:N; [|reflexivity].
  rewrite (ltb_nan_l t 0 N) in L. discriminate.
Qed.

Lemma max_0_value (t : float) : value (max 0 t) = Z.max 0 (value t).
Proof.
  unfold max. destruct (PrimFloat.is_nan t) eqn:N.
  - rewrite (ltb_nan_l t 0 N). rewrite is_nan_spec in N. unfold value.
    destruct (Prim2SF t); try discriminate. reflexivity.
  - rewrite (ltb_value t 0 N nan_0), value_0.
    destruct (Z.ltb_spec (value t) 0); [rewrite value_0|]; lia.
Qed.

Lemma max_0_mono (a b : float) : fle a b -> fle (max 0 a) (max 0 b).
Proof.
  rewrite !fle_spec. intros (Na & Nb & H).
  rewrite !max_0_nan, !max_0_value. auto with zarith.
Qed.

Lemma max_0_nonneg (t : float) :
  PrimFloat.is_nan t = false -> fle 0 (max 0 t).
Proof.
  intros N. apply fle_spec. rewrite max_0_nan, max_0_value, value_0.
  split; [reflexivity|]. split; [exact N|lia].
Qed.

Lemma min_1_nan (x : float) :
  PrimFloat.is_nan (min 1 x) = PrimFloat.is_nan x.
Proof.
  unfold min. destruct (1 <? x)%float eqn:L; [|reflexivity].
  destruct (PrimFloat.is_nan x) eqn:N; [|reflexivity].
  rewrite (ltb_nan_r 1 x N) in L. discriminate.
Qed.

Lemma min_1_value (x : float) :
  PrimFloat.is_nan x = false -> value (min 1 x) = Z.min (value 1) (value x).
Proof.
  intros N. unfold min. rewrite (ltb_value 1 x nan_1 N).
  destruct (Z.ltb_spec (value 1) (value x)); lia.
Qed.

Lemma min_1_mono (a b : float) : fle a b -> fle (min 1 a) (min 1 b).
Proof.
  rewrite !fle_spec. intros (Na & Nb & H).
  rewrite !min_1_nan, !min_1_value by assumption. auto with zarith.
Qed.

Lemma clamp_mono (a b : float) :
  fle a b -> fle (max 0 (min 1 a)) (max 0 (min 1 b)).
Proof. intros H. apply max_0_mono, min_1_mono, H. Qed.

Lemma clamp_nan (x : float) :
  PrimFloat.is_nan (max 0 (min 1 x)) = PrimFloat.is_nan x.
Proof. rewrite max_0_nan. apply min_1_nan. Qed.

Lemma clamp_in_unit_interval (x : float) :
  PrimFloat.is_nan x = false -> in_unit_interval (max 0 (min 1 x)).
Proof.
  intros N. unfold in_unit_interval. rewrite !fle_spec.
  rewrite clamp_nan, max_0_value, (min_1_value x N), value_0.
  pose proof value_1_pos.
  repeat split; try assumption; try reflexivity; lia.
Qed.

Lemma clamp_is_clamp01 (x : float) : max 0 (min 1 x) = clamp01 x.
Proof.
  unfold max, min, clamp01.
  destruct (1 <? x)%float eqn:L1.
  - change (1 <? 0)%float with false.
    destruct (PrimFloat.is_nan x) eqn:N.
    + rewrite (ltb_nan_r 1 x N) in L1. discriminate.
    + rewrite (ltb_value 1 x nan_1 N) in L1. apply Z.ltb_lt in L1.
      rewrite (ltb_value x 0 N nan_0), value_0.
      pose proof value_1_pos.
      destruct (Z.ltb_spec (value x) 0); [lia|reflexivity].
  - reflexivity.
Qed.

(** ** Multiplication commutes *)

Lemma SFmul_comm (x y : spec_float) : SF64mul x y = SF64mul y x.
Proof.
  unfold SF64mul.
  destruct x as [sx|sx| |sx mx ex], y as [sy|sy| |sy my ey];
    cbn [SFmul]; rewrite ?(xorb_comm sx sy); try reflexivity.
  rewrite (Pos.mul_comm mx my), (Z.add_comm ex ey). reflexivity.
Qed.

Lemma mul_comm (x y : float) : (x * y = y * x)%float.
Proof. apply Prim2SF_inj. rewrite !mul_spec. apply SFmul_comm. Qed.

(** ** The sign of a zero difference *)

Lemma round_dyadic_nonzero (v : Z) : v <> 0 -> round_dyadic v (-1074) <> 0.
Proof.
  intros H.
  assert (P : round_dyadic 1 (-1074) = 1) by (vm_compute; reflexivity).
  assert (Q : round_dyadic (-1) (-1074) = -1) by (vm_compute; reflexivity).
  destruct (Z_lt_le_dec v 0).
  - pose proof (round_dyadic_mono v (-1) (-1074) ltac:(lia) ltac:(lia)). lia.
  - pose proof (round_dyadic_mono 1 v (-1074) ltac:(lia) ltac:(lia)). lia.
Qed.

Lemma normalize_zero_sign (v e : Z) :
  -1074 <= e -> binary_normalize prec emax v e false <> S754_zero true.
Proof.
  intros He E.
  destruct (binary_normalize_scaled v e (-1074) He ltac:(lia))
    as (_ & _ & Hs).
  rewrite E in Hs. cbn [scaled] in Hs.
  destruct (Z.eq_dec v 0) as [->|Hv]; [discriminate E|].
  pose proof (pow2_pos (e - -1074) ltac:(lia)).
  apply (round_dyadic_nonzero (v * 2 ^ (e - -1074))); [nia|].
  symmetry. exact Hs.
Qed.

Lemma sub_from_zero_sign (c : float) (mc : positive) (ec : Z) (y : float) :
  positive_finite c mc ec -> Prim2SF (c - y) <> S754_zero true.
Proof.
  intros Hc. rewrite sub_spec, Hc. pose proof (Prim2SF_valid y) as Vy.
  pose proof (Prim2SF_valid c) as Vc. rewrite Hc in Vc.
  cbn [valid_binary] in Vc. destruct (bounded_inv mc ec Vc) as (Hec & _).
  unfold SF64sub. destruct (Prim2SF y) as [sy|sy| |sy my ey];
    cbn [SFsub]; try discriminate.
  cbn [valid_binary] in Vy. destruct (bounded_inv my ey Vy) as (Hey & _).
  apply normalize_zero_sign. lia.
Qed.

Lemma zero_of_value (t : float) :
  PrimFloat.is_nan t = false -> value t = 0 ->
  Prim2SF t <> S754_zero true -> t = 0%float.
Proof.
  intros N V S. apply Prim2SF_inj. change (Prim2SF 0) with (S754_zero false).
  rewrite is_nan_spec in N. unfold value in V.
  pose proof (Prim2SF_valid t) as Vt.
  destruct (Prim2SF t) as [s|s| |s m e]; try discriminate.
  - destruct s; [congruence|reflexivity].
  - exfalso. pose proof (pow2_pos 2098 ltac:(lia)).
    cbn [scaled] in V. destruct s; cbn [cond_Zopp] in V; lia.
  - exfalso. cbn [valid_binary] in Vt.
    pose proof (finite_bounds m e Vt). cbn [scaled] in V.
    destruct s; cbn [cond_Zopp] in V; lia.
Qed.

Lemma flag_term_nan (n : Z) :
  PrimFloat.is_nan (1 - float64_of_int n / 5) = false.
Proof.
  apply (sub_from_value _ _ _ const_1).
  apply (div_pos_value _ _ _ const_5).
  apply float64_of_int_value.
Qed.

Lemma larger_is_max (n : Z) :
  larger 0 (1 - float64_of_int n / 5)
  = max 0 (1 - float64_of_int n / 5).
Proof.
  pose proof (flag_term_nan n) as N.
  pose proof (sub_from_zero_sign 1 _ _ (float64_of_int n / 5) const_1) as S.
  set (t := (1 - float64_of_int n / 5)%float) in *.
  unfold larger, max.
  rewrite (ltb_value 0 t nan_0 N), (ltb_value t 0 N nan_0), value_0.
  destruct (Z.ltb_spec 0 (value t)), (Z.ltb_spec (value t) 0);
    try reflexivity; try lia.
  symmetry. apply zero_of_value; [exact N|lia|exact S].
Qed.

(** ** The absolute value, inside the sentiment term *)

Lemma abs_is_abs (d : float) :
  Prim2SF d <> S754_zero true -> abs d = PrimFloat.abs d.
Proof.
  intros Z. unfold abs. pose proof (ltb_spec d 0) as L.
  change (Prim2SF 0) with (S754_zero false) in L.
  pose proof (abs_spec d) as A. pose proof (opp_spec d) as O.
  destruct (Prim2SF d) as [s|s| |s m e] eqn:E; cbn in L, A, O;
    try (destruct s); try (exfalso; apply Z; reflexivity);
    rewrite L; cbv iota; apply Prim2SF_inj; rewrite ?O, ?E, A; reflexivity.
Qed.

Lemma sentiment_term (s : float) :
  (1 - abs (s - 0.5) * 2 = 1 - PrimFloat.abs (s - 0.5) * 2)%float.
Proof.
  assert (Prim2SF (s - 0.5) = S754_zero true
          \/ Prim2SF (s - 0.5) <> S754_zero true) as [E|E].
  { destruct (Prim2SF (s - 0.5)) as [[|]| | |];
      [left; reflexivity|right; discriminate..]. }
  - rewrite <- (SF2Prim_Prim2SF (s - 0.5)), E. reflexivity.
  - rewrite (abs_is_abs _ E). reflexivity.
Qed.

Lemma calculateCredibilityScore_eq (r s : float) (n : Z) :
  calculateCredibilityScore r s n
  = max 0 (min 1 (score r (sentimentScore s) (flagPenalty n))).
Proof. reflexivity. Qed.

(** ** Which terms are numbers *)

Lemma not_nan_mul_l (x y : float) :
  PrimFloat.is_nan (x * y) = false -> PrimFloat.is_nan x = false.
Proof.
  intros N. destruct (PrimFloat.is_nan x) eqn:E; [|reflexivity].
  rewrite (mul_nan_l x y E) in N. discriminate.
Qed.

Lemma not_nan_sub_r (x y : float) :
  PrimFloat.is_nan (x - y) = false -> PrimFloat.is_nan y = false.
Proof.
  intros N. destruct (PrimFloat.is_nan y) eqn:E; [|reflexivity].
  rewrite (sub_nan_r x y E) in N. discriminate.
Qed.

Lemma add_finite_not_nan (x z : float) :
  finite x = true -> PrimFloat.is_nan z = false ->
  PrimFloat.is_nan (x + z) = false.
Proof.
  intros Fx Nz. destruct (nan_kind z Nz) as [Fz|(_ & _ & Ez)].
  - apply add_finite; assumption.
  - remember (value z <? 0) as b eqn:Eb. clear Eb.
    rewrite is_nan_spec, add_spec, Ez. unfold finite in Fx.
    destruct (Prim2SF x); try discriminate; reflexivity.
Qed.

Lemma score_parts (r ss fp : float) :
  PrimFloat.is_nan (score r ss fp) = false ->
  PrimFloat.is_nan (r * 0.4 + ss * 0.2) = false /\
  PrimFloat.is_nan (r * 0.4) = false /\
  PrimFloat.is_nan (ss * 0.2) = false /\
  PrimFloat.is_nan (fp * 0.4) = false.
Proof.
  unfold score. intros N.
  destruct (add_value _ _ N) as (N1 & N2 & _).
  destruct (add_value _ _ N1) as (N3 & N4 & _). auto.
Qed.

(** ** Each term moves the weighted sum in its own direction *)

Lemma score_mono_sourceScore (r r' ss fp : float) :
  fle r r' ->
  PrimFloat.is_nan (score r ss fp) = false ->
  PrimFloat.is_nan (score r' ss fp) = false ->
  fle (score r ss fp) (score r' ss fp).
Proof.
  intros H N N'.
  destruct (score_parts _ _ _ N) as (N1 & _).
  destruct (score_parts _ _ _ N') as (N1' & _).
  unfold score in *. apply add_mono_l; [|exact N|exact N'].
  apply add_mono_l; [|exact N1|exact N1'].
  apply (mul_mono _ _ _ const_04), H.
Qed.

Lemma score_mono_sentimentScore (r ss ss' fp : float) :
  fle ss ss' ->
  PrimFloat.is_nan (score r ss fp) = false ->
  PrimFloat.is_nan (score r ss' fp) = false ->
  fle (score r ss fp) (score r ss' fp).
Proof.
  intros H N N'.
  destruct (score_parts _ _ _ N) as (N1 & _).
  destruct (score_parts _ _ _ N') as (N1' & _).
  unfold score in *. apply add_mono_l; [|exact N|exact N'].
  apply add_mono_r; [|exact N1|exact N1'].
  apply (mul_mono _ _ _ const_02), H.
Qed.

Lemma score_mono_flagPenalty (r ss fp fp' : float) :
  fle fp fp' ->
  PrimFloat.is_nan (score r ss fp) = false ->
  PrimFloat.is_nan (score r ss fp') = false ->
  fle (score r ss fp) (score r ss fp').
Proof.
  intros H N N'. unfold score in *.
  apply add_mono_r; [|exact N|exact N'].
  apply (mul_mono _ _ _ const_04), H.
Qed.

Lemma flagPenalty_anti (n n' : Z) :
  n <= n' -> fle (flagPenalty n') (flagPenalty n).
Proof.
  intros H. unfold flagPenalty. apply max_0_mono.
  apply (sub_from_anti _ _ _ const_1), (div_mono _ _ _ const_5).
  apply float64_of_int_mono, H.
Qed.

Lemma sentimentScore_neutral : sentimentScore 0.5 = 1%float.
Proof. reflexivity. Qed.

Lemma sentimentScore_le_1 (s : float) :
  PrimFloat.is_nan (sentimentScore s) = false -> fle (sentimentScore s) 1.
Proof.
  unfold sentimentScore. intros N.
  pose proof (not_nan_sub_r _ _ N) as N2.
  pose proof (not_nan_mul_l _ _ N2) as Na. rewrite abs_nan in Na.
  change (fle (1 - abs (s - 0.5) * 2) (1 - 0 * 2)).
  apply (sub_from_anti _ _ _ const_1), (mul_mono _ _ _ const_2).
  apply abs_nonneg, Na.
Qed.

(** ** Finite arguments give a number *)

Lemma sourceScore_term_finite (r : float) :
  finite r = true -> finite (r * 0.4) = true.
Proof.
  intros Fr.
  destruct (mul_finite r 0.4 Fr eq_refl) as [N V].
  apply finite_of_bounds; [exact N|]. rewrite V.
  pose proof (value_finite r Fr) as R.
  assert (P : 0 < value 0.4) by apply (positive_finite_value _ _ _ const_04).
  pose proof (round_dyadic_mono (value r * value 0.4)
                ((INF - 1) * value 0.4) (-2148) ltac:(lia) ltac:(nia)).
  pose proof (round_dyadic_mono ((- (INF - 1)) * value 0.4)
                (value r * value 0.4) (-2148) ltac:(lia) ltac:(nia)).
  assert (round_dyadic ((INF - 1) * value 0.4) (-2148) < INF)
    by (vm_compute; reflexivity).
  assert (- INF < round_dyadic ((- (INF - 1)) * value 0.4) (-2148))
    by (vm_compute; reflexivity).
  lia.
Qed.

Lemma sentimentScore_number (s : float) :
  finite s = true -> PrimFloat.is_nan (sentimentScore s) = false.
Proof.
  intros Fs. unfold sentimentScore.
  apply (sub_from_value _ _ _ const_1), (mul_pos_value _ _ _ const_2).
  rewrite abs_nan. apply (sub_finite s 0.5 Fs eq_refl).
Qed.

Lemma flagPenalty_term_finite (n : Z) :
  is_int n -> finite (flagPenalty n * 0.4) = true.
Proof.
  intros [Hlo _].
  assert (U : fle (flagPenalty n * 0.4) (flagPenalty (- 2 ^ 63) * 0.4)).
  { apply (mul_mono _ _ _ const_04), flagPenalty_anti, Hlo. }
  assert (L : fle (0 * 0.4) (flagPenalty n * 0.4)).
  { apply (mul_mono _ _ _ const_04). unfold flagPenalty.
    apply max_0_nonneg, flag_term_nan. }
  apply fle_spec in U as (N & _ & U). apply fle_spec in L as (_ & _ & L).
  apply finite_of_bounds; [exact N|].
  assert (value (flagPenalty (- 2 ^ 63) * 0.4) < INF)
    by (vm_compute; reflexivity).
  assert (0 <= value (0 * 0.4)) by (vm_compute; discriminate).
  pose proof INF_pos. lia.
Qed.

Lemma score_number (r s : float) (n : Z) :
  finite r = true -> finite s = true -> is_int n ->
  PrimFloat.is_nan (calculateCredibilityScore r s n) = false.
Proof.
  intros Fr Fs Hn. rewrite calculateCredibilityScore_eq, clamp_nan.
  unfold score. rewrite add_comm.
  apply add_finite_not_nan; [apply flagPenalty_term_finite, Hn|].
  apply add_finite_not_nan; [apply sourceScore_term_finite, Fr|].
  apply (mul_pos_value _ _ _ const_02), sentimentScore_number, Fs.
Qed.

Lemma clamp_never_exceeds (x y : float) :
  (PrimFloat.is_nan x = false -> PrimFloat.is_nan y = false -> fle x y) ->
  never_exceeds (max 0 (min 1 x)) (max 0 (min 1 y)).
Proof.
  intros H. apply never_exceeds_spec. rewrite !clamp_nan.
  destruct (PrimFloat.is_nan x); [left; reflexivity|].
  destruct (PrimFloat.is_nan y); [right; left; reflexivity|].
  right; right. apply clamp_mono, H; reflexivity.
Qed.

(** ** The formula, the range and the monotonicity of the score *)

(** C1. For every source reputation [r], sentiment [s] and flag count [n],
    [calculateCredibilityScore r s n] is
    [0.4*r + 0.2*(1 - |s - 0.5|*2) + 0.4*max(0, 1 - n/5)] clamped to
    [[0,1]], each operation being the one of [float64]. *)
Theorem calculateCredibilityScore_is_the_formula (r s : float) (n : Z) :
  calculateCredibilityScore r s n = score_formula r s n.
Proof.
  unfold calculateCredibilityScore, score_formula.
  rewrite clamp_is_clamp01, sentiment_term, larger_is_max.
  rewrite (mul_comm 0.4 r), (mul_comm 0.2), (mul_comm 0.4 (max _ _)).
  reflexivity.
Qed.

(** C4 (amended). For every finite source reputation and sentiment, inside
    [[0,1]] or not, and every flag count an [int] can hold, negative or
    not, the result of [calculateCredibilityScore] lies in [[0,1]]; for
    arbitrary [float64] arguments the result lies in [[0,1]] or is NaN,
    and it is NaN whenever the reputation or the sentiment is. *)
Theorem score_in_unit_interval (r s : float) (n : Z) :
  (finite r = true -> finite s = true -> is_int n ->
   in_unit_interval (calculateCredibilityScore r s n)) /\
  (in_unit_interval (calculateCredibilityScore r s n) \/
   PrimFloat.is_nan (calculateCredibilityScore r s n) = true) /\
  (PrimFloat.is_nan r = true \/ PrimFloat.is_nan s = true ->
   PrimFloat.is_nan (calculateCredibilityScore r s n) = true).
Proof.
  assert (G : PrimFloat.is_nan (calculateCredibilityScore r s n) = false ->
              in_unit_interval (calculateCredibilityScore r s n)).
  { rewrite calculateCredibilityScore_eq, clamp_nan.
    apply clamp_in_unit_interval. }
  split; [|split].
  - intros Fr Fs Hn. apply G, score_number; assumption.
  - destruct (PrimFloat.is_nan (calculateCredibilityScore r s n));
      [right; reflexivity|left; apply G; reflexivity].
  - rewrite calculateCredibilityScore_eq, clamp_nan. unfold score.
    intros [N|N]; apply add_nan_l.
    + apply add_nan_l, mul_nan_l, N.
    + apply add_nan_r, mul_nan_l. unfold sentimentScore.
      apply sub_nan_r, mul_nan_l. rewrite abs_nan.
      apply sub_nan_l, N.
Qed.

(** C7. For fixed source reputation and sentiment the score never grows
    with the flag count; for fixed sentiment and flag count it never
    shrinks when the source reputation grows; and for fixed reputation and
    flag count no sentiment gives more than sentiment 0.5 does. With
    finite arguments and flag counts an [int] can hold, the scores compared
    are numbers and ordered by [<=]. *)
Theorem score_is_monotone (r s : float) (n : Z) :
  (forall n', n <= n' ->
     never_exceeds (calculateCredibilityScore r s n')
                   (calculateCredibilityScore r s n)) /\
  (forall r', fle r r' ->
     never_exceeds (calculateCredibilityScore r s n)
                   (calculateCredibilityScore r' s n)) /\
  never_exceeds (calculateCredibilityScore r s n)
                (calculateCredibilityScore r 0.5 n) /\
  (finite r = true -> finite s = true -> is_int n ->
   (forall n', is_int n' -> n <= n' ->
      fle (calculateCredibilityScore r s n')
          (calculateCredibilityScore r s n)) /\
   (forall r', finite r' = true -> fle r r' ->
      fle (calculateCredibilityScore r s n)
          (calculateCredibilityScore r' s n)) /\
   fle (calculateCredibilityScore r s n)
       (calculateCredibilityScore r 0.5 n)).
Proof.
  assert (flags : forall n', n <= n' ->
            never_exceeds (calculateCredibilityScore r s n')
                          (calculateCredibilityScore r s n)).
  { intros n' H. rewrite !calculateCredibilityScore_eq.
    apply clamp_never_exceeds.
    apply score_mono_flagPenalty, flagPenalty_anti, H. }
  assert (reputation : forall r', fle r r' ->
            never_exceeds (calculateCredibilityScore r s n)
                          (calculateCredibilityScore r' s n)).
  { intros r' H. rewrite !calculateCredibilityScore_eq.
    apply clamp_never_exceeds. apply score_mono_sourceScore, H. }
  assert (neutral : never_exceeds (calculateCredibilityScore r s n)
                                  (calculateCredibilityScore r 0.5 n)).
  { rewrite !calculateCredibilityScore_eq, sentimentScore_neutral.
    apply clamp_never_exceeds. intros N N'.
    apply score_mono_sentimentScore; [|exact N|exact N'].
    apply sentimentScore_le_1.
    destruct (score_parts _ _ _ N) as (_ & _ & N3 & _).
    exact (not_nan_mul_l _ _ N3). }
  split; [exact flags|]. split; [exact reputation|].
  split; [exact neutral|]. intros Fr Fs Hn.
  pose proof (score_number r s n Fr Fs Hn) as N.
  split; [|split].
  - intros n' Hn' H. apply never_exceeds_numbers; [auto| |exact N].
    apply score_number; assumption.
  - intros r' Fr' H. apply never_exceeds_numbers; [auto|exact N|].
    apply score_number; assumption.
  - apply never_exceeds_numbers; [exact neutral|exact N|].
    apply score_number; [exact Fr|reflexivity|exact Hn].
Qed.

End CredibilityScore.

Close Scope Z_scope.

(** * The article aggregate *)

Section Timestamps.

Lemma time_Now_readings (y : Sys) : readings (snd (time_Now y)) = readings y.
Proof. reflexivity. Qed.

Lemma time_Now_ticks (y : Sys) : ticks (snd (time_Now y)) = S (ticks y).
Proof. reflexivity. Qed.

(** C6: AddFlag, UpdateScore, UpdateStatus, UpdateMetadata and the
    repository's Save and Update each read the clock and leave their last
    reading in the article's UpdatedAt; Save and Update do so whether or not
    the write to the store succeeds. *)
Theorem mutations_stamp_UpdatedAt :
  (forall flagType confidence details detectedBy a y,
     let r := AddFlag flagType confidence details detectedBy a y in
     stamped (fst r) y (snd r)) /\
  (forall score a y,
     let r := UpdateScore score a y in stamped (fst r) y (snd r)) /\
  (forall status a y,
     let r := UpdateStatus status a y in stamped (fst r) y (snd r)) /\
  (forall metadata a y,
     let r := UpdateMetadata metadata a y in stamped (fst r) y (snd r)) /\
  (forall a w,
     let r := mongodb.Save a w in
     stamped (fst (fst r)) (sys w) (sys (snd r))) /\
  (forall a w,
     let r := mongodb.Update a w in
     stamped (fst (fst r)) (sys w) (sys (snd r))).
Proof.
  unfold stamped; repeat split; intros; cbn; try lia;
    try (destruct (_ <? _)%Z; reflexivity).
  - unfold mongodb.Save, UpdateOne, on_sys; cbn.
    destruct (mongo_faults w (mongo_calls w)); cbn; [lia|].
    destruct (_ !! _); cbn; lia.
  - unfold mongodb.Save, UpdateOne, on_sys; cbn.
    destruct (IsZero (CreatedAt a));
      (destruct (mongo_faults w (mongo_calls w)); cbn;
       [reflexivity | destruct (_ !! _); reflexivity]).
  - unfold mongodb.Update, UpdateOne, on_sys; cbn.
    destruct (mongo_faults w (mongo_calls w)); cbn; [lia|].
    destruct (_ !! _); cbn; lia.
  - unfold mongodb.Update, UpdateOne, on_sys; cbn.
    destruct (mongo_faults w (mongo_calls w)); cbn; [reflexivity|].
    destruct (_ !! _); reflexivity.
Qed.

End Timestamps.

(** * The analysis service *)

Section Runs.

Variable s : application.ArticleAnalyzerService.

Lemma dom_run {A : Type} (f : Sys -> A * Sys) (st : St) :
  dom f st =
    (fst (f (sys (st_world st))),
     {| st_world := set_sys (snd (f (sys (st_world st)))) (st_world st);
        trace := trace st; stdout := stdout st |}).
Proof. unfold dom, on_sys. destruct (f _); reflexivity. Qed.

(** Bring the state reached so far to the form the paths are written in. *)
Ltac tidy :=
  cbn [fst snd st_world trace stdout] in *;
  rewrite <- ?app_assoc; cbn [app].

Ltac tidy_from tr :=
  cbn [fst snd st_world trace stdout] in *;
  rewrite <- ?(app_assoc tr); cbn [app].

(** Every run of [AnalyzeArticle] follows one of the paths. *)
Lemma AnalyzeArticle_run (article : Article) (st : St) :
  AnalyzeRun s article st (application.AnalyzeArticle s article st).
Proof.
  unfold application.AnalyzeArticle, bind, call, ret.
  destruct (AnalyzeSentiment _ _ _) as [[sentiment [e|]] w1] eqn:E1;
    tidy; [eapply run_sentiment_fails; eassumption|].
  destruct (ExtractEntities _ _ _) as [[entities [e|]] w2] eqn:E2;
    tidy; [eapply run_entities_fail; eassumption|].
  destruct (DetectBias _ _ _) as [[biasFlags [e|]] w3] eqn:E3;
    tidy; [eapply run_bias_fails; eassumption|].
  destruct (CheckFacts _ _ _) as [[factFlags [e|]] w4] eqn:E4;
    tidy; [eapply run_facts_fail; eassumption|].
  destruct (GetSourceReputation _ _ _) as [[sourceScore [e|]] w5] eqn:E5;
    tidy; [eapply run_reputation_fails; eassumption|].
  eapply run_analysed; try eassumption.
  clear E1 E2 E3 E4 E5.
  unfold analysed, dom, on_sys.
  cbn -[application.calculateCredibilityScore application.range_AddFlag
        String.eqb app].
  destruct (application.range_AddFlag biasFlags _ _ _) as [a1 y1].
  cbn -[application.calculateCredibilityScore application.range_AddFlag
        String.eqb app].
  destruct (application.range_AddFlag factFlags _ _ _) as [a2 y2].
  cbn -[application.calculateCredibilityScore application.range_AddFlag
        String.eqb app].
  destruct (0 <? _)%Z;
  cbn -[application.calculateCredibilityScore application.range_AddFlag
        String.eqb app];
  (set (a3 := set_UpdatedAt (readings y2 (S (ticks y2))) _); clearbody a3;
   unfold ev;
   match goal with
   | |- Persisted _ _ {| st_world := _; trace := ?T; stdout := _ |} _ =>
       generalize T; intros tr
   end;
   destruct (Update _ _ _) as [[a4 [e|]] w6] eqn:E6; tidy_from tr;
   [ match goal with
     | |- Persisted _ ?a ?st _ =>
         exact (persist_update_fails s a st _ _ _ E6)
     end |];
   destruct (Cache_Set _ _ _) as [e2 w7] eqn:E7; tidy_from tr;
   destruct e2 as [e2|]; unfold Printf; tidy_from tr;
   destruct (PublishArticleAnalyzed _ _ _) as [e3 w8] eqn:E8;
   destruct e3 as [e3|]; tidy_from tr;
   (destruct (String.eqb (Status a4) ArticleStatusFlagged) eqn:E9;
    tidy_from tr;
    [ destruct (PublishArticleFlagged _ _ _) as [e4 w9] eqn:E10;
      destruct e4 as [e4|]; tidy_from tr;
      match goal with
      | |- Persisted _ ?a ?st _ =>
          exact (persist_flagged s a st _ _ _ _ _ _ _ _ E6 E7 E8 E9 E10)
      end
    | match goal with
      | |- Persisted _ ?a ?st _ =>
          exact (persist_analyzed s a st _ _ _ _ _ _ E6 E7 E8 E9)
      end ])).
Qed.

(** Case analysis on the path of a run. *)
Ltac on_paths article w :=
  generalize (AnalyzeArticle_run article (start w));
  generalize (application.AnalyzeArticle s article (start w));
  let r := fresh "r" in let H := fresh "Hrun" in
  intros r H; destruct H;
  try match goal with HP : Persisted _ _ _ _ |- _ => destruct HP end;
  try match goal with a := analysed _ _ _ _ _ _ _ |- _ => subst a end;
  unfold start in *; cbn [st_world trace stdout app] in *;
  cbn [fst snd st_world trace stdout app].

(** An event found in a trace that is written out. *)
Ltac in_trace :=
  repeat match goal with
    | H : called _ _ _ |- _ =>
        destruct H as [? H]; cbn [trace In app] in H
    | H : _ \/ _ |- _ => destruct H
    | H : False |- _ => destruct H
    | H : ev _ _ _ = Build_Event _ _ _ |- _ =>
        inversion H; subst; clear H
    end.

(** C9: when one of the five upstream calls of AnalyzeArticle
    (AnalyzeSentiment, ExtractEntities, DetectBias, CheckFacts,
    GetSourceReputation) returns an error, AnalyzeArticle returns an error,
    the article is the one it was given, no call reached the repository
    or the cache to write, and nothing was printed. *)
Theorem upstream_failure_leaves_article_untouched
    (article : Article) (w : World) :
  let r := application.AnalyzeArticle s article (start w) in
  (exists m e, upstream m = true /\ called m (Some e) (snd r)) ->
  is_Some (fst (fst r)) /\
  snd (fst r) = article /\
  (forall m err, called m err (snd r) -> writes m = false) /\
  stdout (snd r) = [].
Proof.
  cbv zeta. on_paths article w; intros (m & e' & Hup & Hc);
    try (repeat split; [eexists; reflexivity | intros; in_trace; reflexivity]);
    exfalso; in_trace; discriminate.
Qed.

(** C3: in AnalyzeArticle a failure of the repository Update is returned
    as an error; once the repository write has succeeded AnalyzeArticle
    returns nil, and every failure of the cache Set, of
    PublishArticleAnalyzed or of PublishArticleFlagged is printed. *)
Theorem cache_and_event_failures_are_logged_not_returned
    (article : Article) (w : World) :
  let r := application.AnalyzeArticle s article (start w) in
  (forall e, called M_Update (Some e) (snd r) ->
     fst (fst r) = Some (Errorf "failed to update article" e)) /\
  (called M_Update None (snd r) ->
     fst (fst r) = None /\
     (forall e, called M_Cache_Set (Some e) (snd r) ->
        printed (log_line "failed to update cache: " e) (snd r)) /\
     (forall e, called M_PublishArticleAnalyzed (Some e) (snd r) ->
        printed (log_line "failed to publish article analyzed event: " e)
          (snd r)) /\
     (forall e, called M_PublishArticleFlagged (Some e) (snd r) ->
        printed (log_line "failed to publish article flagged event: " e)
          (snd r))).
Proof.
  cbv zeta. on_paths article w; split; intros; in_trace;
    try reflexivity;
    (split; [reflexivity|]);
    repeat split; intros; in_trace; unfold printed, logged;
    cbn [stdout fst snd];
    repeat match goal with
      | |- context [match ?e with Some _ => _ | None => _ end] =>
          destruct e
      end;
    rewrite ?in_app_iff; cbn [In]; tauto.
Qed.

End Runs.

(** * Flags and status *)

Section FlagsAndStatus.

Variable s : application.ArticleAnalyzerService.

Lemma AddFlag_Status flagType confidence details detectedBy
    (a : Article) (y : Sys) :
  Status (fst (AddFlag flagType confidence details detectedBy a y))
    = ArticleStatusFlagged.
Proof.
  unfold AddFlag; cbn. rewrite length_app; cbn.
  destruct (0 <? _)%Z eqn:E; [reflexivity | apply Z.ltb_ge in E; lia].
Qed.

Lemma range_AddFlag_keeps (flags : list Flag) (detectedBy : string)
    (a : Article) (y : Sys) :
  flagged_when_flags a ->
  flagged_when_flags (fst (application.range_AddFlag flags detectedBy a y)).
Proof.
  revert a y; induction flags as [|flag flags IH]; intros a y Ha;
    [exact Ha|].
  cbn [application.range_AddFlag].
  destruct (AddFlag _ _ _ _ a y) as [a' y'] eqn:E.
  apply IH. intros _.
  change a' with (fst (a', y')); rewrite <- E; apply AddFlag_Status.
Qed.

Lemma analysed_flagged sentiment entities biasFlags factFlags sourceScore
    (article : Article) (y : Sys) :
  flagged_when_flags
    (fst (analysed sentiment entities biasFlags factFlags sourceScore
            article y)).
Proof.
  unfold analysed.
  cbn -[application.calculateCredibilityScore application.range_AddFlag].
  destruct (application.range_AddFlag biasFlags _ _ _) as [a1 y1].
  destruct (application.range_AddFlag factFlags _ _ _) as [a2 y2].
  cbn -[application.calculateCredibilityScore].
  unfold application.len_Flags; cbn.
  destruct (0 <? _)%Z eqn:E; intros Hne; [reflexivity|].
  apply Z.ltb_ge in E; cbn in Hne. destruct (Flags a2); [tauto | cbn in E; lia].
Qed.

Lemma AnalyzeArticle_keeps (article : Article) (st : St) :
  keeps_flags_and_status (application.repository s) ->
  flagged_when_flags article ->
  flagged_when_flags (snd (fst (application.AnalyzeArticle s article st))).
Proof.
  intros Hrepo Ha.
  generalize (AnalyzeArticle_run s article st).
  generalize (application.AnalyzeArticle s article st).
  intros r Hrun; destruct Hrun; cbn [fst snd]; try exact Ha.
  match goal with a := analysed _ _ _ _ _ _ _ |- _ => subst a end.
  match goal with HP : Persisted _ _ _ _ |- _ => destruct HP end;
    cbn [fst snd];
    match goal with
    | H : Update _ ?x ?w = (?a1, _, _) |- _ =>
        destruct (Hrepo x w) as [Hf Hs]; rewrite H in Hf, Hs;
        cbn [fst] in Hf, Hs; unfold flagged_when_flags;
        rewrite Hf, Hs; apply analysed_flagged
    end.
Qed.

Lemma apply_op_keeps (op : Op) (a : Article) (st : St) :
  keeps_flags_and_status (application.repository s) ->
  sets_status op = false ->
  flagged_when_flags a ->
  flagged_when_flags (fst (apply_op s op a st)).
Proof.
  intros Hrepo Hop Ha.
  destruct op; try discriminate; cbn [apply_op].
  - rewrite dom_run; cbn [fst]. intros _. apply AddFlag_Status.
  - rewrite dom_run; exact Ha.
  - rewrite dom_run; exact Ha.
  - unfold bind, ret.
    pose proof (AnalyzeArticle_keeps a st Hrepo Ha) as H.
    destruct (application.AnalyzeArticle s a st) as [[err a'] st'].
    exact H.
Qed.

(** C2, as the code has it: take an article in which a flag implies the
    status FLAGGED (a new article has no flag) and a repository that hands
    back the flags and status it is given; after any sequence of AddFlag,
    UpdateScore, UpdateMetadata and AnalyzeArticle, a non-empty Flags list
    still implies the status FLAGGED. *)
Theorem flagged_status_is_kept (ops : list Op) (a : Article) (st : St) :
  keeps_flags_and_status (application.repository s) ->
  Forall (fun op => sets_status op = false) ops ->
  flagged_when_flags a ->
  flagged_when_flags (fst (run_ops s ops a st)).
Proof.
  intros Hrepo Hops; revert a st.
  induction Hops as [|op ops Hop _ IH]; intros a st Ha; [exact Ha|].
  cbn [run_ops]; unfold bind.
  pose proof (apply_op_keeps op a st Hrepo Hop Ha) as H.
  destruct (apply_op s op a st) as [a' st'].
  apply IH, H.
Qed.

End FlagsAndStatus.

Lemma mongodb_keeps_flags_and_status :
  keeps_flags_and_status mongodb.NewArticleRepository.
Proof.
  intros a w; cbn; unfold mongodb.Update, UpdateOne, on_sys; cbn.
  destruct (mongo_faults w (mongo_calls w)); cbn; [tauto|].
  destruct (_ !! _); cbn; tauto.
Qed.

(** * Lookups that find nothing *)

Section Misses.

Variable s : application.ArticleAnalyzerService.



Lemma mongodb_FindByID_miss (id : string) (w : World) :
  mongo_faults w (mongo_calls w) = None ->
  mongo_docs w !! IdString id = None ->
  fst (mongodb.FindByID id w) = (None, None).
Proof.
  intros Hfault Hmiss. unfold mongodb.FindByID, FindOne_Decode, mongo_request.
  cbn. rewrite Hfault; cbn. rewrite Hmiss. reflexivity.
Qed.

(** C10: when MongoDB answers and holds no document for the ID, FindByID
    returns a nil article and a nil error, and the GetArticle handler
    answers 200 with the body null, not 404. *)
Theorem unknown_id_is_answered_200_null (id : string) (w : World) :
  application.repository s = mongodb.NewArticleRepository ->
  mongo_faults w (mongo_calls w) = None ->
  mongo_docs w !! IdString id = None ->
  fst (mongodb.FindByID id w) = (None, None) /\
  fst (handler.GetArticle
         (handler.NewHandler (application.asArticleAnalyzer s)
            (application.asArticleManager s)) id (start w))
    = {| handler.code := 200; handler.body := handler.JNull |}.
Proof.
  intros Hrepo Hfault Hmiss.
  pose proof (mongodb_FindByID_miss id w Hfault Hmiss) as Hfind.
  split; [exact Hfind|].
  unfold handler.GetArticle, bind, ret; cbn.
  unfold application.GetArticle, call.
  rewrite Hrepo; cbn [FindByID mongodb.NewArticleRepository start st_world].
  destruct (mongodb.FindByID id w) as [[a err] w'].
  cbn [fst] in Hfind; injection Hfind as -> ->.
  reflexivity.
Qed.

End Misses.

(** * The aggregate: adding flags *)

Lemma same_submission_refl (a : Article) : same_submission a a.
Proof. repeat split. Qed.

Lemma same_submission_trans (a b c : Article) :
  same_submission a b -> same_submission b c -> same_submission a c.
Proof.
  unfold same_submission. intros H1 H2.
  repeat match goal with H : _ /\ _ |- _ => destruct H end.
  repeat split; congruence.
Qed.

Lemma AddFlag_spec flagType confidence details detectedBy
    (a : Article) (y : Sys) :
  AddFlag flagType confidence details detectedBy a y =
    ({| ID := ID a; Title := Title a; Content := Content a;
        Source := Source a; Author := Author a; Tags := Tags a;
        CreatedAt := CreatedAt a;
        UpdatedAt := readings y (S (ticks y));
        Score := Score a;
        Flags := Flags a ++
          [{| Flag_Type := flagType; Flag_Confidence := confidence;
              Flag_Details := details;
              Flag_DetectedAt := readings y (ticks y);
              Flag_DetectedBy := detectedBy |}];
        Status := ArticleStatusFlagged;
        MetaData := MetaData a |},
     {| readings := readings y; ticks := S (S (ticks y));
        uuids := uuids y; drawn := drawn y |}).
Proof.
  unfold AddFlag. cbn. rewrite length_app. cbn.
  destruct (0 <? _)%Z eqn:E; [reflexivity | apply Z.ltb_ge in E; lia].
Qed.

(** The loop over a list of detected flags, by induction on the list. *)
Lemma range_AddFlag_run (flags : list Flag) (detectedBy : string)
    (a : Article) (y : Sys) :
  Flags (fst (application.range_AddFlag flags detectedBy a y))
    = Flags a ++ imap (detected detectedBy y) flags /\
  Status (fst (application.range_AddFlag flags detectedBy a y)) =
    match flags with [] => Status a | _ :: _ => ArticleStatusFlagged end /\
  same_submission a (fst (application.range_AddFlag flags detectedBy a y)) /\
  Score (fst (application.range_AddFlag flags detectedBy a y)) = Score a /\
  MetaData (fst (application.range_AddFlag flags detectedBy a y))
    = MetaData a /\
  readings (snd (application.range_AddFlag flags detectedBy a y))
    = readings y /\
  ticks (snd (application.range_AddFlag flags detectedBy a y))
    = ticks y + 2 * length flags.
Proof.
  revert a y.
  induction flags as [|flag flags IH]; intros a y.
  - cbn. rewrite app_nil_r. repeat split; lia.
  - cbn [application.range_AddFlag]. rewrite AddFlag_spec.
    match goal with
    | |- context [application.range_AddFlag flags detectedBy ?a1 ?y1] =>
        specialize (IH a1 y1)
    end.
    destruct (application.range_AddFlag flags detectedBy _ _) as [a2 y2].
    cbn [fst snd Flags Status Score MetaData readings ticks] in *.
    destruct IH as (Hf & Hs & Hsub & Hsc & Hm & Hr & Ht).
    split.
    { rewrite Hf, <- app_assoc. f_equal. cbn [app imap]. f_equal.
      - unfold detected. rewrite Nat.mul_0_r, Nat.add_0_r. reflexivity.
      - apply imap_ext. intros i f _. unfold detected, compose.
        cbn [readings ticks]. do 2 f_equal. lia. }
    split.
    { rewrite Hs. destruct flags; reflexivity. }
    split.
    { eapply same_submission_trans; [|exact Hsub]. repeat split. }
    repeat split; try assumption. cbn [length]. lia.
Qed.

(** X1. The loop that adds a list of detected flags appends them to the
    flags the article has, in their order, each with its type, confidence
    and details, the label of the detector and the time of its own call;
    the status becomes FLAGGED as soon as one flag is added and is left
    alone when the list is empty; score, metadata and the submitted
    fields are not touched, and the clock is read twice per flag. *)
Theorem range_AddFlag_appends (flags : list Flag) (detectedBy : string)
    (a : Article) (y : Sys) :
  let r := application.range_AddFlag flags detectedBy a y in
  Flags (fst r) = Flags a ++ imap (detected detectedBy y) flags /\
  Status (fst r) =
    match flags with [] => Status a | _ :: _ => ArticleStatusFlagged end /\
  same_submission a (fst r) /\
  Score (fst r) = Score a /\ MetaData (fst r) = MetaData a /\
  readings (snd r) = readings y /\
  ticks (snd r) = ticks y + 2 * length flags.
Proof. cbv zeta. apply range_AddFlag_run. Qed.

(** * The analysis: what is written *)

Lemma map_imap_ext {A B C : Type} (g : B -> C) (h : A -> C)
    (f : nat -> A -> B) (l : list A) :
  (forall i x, g (f i x) = h x) -> map g (imap f l) = map h l.
Proof.
  revert f. induction l as [|x l IH]; intros f Hf; [reflexivity|].
  cbn [imap map]. rewrite Hf. f_equal. apply IH. intros i y. apply Hf.
Qed.

Lemma map_const_repeat {A B : Type} (b : B) (l : list A) :
  map (fun _ => b) l = repeat b (length l).
Proof. induction l; cbn; congruence. Qed.

Lemma detected_label (detectedBy : string) (y : Sys) (flags : list Flag) :
  map Flag_DetectedBy (imap (detected detectedBy y) flags)
    = repeat detectedBy (length flags).
Proof.
  rewrite (map_imap_ext _ (fun _ => detectedBy)) by reflexivity.
  apply map_const_repeat.
Qed.

(** The article the mutations of [AnalyzeArticle] produce. *)
Lemma analysed_spec sentiment entities biasFlags factFlags sourceScore
    (article : Article) (y : Sys) :
  let a := fst (analysed sentiment entities biasFlags factFlags sourceScore
                  article y) in
  same_submission article a /\
  MetaData a =
    {| Entities := entities; Sentiment := sentiment; Language := "en";
       WordCount := len_string (Content article);
       ReadingTime := Z.quot (len_string (Content article)) 200 |} /\
  map finding (Flags a)
    = map finding (Flags article ++ biasFlags ++ factFlags) /\
  map Flag_DetectedBy (Flags a)
    = map Flag_DetectedBy (Flags article)
      ++ repeat "bias_detector" (length biasFlags)
      ++ repeat "fact_checker" (length factFlags) /\
  Score a =
    application.calculateCredibilityScore sourceScore sentiment
      (Z.of_nat (length (Flags a))) /\
  Status a =
    match Flags a with
    | [] => ArticleStatusAnalyzed
    | _ :: _ => ArticleStatusFlagged
    end.
Proof.
  unfold analysed.
  cbn -[application.calculateCredibilityScore application.range_AddFlag].
  match goal with
  | |- context [application.range_AddFlag biasFlags ?l ?a1 ?y1] =>
      pose proof (range_AddFlag_run biasFlags l a1 y1) as H1;
      destruct (application.range_AddFlag biasFlags l a1 y1) as [a2 y2]
  end.
  pose proof (range_AddFlag_run factFlags "fact_checker" a2 y2) as H2.
  destruct (application.range_AddFlag factFlags _ a2 y2) as [a3 y3].
  cbv zeta in H1, H2.
  cbn [fst snd Flags MetaData set_UpdatedAt set_MetaData] in H1, H2.
  destruct H1 as (F1 & _ & S1 & _ & M1 & _).
  destruct H2 as (F2 & _ & S2 & _ & M2 & _).
  assert (S3 : same_submission article a3).
  { eapply same_submission_trans; [|exact S2].
    eapply same_submission_trans; [|exact S1]. repeat split. }
  assert (E : map finding (Flags a3)
              = map finding (Flags article ++ biasFlags ++ factFlags)).
  { rewrite F2, F1, <- app_assoc, !map_app. f_equal. f_equal;
      apply map_imap_ext; reflexivity. }
  assert (D : map Flag_DetectedBy (Flags a3)
              = map Flag_DetectedBy (Flags article)
                ++ repeat "bias_detector" (length biasFlags)
                ++ repeat "fact_checker" (length factFlags)).
  { rewrite F2, F1, <- app_assoc, !map_app. f_equal. f_equal;
      apply detected_label. }
  clear F1 F2 S1 S2.
  cbn -[application.calculateCredibilityScore].
  unfold application.len_Flags. cbn -[application.calculateCredibilityScore].
  destruct (0 <? Z.of_nat (length (Flags a3)))%Z eqn:L;
    cbn -[application.calculateCredibilityScore];
    (split; [exact S3|]); (split; [congruence|]);
    (split; [exact E|]); (split; [exact D|]); (split; [reflexivity|]).
  - destruct (Flags a3); [discriminate L|reflexivity].
  - destruct (Flags a3); [reflexivity|].
    apply Z.ltb_ge in L. cbn [length] in L. lia.
Qed.

(** The flags of the analysed article, with their detection times. *)
Lemma analysed_Flags sentiment entities biasFlags factFlags sourceScore
    (article : Article) (y : Sys) :
  exists y1 y2,
    Flags (fst (analysed sentiment entities biasFlags factFlags sourceScore
                  article y))
    = Flags article ++ imap (detected "bias_detector" y1) biasFlags
                    ++ imap (detected "fact_checker" y2) factFlags.
Proof.
  unfold analysed.
  cbn -[application.calculateCredibilityScore application.range_AddFlag].
  match goal with
  | |- context [application.range_AddFlag biasFlags ?l ?a1 ?y1] =>
      pose proof (range_AddFlag_run biasFlags l a1 y1) as H1;
      exists y1;
      destruct (application.range_AddFlag biasFlags l a1 y1) as [a2 y2]
  end.
  pose proof (range_AddFlag_run factFlags "fact_checker" a2 y2) as H2.
  exists y2.
  destruct (application.range_AddFlag factFlags _ a2 y2) as [a3 y3].
  cbv zeta in H1, H2.
  cbn [fst snd Flags MetaData set_UpdatedAt set_MetaData] in H1, H2.
  destruct H1 as (F1 & _). destruct H2 as (F2 & _).
  cbn -[application.calculateCredibilityScore].
  destruct (0 <? _)%Z; cbn -[application.calculateCredibilityScore];
    rewrite F2, F1, <- app_assoc; reflexivity.
Qed.

Section Analysis.

Variable s : application.ArticleAnalyzerService.

(** Case analysis on the path of a run of [AnalyzeArticle]. *)
Ltac paths article st :=
  generalize (AnalyzeArticle_run s article st);
  generalize (application.AnalyzeArticle s article st);
  let r := fresh "r" in let H := fresh "Hrun" in
  intros r H; destruct H;
  try match goal with HP : Persisted _ _ _ _ |- _ => destruct HP end;
  try match goal with a := analysed _ _ _ _ _ _ _ |- _ => subst a end;
  unfold start, reached in *; cbn [st_world trace stdout app] in *;
  cbn [fst snd st_world trace stdout app].

Ltac not_reached :=
  match goal with
  | H : In _ (map method _) |- _ =>
      cbn in H; repeat (destruct H as [H|H]; [discriminate H|]);
      lazymatch type of H with False => destruct H end
  end.

(** X2. When the five upstream calls of AnalyzeArticle have succeeded,
    the article it hands to the repository keeps the submitted fields of
    the article it was given; its metadata are the entities and the
    sentiment returned, the language en, the length of the content as word
    count and that length divided by 200 as reading time; its flags are
    the flags the article had, then the bias flags, then the fact flags,
    labelled bias_detector and fact_checker; its score is the credibility
    score for the reputation, the sentiment and the number of all these
    flags; its status is ANALYZED when it has no flag and FLAGGED
    otherwise. *)
Theorem AnalyzeArticle_result (article : Article) (w : World) :
  let r := application.AnalyzeArticle s article (start w) in
  reached M_Update (snd r) ->
  exists written err sentiment entities biasFlags factFlags sourceScore w5,
    upstream_results s article w sentiment entities biasFlags factFlags
      sourceScore w5 /\
    In (ev M_Update (Some written) err) (trace (snd r)) /\
    same_submission article written /\
    MetaData written =
      {| Entities := entities; Sentiment := sentiment; Language := "en";
         WordCount := len_string (Content article);
         ReadingTime := Z.quot (len_string (Content article)) 200 |} /\
    map finding (Flags written)
      = map finding (Flags article ++ biasFlags ++ factFlags) /\
    map Flag_DetectedBy (Flags written)
      = map Flag_DetectedBy (Flags article)
        ++ repeat "bias_detector" (length biasFlags)
        ++ repeat "fact_checker" (length factFlags) /\
    Score written =
      application.calculateCredibilityScore sourceScore sentiment
        (Z.of_nat (length (Flags written))) /\
    Status written =
      match Flags written with
      | [] => ArticleStatusAnalyzed
      | _ :: _ => ArticleStatusFlagged
      end.
Proof.
  cbv zeta. paths article (start w); intros Hr; try (exfalso; not_reached).
  all: eexists _, _, sentiment, entities, biasFlags, factFlags, sourceScore,
         w5.
  all: split; [do 4 eexists; repeat split; eassumption|].
  all: split; [cbn [In]; do 5 right; left; reflexivity|].
  all: apply analysed_spec.
Qed.

(** C5, as the code has it: a run of AnalyzeArticle that returns nil made
    exactly five calls to the analyzer and fact-checker interfaces
    (AnalyzeSentiment, ExtractEntities, DetectBias, CheckFacts,
    GetSourceReputation), in that order and none with an error; it then
    wrote to the repository an article whose score is the credibility
    score computed from the reputation and the sentiment these calls
    returned and from the number of flags the article then has, those it
    came with and those the calls returned; it then wrote to the cache
    the article it ends with, and then published its events. *)
Theorem AnalyzeArticle_calls_in_order (article : Article) (w : World) :
  let r := application.AnalyzeArticle s article (start w) in
  fst (fst r) = None ->
  exists (written : Article) (events : list Method)
         sentiment entities biasFlags factFlags sourceScore w5,
    map method (trace (snd r)) =
      [M_AnalyzeSentiment; M_ExtractEntities; M_DetectBias; M_CheckFacts;
       M_GetSourceReputation; M_Update; M_Cache_Set] ++ events /\
    (events = [M_PublishArticleAnalyzed] \/
     events = [M_PublishArticleAnalyzed; M_PublishArticleFlagged]) /\
    length (filter (fun e => upstream (method e) = true) (trace (snd r)))
      = 5%nat /\
    upstream_results s article w sentiment entities biasFlags factFlags
      sourceScore w5 /\
    called M_Update None (snd r) /\
    In (ev M_Update (Some written) None) (trace (snd r)) /\
    length (Flags written)
      = (length (Flags article) + length biasFlags + length factFlags)%nat /\
    Score written =
      application.calculateCredibilityScore sourceScore sentiment
        (application.len_Flags written) /\
    (exists e2,
       In (ev M_Cache_Set (Some (snd (fst r))) e2) (trace (snd r))).
Proof.
  cbv zeta. paths article (start w); intros Hnil; try discriminate.
  all: eexists _, _, sentiment, entities, biasFlags, factFlags, sourceScore,
         w5.
  all: split; [reflexivity|].
  1: split; [left; reflexivity|].
  2: split; [right; reflexivity|].
  all: split; [reflexivity|].
  all: split; [do 4 eexists; repeat split; eassumption|].
  all: split; [eexists; cbn [In]; do 5 right; left; reflexivity|].
  all: split; [cbn [In]; do 5 right; left; reflexivity|].
  all: destruct (analysed_spec sentiment entities biasFlags factFlags
                   sourceScore article (sys w5))
         as (_ & _ & Hfind & _ & Hscore & _).
  all: split;
         [apply (f_equal (@length _)) in Hfind;
          rewrite !length_map, !length_app in Hfind; lia|].
  all: split; [exact Hscore|].
  all: eexists; cbn [In]; do 6 right; left; reflexivity.
Qed.

End Analysis.

(** * The MongoDB repository *)

Section Repository.

Implicit Types (article : Article) (w : World).

(** The world after the clock was read once and MongoDB got one more
    request. *)
Lemma Save_run article w :
  let now := readings (sys w) (ticks (sys w)) in
  let saved :=
    if IsZero (CreatedAt article)
    then set_CreatedAt now (set_UpdatedAt now article)
    else set_UpdatedAt now article in
  let w1 := snd (mongo_request (set_sys (snd (time_Now (sys w))) w)) in
  mongodb.Save article w =
    match mongo_faults w (mongo_calls w) with
    | Some e => ((saved, Some e), w1)
    | None =>
        ((saved, None),
         set_mongo (<[IdUUID (ID article) := saved]> (mongo_docs w)) w1)
    end.
Proof.
  cbv zeta. unfold mongodb.Save, UpdateOne, mongo_request, on_sys.
  cbn [time_Now fst snd sys set_sys mongo_faults mongo_calls mongo_docs
       UpdatedAt set_UpdatedAt CreatedAt ID].
  destruct (mongo_faults w (mongo_calls w)) as [e|];
    destruct (IsZero (CreatedAt article)); try reflexivity;
    cbn [ID set_CreatedAt set_UpdatedAt];
    destruct (mongo_docs w !! IdUUID (ID article)); reflexivity.
Qed.

Lemma Update_run article w :
  let now := readings (sys w) (ticks (sys w)) in
  let w1 := snd (mongo_request (set_sys (snd (time_Now (sys w))) w)) in
  mongodb.Update article w =
    match mongo_faults w (mongo_calls w) with
    | Some e => ((set_UpdatedAt now article, Some e), w1)
    | None =>
        match mongo_docs w !! IdUUID (ID article) with
        | Some _ =>
            ((set_UpdatedAt now article, None),
             set_mongo (<[IdUUID (ID article) := set_UpdatedAt now article]>
                          (mongo_docs w)) w1)
        | None => ((set_UpdatedAt now article, Some ErrNoDocuments), w1)
        end
    end.
Proof.
  cbv zeta. unfold mongodb.Update, UpdateOne, mongo_request, on_sys.
  cbn [time_Now fst snd sys set_sys mongo_faults mongo_calls mongo_docs
       UpdatedAt set_UpdatedAt CreatedAt ID].
  destruct (mongo_faults w (mongo_calls w)) as [e|]; [reflexivity|].
  destruct (mongo_docs w !! IdUUID (ID article)); reflexivity.
Qed.

Lemma FindByID_run (id : string) w :
  mongodb.FindByID id w =
    (match mongo_faults w (mongo_calls w) with
     | Some e =>
         if is_ErrNoDocuments e then (None, None) else (None, Some e)
     | None =>
         match mongo_docs w !! IdString id with
         | Some doc => (Some doc, None)
         | None => (None, None)
         end
     end,
     snd (mongo_request w)).
Proof.
  unfold mongodb.FindByID, FindOne_Decode, mongo_request.
  cbn [fst snd mongo_faults mongo_calls mongo_docs].
  destruct (mongo_faults w (mongo_calls w)) as [e|].
  - destruct (is_ErrNoDocuments e); reflexivity.
  - destruct (mongo_docs w !! IdString id); reflexivity.
Qed.

(** [Update] keeps the ID and leaves Redis alone. *)
Lemma Update_leaves_redis article w :
  ID (fst (fst (mongodb.Update article w))) = ID article /\
  redis_keys (snd (mongodb.Update article w)) = redis_keys w /\
  redis_calls (snd (mongodb.Update article w)) = redis_calls w /\
  redis_now (snd (mongodb.Update article w)) = redis_now w.
Proof.
  rewrite Update_run. cbv zeta.
  destruct (mongo_faults w (mongo_calls w)); [repeat split|].
  destruct (mongo_docs w !! IdUUID (ID article)); repeat split.
Qed.

(** X3. Save stamps the article with the time it reads, and with that time
    as creation time when the article has none, whether or not the write
    succeeds.  When MongoDB answers, Save returns nil and the collection
    holds the stamped article under the article's ID, found there before
    or not, every other document being as it was; when the driver returns
    an error, Save returns that error and the collection is as it was.
    Save sends one request and leaves the Redis keys alone. *)
Theorem Save_upserts article w :
  let now := readings (sys w) (ticks (sys w)) in
  let r := mongodb.Save article w in
  let saved := fst (fst r) in
  saved =
    (if IsZero (CreatedAt article)
     then set_CreatedAt now (set_UpdatedAt now article)
     else set_UpdatedAt now article) /\
  match mongo_faults w (mongo_calls w) with
  | None =>
      snd (fst r) = None /\
      mongo_docs (snd r) !! IdUUID (ID article) = Some saved /\
      (forall k, k <> IdUUID (ID article) ->
         mongo_docs (snd r) !! k = mongo_docs w !! k)
  | Some e =>
      snd (fst r) = Some e /\ mongo_docs (snd r) = mongo_docs w
  end /\
  mongo_calls (snd r) = S (mongo_calls w) /\
  redis_keys (snd r) = redis_keys w /\ redis_calls (snd r) = redis_calls w.
Proof.
  cbv zeta. unfold mongodb.Save, UpdateOne, mongo_request, on_sys.
  cbn [time_Now fst snd sys set_sys mongo_faults mongo_calls mongo_docs
       UpdatedAt set_UpdatedAt CreatedAt ID].
  destruct (mongo_faults w (mongo_calls w)) as [e|];
    destruct (IsZero (CreatedAt article)).
  1, 2: repeat split.
  all: cbn [ID set_CreatedAt set_UpdatedAt];
    destruct (mongo_docs w !! IdUUID (ID article));
    cbn [fst snd mongo_docs set_mongo mongo_calls redis_keys redis_calls];
    repeat split;
    try apply lookup_insert_eq;
    intros k Hk; apply lookup_insert_ne; congruence.
Qed.

(** X4. Update stamps the article with the time it reads.  When MongoDB
    answers and the collection holds a document under the article's ID,
    Update returns nil and that document becomes the stamped article;
    when it holds none, Update returns ErrNoDocuments and inserts
    nothing; when the driver returns an error, Update returns it.  In
    every case the other documents are as they were. *)
Theorem Update_never_inserts article w :
  let now := readings (sys w) (ticks (sys w)) in
  let r := mongodb.Update article w in
  fst (fst r) = set_UpdatedAt now article /\
  match mongo_faults w (mongo_calls w),
        mongo_docs w !! IdUUID (ID article) with
  | None, Some _ =>
      snd (fst r) = None /\
      mongo_docs (snd r) !! IdUUID (ID article)
        = Some (set_UpdatedAt now article)
  | None, None =>
      snd (fst r) = Some ErrNoDocuments /\
      mongo_docs (snd r) = mongo_docs w
  | Some e, _ =>
      snd (fst r) = Some e /\ mongo_docs (snd r) = mongo_docs w
  end /\
  (forall k, k <> IdUUID (ID article) ->
     mongo_docs (snd r) !! k = mongo_docs w !! k) /\
  mongo_calls (snd r) = S (mongo_calls w) /\
  redis_keys (snd r) = redis_keys w /\ redis_calls (snd r) = redis_calls w.
Proof.
  cbv zeta. unfold mongodb.Update, UpdateOne, mongo_request, on_sys.
  cbn [time_Now fst snd sys set_sys mongo_faults mongo_calls mongo_docs
       UpdatedAt set_UpdatedAt CreatedAt ID].
  destruct (mongo_faults w (mongo_calls w)) as [e|]; [repeat split|].
  destruct (mongo_docs w !! IdUUID (ID article));
    cbn [fst snd mongo_docs set_mongo mongo_calls redis_keys redis_calls
         Z.eqb];
    repeat split;
    try apply lookup_insert_eq;
    intros k Hk; apply lookup_insert_ne; congruence.
Qed.

End Repository.

(** * Creating, reading and analysing through the service *)

Lemma redis_Set_mongo (article : Article) (w : World) :
  mongo_docs (snd (redis.Set_ article w)) = mongo_docs w.
Proof.
  unfold redis.Set_, json_Marshal, client_Set, redis_request.
  destruct (json_Article article); [reflexivity|].
  cbn. destruct (redis_faults w (redis_calls w)); reflexivity.
Qed.

Section Created.

Variable s : application.ArticleAnalyzerService.
Hypothesis Hrepo : application.repository s = mongodb.NewArticleRepository.

Local Set Default Proof Using "Type*".

(** X5. With the MongoDB repository, CreateArticle stores the article
    under its ID as a UUID, while GetArticle looks for a document whose ID
    is a string: creating an article changes no answer of GetArticle, and
    on a collection that holds no document under the string of the new
    article's ID, GetArticle returns a nil article and a nil error for the
    article just created. *)
Theorem created_article_is_not_found (article : Article) (w : World) :
  mongo_faults w (mongo_calls w) = None ->
  mongo_faults w (S (mongo_calls w)) = None ->
  mongo_docs w !! IdString (UUID_String (ID article)) = None ->
  let c := application.CreateArticle s article (start w) in
  let g := application.GetArticle s (UUID_String (ID article)) (snd c) in
  fst (fst c) = None /\
  mongo_docs (st_world (snd c)) !! IdUUID (ID article) = Some (snd (fst c)) /\
  (forall id,
     mongo_docs (st_world (snd c)) !! IdString id
       = mongo_docs w !! IdString id) /\
  fst g = (None, None).
Proof.
  intros F1 F2 Hmiss. cbv zeta.
  unfold application.CreateArticle, application.GetArticle, bind, call, ret.
  rewrite Hrepo.
  cbn [Save FindByID mongodb.NewArticleRepository start st_world].
  rewrite Save_run, F1. cbv zeta.
  cbn [fst snd st_world]. rewrite FindByID_run.
  cbn [fst snd mongo_request set_mongo set_sys mongo_faults mongo_calls
       mongo_docs].
  rewrite F2.
  split; [reflexivity|]. split; [apply lookup_insert_eq|].
  split; [intros id; apply lookup_insert_ne; discriminate|].
  rewrite lookup_insert_ne by discriminate. rewrite Hmiss. reflexivity.
Qed.

End Created.

(** The mocks of [main] return at once and leave the world alone. *)
Lemma mocks_results (article : Article) (w : World) sentiment entities
    biasFlags factFlags sourceScore w5 :
  upstream_results main.analyzer article w sentiment entities biasFlags
    factFlags sourceScore w5 ->
  sentiment = 0.5%float /\ entities = [] /\ biasFlags = [] /\
  factFlags = [] /\ sourceScore = 0.8%float /\ w5 = w.
Proof.
  intros (w1 & w2 & w3 & w4 & H1 & H2 & H3 & H4 & H5).
  cbn in H1, H2, H3, H4, H5.
  injection H1 as <- <-. injection H2 as <- <-. injection H3 as <- <-.
  injection H4 as <- <-. injection H5 as <- <-. repeat split.
Qed.

(** X6. With the wiring of main, whose analyzers report the sentiment
    0.5, the reputation 0.8 and no flag, an article created through the
    service can be analysed at once: when MongoDB answers both requests,
    CreateArticle and AnalyzeArticle return nil, the collection holds the
    analysed article under its ID, and that article has the flags it was
    submitted with, the score of reputation 0.8 and sentiment 0.5 for
    that number of flags, and the status ANALYZED or FLAGGED as it has no
    flag or some. *)
Theorem created_article_can_be_analysed (article : Article) (w : World) :
  mongo_faults w (mongo_calls w) = None ->
  mongo_faults w (S (mongo_calls w)) = None ->
  let c := application.CreateArticle main.analyzer article (start w) in
  let r := application.AnalyzeArticle main.analyzer (snd (fst c)) (snd c) in
  fst (fst c) = None /\ fst (fst r) = None /\
  mongo_docs (st_world (snd r)) !! IdUUID (ID article)
    = Some (snd (fst r)) /\
  Flags (snd (fst r)) = Flags article /\
  Score (snd (fst r)) =
    application.calculateCredibilityScore 0.8 0.5
      (Z.of_nat (length (Flags article))) /\
  Status (snd (fst r)) =
    match Flags article with
    | [] => ArticleStatusAnalyzed
    | _ :: _ => ArticleStatusFlagged
    end.
Proof.
  intros F1 F2. cbv zeta.
  unfold application.CreateArticle, bind, call, ret.
  cbn [application.repository main.analyzer
       application.NewArticleAnalyzerService Save
       mongodb.NewArticleRepository start st_world].
  rewrite Save_run, F1. cbv zeta. cbn [fst snd].
  set (saved := if IsZero (CreatedAt article) then _ else _).
  assert (Hid : ID saved = ID article).
  { subst saved. destruct (IsZero _); reflexivity. }
  assert (Hfl : Flags saved = Flags article).
  { subst saved. destruct (IsZero _); reflexivity. }
  clearbody saved.
  split; [reflexivity|].
  match goal with
  | |- context [application.AnalyzeArticle _ saved ?st] =>
      generalize (AnalyzeArticle_run main.analyzer saved st);
      generalize (application.AnalyzeArticle main.analyzer saved st)
  end.
  intros r Hrun.
  destruct Hrun as [? ? ? H|? ? ? ? ? H1 H|? ? ? ? ? ? ? H1 H2 H
                   |? ? ? ? ? ? ? ? ? H1 H2 H3 H
                   |? ? ? ? ? ? ? ? ? ? ? H1 H2 H3 H4 H
                   |sentiment w1 entities w2 biasFlags w3 factFlags w4
                    sourceScore w5 r H1 H2 H3 H4 H5 a HP];
    try (cbn in H; discriminate H).
  assert (Hup : upstream_results main.analyzer saved
                  (set_mongo (<[IdUUID (ID article) := saved]> (mongo_docs w))
                     (snd (mongo_request
                             (set_sys (snd (time_Now (sys w))) w))))
                  sentiment entities biasFlags factFlags sourceScore w5).
  { do 4 eexists. repeat split; eassumption. }
  apply mocks_results in Hup as (-> & -> & -> & -> & -> & ->).
  clear H1 H2 H3 H4 H5.
  pose proof (analysed_spec 0.5 [] [] [] 0.8 saved
                (sys (set_mongo (<[IdUUID (ID article) := saved]>
                                   (mongo_docs w))
                        (snd (mongo_request
                                (set_sys (snd (time_Now (sys w))) w))))))
    as Ha.
  cbv zeta in Ha. fold a in Ha.
  destruct Ha as (Hsub & _ & _ & _ & Hscore & Hstatus).
  destruct (analysed_Flags 0.5 [] [] [] 0.8 saved
              (sys (set_mongo (<[IdUUID (ID article) := saved]>
                                 (mongo_docs w))
                      (snd (mongo_request
                              (set_sys (snd (time_Now (sys w))) w))))))
    as (y1 & y2 & Hflags).
  fold a in Hflags. cbn [imap] in Hflags. rewrite !app_nil_r, Hfl in Hflags.
  assert (Hida : ID (fst a) = ID article)
    by (destruct Hsub as (<- & _); exact Hid).
  rewrite Hflags in Hscore, Hstatus.
  clearbody a. destruct a as [a y]. cbn [fst snd] in *.
  cbn [application.repository application.cache application.eventPublisher
       main.analyzer application.NewArticleAnalyzerService Update Cache_Set
       PublishArticleAnalyzed PublishArticleFlagged
       mongodb.NewArticleRepository redis.NewArticleCache
       main.mockEventPublisher] in HP.
  assert (HU : forall a1 err w6,
            mongodb.Update a
              (set_sys y
                 (set_mongo (<[IdUUID (ID article) := saved]> (mongo_docs w))
                    (snd (mongo_request
                            (set_sys (snd (time_Now (sys w))) w)))))
              = ((a1, err), w6) ->
            err = None /\
            mongo_docs w6 !! IdUUID (ID article) = Some a1 /\
            Flags a1 = Flags a /\ Score a1 = Score a /\
            Status a1 = Status a).
  { intros a1 err w6. rewrite Update_run. cbv zeta.
    cbn [mongo_faults mongo_calls mongo_docs set_sys set_mongo
         mongo_request snd fst].
    rewrite F2, Hida, lookup_insert_eq. intros [= <- <- <-].
    cbn [mongo_docs set_mongo]. rewrite lookup_insert_eq.
    repeat split. }
  unfold start in HP. cbn [st_world trace stdout] in HP.
  destruct HP as [a1 e w6 HU1 | a1 w6 e2 w7 e3 w8 HU1 HC HA HS
                 | a1 w6 e2 w7 e3 w8 e4 w9 HU1 HC HA HS HF];
    cbn [application.repository application.cache
         application.eventPublisher main.analyzer
         application.NewArticleAnalyzerService Update Cache_Set
         PublishArticleAnalyzed PublishArticleFlagged
         mongodb.NewArticleRepository redis.NewArticleCache
         main.mockEventPublisher st_world] in *;
    apply HU in HU1 as (E & Hdoc & Hf1 & Hs1 & Hst1);
    try discriminate E.
  - injection HA as <- <-.
    assert (mongo_docs w7 = mongo_docs w6)
      by (rewrite <- (redis_Set_mongo a1 w6), HC; reflexivity).
    cbn [fst snd st_world]. repeat split; congruence.
  - injection HA as <- <-. injection HF as <- <-.
    assert (mongo_docs w7 = mongo_docs w6)
      by (rewrite <- (redis_Set_mongo a1 w6), HC; reflexivity).
    cbn [fst snd st_world]. repeat split; congruence.
Qed.

(** * The Redis caches *)

Lemma getKey_inj (id id' : string) :
  redis.getKey id = redis.getKey id' -> id = id'.
Proof. unfold redis.getKey. cbn. intros [= H]. exact H. Qed.

(** Strings that are valid UTF-8 come back from the encoder as they
    are. *)
Lemma scrub_after_valid (s : string) :
  forall pending, valid_after pending s = true -> scrub_after pending s = s.
Proof.
  induction s as [|b rest IH]; intros pending H; [reflexivity|].
  cbn [valid_after scrub_after] in *.
  destruct pending as [|k]; [|f_equal; apply IH, H].
  destruct (rune_width (String b rest)) as [|k]; [discriminate H|].
  f_equal; apply IH, H.
Qed.

Lemma scrub_valid (s : string) : ValidString s = true -> scrub s = s.
Proof. apply scrub_after_valid. Qed.

Lemma map_valid {A : Type} (f : A -> A) (ok : A -> bool) (l : list A) :
  (forall x, ok x = true -> f x = x) ->
  forallb ok l = true -> map f l = l.
Proof.
  intros Hf. induction l as [|x l IH]; [reflexivity|].
  cbn. intros [Hx Hl]%andb_prop. rewrite Hf, IH; auto.
Qed.

Lemma decoded_valid (a : Article) : utf8_Article a = true -> decoded a = a.
Proof.
  unfold utf8_Article. intros H.
  repeat match type of H with
         | (_ && _)%bool = true =>
             let H' := fresh "V" in apply andb_prop in H as [H H']
         end.
  destruct a as [id title content source author tags created updated score
                 flags status [entities sentiment language words reading]].
  cbn in *. unfold decoded, decoded_Metadata. cbn.
  rewrite !scrub_valid by assumption.
  rewrite (map_valid scrub ValidString tags scrub_valid) by assumption.
  rewrite (map_valid decoded_Flag utf8_Flag flags).
  - rewrite (map_valid decoded_Entity utf8_Entity entities);
      [reflexivity| |assumption].
    intros [t v]. unfold utf8_Entity, decoded_Entity; cbn.
    intros [? ?]%andb_prop. rewrite !scrub_valid by assumption. reflexivity.
  - intros [t c d at_ by_]. unfold utf8_Flag, decoded_Flag; cbn.
    intros [[? ?]%andb_prop ?]%andb_prop.
    rewrite !scrub_valid by assumption. reflexivity.
  - assumption.
Qed.

(** A positive expiration gives the key a deadline: the millisecond of
    the request plus the lifetime. *)
Lemma positive_expiration (ttl : Duration) (now : Z) (old : option Entry) :
  (0 < ttl)%Z ->
  new_deadline (expiry ttl) now old = Some (now + lifetime ttl)%Z.
Proof.
  intros H. unfold lifetime, expiry.
  apply Z.ltb_lt in H. rewrite H.
  destruct (usePrecise ttl); reflexivity.
Qed.

(** The two adapters build the same key and store the same bytes, each
    with its own expiration. *)
Lemma Set_stores (set : Article -> World -> option error * World)
    (ttl : Duration) (article : Article) (w : World) :
  set = redis.Set_ /\ ttl = redis.ArticleCacheTTL \/ set = cache.Set_ ttl ->
  fst (set article w) = None ->
  let key := redis.getKey (UUID_String (ID article)) in
  let now := redis_now w (redis_calls w) in
  json_Article article = None /\
  redis_faults w (redis_calls w) = None /\
  snd (set article w) =
    set_redis
      (<[key := {| value_of := JSONOf article;
                   deadline := new_deadline (expiry ttl) now
                                 (live (redis_keys w) key now) |}]>
         (redis_keys w))
      (snd (redis_request w)).
Proof.
  intros [[-> ->] | ->];
    unfold redis.Set_, cache.Set_, json_Marshal, client_Set, redis_request;
    destruct (json_Article article) as [e|]; try discriminate;
    cbn [fst snd redis_faults redis_calls redis_keys redis_now];
    destruct (redis_faults w (redis_calls w)); try discriminate;
    intros _; repeat split.
Qed.

Lemma Get_reads (id : string) (w : World) :
  redis_faults w (redis_calls w) = None ->
  fst (redis.Get id w) =
    match live (redis_keys w) (redis.getKey id)
            (redis_now w (redis_calls w)) with
    | None => (None, None)
    | Some entry =>
        match json_Unmarshal (value_of entry) with
        | inl article => (Some article, None)
        | inr e => (None, Some e)
        end
    end /\
  fst (cache.Get id w) =
    match live (redis_keys w) (redis.getKey id)
            (redis_now w (redis_calls w)) with
    | None => (None, Some (ErrOther "article not found in cache"))
    | Some entry =>
        match json_Unmarshal (value_of entry) with
        | inl article => (Some article, None)
        | inr e => (None, Some (Errorf "failed to unmarshal article" e))
        end
    end.
Proof.
  intros F. unfold redis.Get, cache.Get, client_Get, redis_request.
  cbn [fst snd redis_faults redis_calls redis_keys redis_now]. rewrite F.
  change ("article:" +:+ id) with (redis.getKey id).
  destruct (live _ _ _) as [entry|]; [|split; reflexivity].
  destruct (json_Unmarshal (value_of entry)); split; reflexivity.
Qed.

(** What [Get] answers, in either adapter, in a world that holds under
    the key of [id] the encoding of [article] with the deadline [last]. *)
Lemma Get_cached (id : string) (article : Article) (last : Z) (w : World) :
  redis_keys w !! redis.getKey id
    = Some {| value_of := JSONOf article; deadline := Some last |} ->
  redis_faults w (redis_calls w) = None ->
  if (redis_now w (redis_calls w) <=? last)%Z
  then fst (redis.Get id w) = (Some (decoded article), None) /\
       fst (cache.Get id w) = (Some (decoded article), None)
  else fst (redis.Get id w) = (None, None) /\
       fst (cache.Get id w)
         = (None, Some (ErrOther "article not found in cache")).
Proof.
  intros Hkey F. destruct (Get_reads id w F) as [-> ->].
  unfold live. rewrite Hkey. cbn [deadline value_of].
  rewrite Z.ltb_antisym.
  destruct (redis_now w (redis_calls w) <=? last)%Z; split; reflexivity.
Qed.

(** X7. An article that Set has stored without error, in either Redis
    adapter and with a positive expiration, stays under the key of its ID
    for the lifetime that expiration gives, one hour with the adapter
    wired in main.  Take any world in which that key is as Set left it
    and Redis answers: while the clock of the server has not passed the
    millisecond at which it handled the Set by more than the lifetime, Get
    returns for the string of the ID, in either adapter, the article with
    its strings scrubbed, that is the article itself when its strings are
    valid UTF-8; afterwards Get finds nothing.  Set leaves the entries of
    the other IDs as they were. *)
Theorem cached_article_is_read_back
    (set : Article -> World -> option error * World) (ttl : Duration)
    (article : Article) (w w' : World) :
  set = redis.Set_ /\ ttl = redis.ArticleCacheTTL \/ set = cache.Set_ ttl ->
  (0 < ttl)%Z ->
  fst (set article w) = None ->
  let id := UUID_String (ID article) in
  let w1 := snd (set article w) in
  let last := (redis_now w (redis_calls w) + lifetime ttl)%Z in
  redis_keys w' !! redis.getKey id = redis_keys w1 !! redis.getKey id ->
  redis_faults w' (redis_calls w') = None ->
  (if (redis_now w' (redis_calls w') <=? last)%Z
   then fst (redis.Get id w') = (Some (decoded article), None) /\
        fst (cache.Get id w') = (Some (decoded article), None)
   else fst (redis.Get id w') = (None, None) /\
        fst (cache.Get id w')
          = (None, Some (ErrOther "article not found in cache"))) /\
  (utf8_Article article = true -> decoded article = article) /\
  lifetime redis.ArticleCacheTTL = 3600000%Z /\
  (forall id', id' <> id ->
     redis_keys w1 !! redis.getKey id' = redis_keys w !! redis.getKey id').
Proof.
  intros Hset Httl Hok. cbv zeta.
  destruct (Set_stores set ttl article w Hset Hok) as (_ & _ & ->).
  cbn [redis_keys set_redis].
  rewrite lookup_insert_eq, positive_expiration by exact Httl.
  intros Hkey F.
  split; [exact (Get_cached _ _ _ _ Hkey F)|].
  split; [apply decoded_valid|]. split; [reflexivity|].
  intros id' Hne.
  apply lookup_insert_ne. intros E. apply getKey_inj in E. congruence.
Qed.

(** X8. When Redis answers, Delete returns nil in either adapter, whether
    or not the ID had an entry; afterwards the ID has no entry, so that the
    Get of the adapter wired in main returns a nil article and a nil
    error and the Get of the other adapter returns an error; the entries of
    the other IDs are as they were.  When the client returns an error,
    Delete returns it, wrapped in the second adapter, and no entry
    changes. *)
Theorem Delete_removes_the_entry (id : string) (w : World) :
  let r := redis.Delete id w in
  let r' := cache.Delete id w in
  snd r' = snd r /\
  match redis_faults w (redis_calls w) with
  | None =>
      fst r = None /\ fst r' = None /\
      redis_keys (snd r) !! redis.getKey id = None /\
      (forall id', id' <> id ->
         redis_keys (snd r) !! redis.getKey id'
           = redis_keys w !! redis.getKey id') /\
      (redis_faults w (S (redis_calls w)) = None ->
       fst (redis.Get id (snd r)) = (None, None) /\
       fst (cache.Get id (snd r))
         = (None, Some (ErrOther "article not found in cache")))
  | Some e =>
      fst r = Some e /\
      fst r' = Some (Errorf "failed to delete article from cache" e) /\
      redis_keys (snd r) = redis_keys w
  end.
Proof.
  cbv zeta. unfold redis.Delete, cache.Delete, client_Del, redis_request.
  change ("article:" +:+ id) with (redis.getKey id).
  cbn [fst snd redis_faults redis_calls redis_keys].
  destruct (redis_faults w (redis_calls w)) as [e|] eqn:F;
    [repeat split|].
  cbn [fst snd redis_keys set_redis].
  split; [reflexivity|]. split; [reflexivity|]. split; [reflexivity|].
  split; [apply lookup_delete_eq|].
  split.
  - intros id' Hne. apply lookup_delete_ne.
    intros E. apply getKey_inj in E. congruence.
  - intros F'.
    match goal with
    | |- context [redis.Get id ?w1] =>
        destruct (Get_reads id w1 F') as [H1 H2]
    end.
    unfold live in H1, H2. cbn [redis_keys set_redis] in H1, H2.
    rewrite lookup_delete_eq in H1, H2. split; assumption.
Qed.

(** * Reading analysis results through the cache *)

Section ReadThrough.

Variable s : application.ArticleAnalyzerService.

(** The paths of [GetAnalysisResult]. *)
Lemma GetAnalysisResult_run (articleID : string) (st : St) :
  application.GetAnalysisResult s articleID st =
    let c := Cache_Get (application.cache s) articleID (st_world st) in
    let t1 := trace st ++ [ev M_Cache_Get None (snd (fst c))] in
    match snd (fst c) with
    | None =>
        (Returns (fst (fst c), None),
         {| st_world := snd c; trace := t1; stdout := stdout st |})
    | Some _ =>
        let f := FindByID (application.repository s) articleID (snd c) in
        let t2 := t1 ++ [ev M_FindByID None (snd (fst f))] in
        match fst f with
        | (_, Some e) =>
            (Returns (None, Some (Errorf "failed to find article" e)),
             {| st_world := snd f; trace := t2; stdout := stdout st |})
        | (None, None) =>
            (Panics nil_dereference,
             {| st_world := snd f; trace := t2; stdout := stdout st |})
        | (Some a, None) =>
            let k := Cache_Set (application.cache s) a (snd f) in
            (Returns (Some a, None),
             {| st_world := snd k;
                trace := t2 ++ [ev M_Cache_Set (Some a) (fst k)];
                stdout :=
                  logged (stdout st) "failed to update cache: " (fst k) |})
        end
    end.
Proof.
  unfold application.GetAnalysisResult, bind, call, ret. cbv zeta.
  destruct (Cache_Get _ _ _) as [[a0 [e0|]] w0]; cbn [fst snd];
    [|reflexivity].
  destruct (FindByID _ _ _) as [[[a1|] [e1|]] w1];
    cbn [fst snd st_world trace stdout]; try reflexivity.
  destruct (Cache_Set _ _ _) as [[e2|] w2]; reflexivity.
Qed.

(** X9. Once GetAnalysisResult has fetched an article from the repository
    and stored it in the cache without error, with either Redis adapter
    and a positive expiration, take any world in which the key of the
    article is as that run left it and Redis answers.  While the clock of
    the server has not passed the millisecond at which it handled the Set,
    the last Redis request of that run, by more than the lifetime of the
    expiration (one hour with the adapter wired in main), GetAnalysisResult
    for the string of the article's ID returns after a single call, the
    cache Get, the article with its strings scrubbed: the same article
    when its strings are valid UTF-8. *)
Theorem fetched_article_is_served_from_cache
    (ttl : Duration) (articleID : string) (w w' : World)
    (article : Article) :
  application.cache s = redis.NewArticleCache /\
    ttl = redis.ArticleCacheTTL \/
  application.cache s = cache.NewRedisCache ttl ->
  (0 < ttl)%Z ->
  let r := application.GetAnalysisResult s articleID (start w) in
  let w1 := st_world (snd r) in
  fst r = Returns (Some article, None) ->
  called M_Cache_Set None (snd r) ->
  UUID_String (ID article) = articleID ->
  redis_keys w' !! redis.getKey articleID
    = redis_keys w1 !! redis.getKey articleID ->
  redis_faults w' (redis_calls w') = None ->
  (redis_now w' (redis_calls w')
   <= redis_now w1 (pred (redis_calls w1)) + lifetime ttl)%Z ->
  let r' := application.GetAnalysisResult s articleID (start w') in
  fst r' = Returns (Some (decoded article), None) /\
  map method (trace (snd r')) = [M_Cache_Get] /\
  (utf8_Article article = true -> fst r' = Returns (Some article, None)).
Proof.
  intros Hcache Httl. cbv zeta. rewrite !GetAnalysisResult_run. cbv zeta.
  unfold start, called. cbn [st_world trace stdout app].
  destruct (Cache_Get (application.cache s) articleID w)
    as [[a0 [e0|]] w0]; cbn [fst snd];
    [|intros _ [x [H|[]]]; discriminate H].
  destruct (FindByID (application.repository s) articleID w0)
    as [[[a1|] [e1|]] w2]; cbn [fst snd]; try discriminate;
    try (intros _ [x [H|[H|[]]]]; discriminate H).
  destruct (Cache_Set (application.cache s) a1 w2) as [e3 w3] eqn:HS.
  cbn [fst snd st_world trace stdout app].
  intros [= <-] [x H] Hid Hkey F Hnow. cbn [In] in H.
  destruct H as [H|[H|[H|[]]]]; try discriminate H.
  injection H as _ ->.
  assert (Hget : fst (Cache_Get (application.cache s) articleID w')
                 = (Some (decoded a1), None)).
  { subst articleID.
    assert (Hw3 : exists set,
               (set = redis.Set_ /\ ttl = redis.ArticleCacheTTL \/
                set = cache.Set_ ttl) /\
               set a1 w2 = (None, w3) /\
               (Cache_Get (application.cache s) = redis.Get \/
                Cache_Get (application.cache s) = cache.Get)).
    { destruct Hcache as [[Hc Ht]|Hc]; rewrite Hc in HS |- *;
        cbn [Cache_Set Cache_Get redis.NewArticleCache cache.NewRedisCache]
          in HS |- *;
        eexists; (split; [|split; [exact HS|]]); auto. }
    destruct Hw3 as (set & Hset & HS' & HG).
    assert (Hok : fst (set a1 w2) = None) by (rewrite HS'; reflexivity).
    destruct (Set_stores set ttl a1 w2 Hset Hok) as (_ & _ & Hw3).
    rewrite HS' in Hw3. cbn [snd] in Hw3. subst w3.
    cbn [redis_keys set_redis redis_request redis_calls redis_now snd pred]
      in Hkey, Hnow.
    rewrite lookup_insert_eq, positive_expiration in Hkey by exact Httl.
    pose proof (Get_cached _ _ _ _ Hkey F) as HG'.
    apply Z.leb_le in Hnow. rewrite Hnow in HG'.
    destruct HG as [-> | ->]; apply HG'. }
  destruct (Cache_Get (application.cache s) articleID w') as [[a4 e4] w4].
  cbn [fst] in Hget. injection Hget as -> ->.
  split; [reflexivity|]. split; [reflexivity|].
  intros V. rewrite (decoded_valid _ V). reflexivity.
Qed.

End ReadThrough.

(** * Analysis and the stores *)

(** Case analysis on the path of a run of [AnalyzeArticle]. *)
Ltac analysis_paths s article st :=
  generalize (AnalyzeArticle_run s article st);
  generalize (application.AnalyzeArticle s article st);
  let r := fresh "r" in let H := fresh "Hrun" in
  intros r H; destruct H;
  try match goal with HP : Persisted _ _ _ _ |- _ => destruct HP end;
  try match goal with a := analysed _ _ _ _ _ _ _ |- _ => subst a end;
  unfold start, reached in *; cbn [st_world trace stdout app] in *;
  cbn [fst snd st_world trace stdout app].


Section Uncached.

Variable s : application.ArticleAnalyzerService.


End Uncached.

(** * Operations on a stored article *)

Section Stored.

Variable s : application.ArticleAnalyzerService.

(** The paths of [UpdateArticleStatus] and of [ReprocessArticle]. *)
Lemma UpdateArticleStatus_run (id : string) (status : ArticleStatus)
    (st : St) :
  application.UpdateArticleStatus s id status st =
    let f := FindByID (application.repository s) id (st_world st) in
    let t1 := trace st ++ [ev M_FindByID None (snd (fst f))] in
    match fst f with
    | (_, Some e) =>
        (Returns (Some e),
         {| st_world := snd f; trace := t1; stdout := stdout st |})
    | (None, None) =>
        (Panics nil_dereference,
         {| st_world := snd f; trace := t1; stdout := stdout st |})
    | (Some a, None) =>
        let u := UpdateStatus status a (sys (snd f)) in
        let p := Update (application.repository s) (fst u)
                   (set_sys (snd u) (snd f)) in
        (Returns (snd (fst p)),
         {| st_world := snd p;
            trace := t1 ++ [ev M_Update (Some (fst u)) (snd (fst p))];
            stdout := stdout st |})
    end.
Proof.
  unfold application.UpdateArticleStatus, bind, call, ret, dom, on_sys.
  cbv zeta.
  destruct (FindByID _ _ _) as [[[a1|] [e1|]] w1];
    cbn [fst snd st_world trace stdout]; try reflexivity.
  destruct (UpdateStatus status a1 (sys w1)) as [a2 y2].
  cbn [fst snd st_world trace stdout].
  destruct (Update _ _ _) as [[a3 e3] w3]. reflexivity.
Qed.

Lemma ReprocessArticle_run (articleID : string) (st : St) :
  application.ReprocessArticle s articleID st =
    let f := FindByID (application.repository s) articleID (st_world st) in
    let t1 := trace st ++ [ev M_FindByID None (snd (fst f))] in
    match fst f with
    | (_, Some e) =>
        (Returns (Some (Errorf "failed to find article" e)),
         {| st_world := snd f; trace := t1; stdout := stdout st |})
    | (None, None) =>
        (Panics nil_dereference,
         {| st_world := snd f; trace := t1; stdout := stdout st |})
    | (Some a, None) =>
        let r := application.AnalyzeArticle s (cleared a)
                   {| st_world := snd f; trace := t1;
                      stdout := stdout st |} in
        (Returns (fst (fst r)), snd r)
    end.
Proof.
  unfold application.ReprocessArticle, bind, call, ret. cbv zeta.
  destruct (FindByID _ _ _) as [[[a1|] [e1|]] w1];
    cbn [fst snd st_world trace stdout]; try reflexivity.
  fold (cleared a1).
  destruct (application.AnalyzeArticle s (cleared a1) _) as [[e2 a2] st2].
  reflexivity.
Qed.

Hypothesis Hrepo : application.repository s = mongodb.NewArticleRepository.

Local Set Default Proof Using "Type*".

(** X11. With the MongoDB repository, UpdateArticleStatus and
    ReprocessArticle on an ID for which the collection holds no document
    end in the panic of a nil pointer dereference: FindByID returns a nil
    article with a nil error, which both dereference.  The lookup is their
    only call, and the collection is as it was. *)
Theorem missing_article_panics (id : string) (status : ArticleStatus)
    (w : World) :
  mongo_faults w (mongo_calls w) = None ->
  mongo_docs w !! IdString id = None ->
  let u := application.UpdateArticleStatus s id status (start w) in
  let r := application.ReprocessArticle s id (start w) in
  fst u = Panics nil_dereference /\
  fst r = Panics nil_dereference /\
  map method (trace (snd u)) = [M_FindByID] /\
  map method (trace (snd r)) = [M_FindByID] /\
  mongo_docs (st_world (snd u)) = mongo_docs w /\
  mongo_docs (st_world (snd r)) = mongo_docs w.
Proof.
  intros F Hmiss. cbv zeta.
  rewrite UpdateArticleStatus_run, ReprocessArticle_run, Hrepo. cbv zeta.
  cbn [FindByID mongodb.NewArticleRepository start st_world trace stdout].
  rewrite FindByID_run, F, Hmiss. repeat split.
Qed.

(** X12. With the MongoDB repository, UpdateArticleStatus on an ID under
    whose string the collection holds a document loads that document and
    writes it back under its ID as a UUID.  When the collection holds a
    document there, it returns nil and that document becomes the loaded
    one with the new status, whatever flags it has; when it holds none,
    it returns ErrNoDocuments as it is.  In both cases the document under
    the string is as it was, so that GetArticle still returns the old
    status. *)
Theorem UpdateArticleStatus_writes_under_the_uuid
    (id : string) (status : ArticleStatus) (w : World) (stored : Article) :
  mongo_faults w (mongo_calls w) = None ->
  mongo_faults w (S (mongo_calls w)) = None ->
  mongo_docs w !! IdString id = Some stored ->
  let u := application.UpdateArticleStatus s id status (start w) in
  let w1 := st_world (snd u) in
  match mongo_docs w !! IdUUID (ID stored) with
  | Some _ =>
      fst u = Returns None /\
      exists written,
        mongo_docs w1 !! IdUUID (ID stored) = Some written /\
        Status written = status /\ Flags written = Flags stored /\
        Score written = Score stored /\ same_submission stored written
  | None =>
      fst u = Returns (Some ErrNoDocuments) /\ mongo_docs w1 = mongo_docs w
  end /\
  mongo_docs w1 !! IdString id = Some stored /\
  (mongo_faults w1 (mongo_calls w1) = None ->
   fst (application.GetArticle s id (start w1)) = (Some stored, None)).
Proof.
  intros F1 F2 Hdoc. cbv zeta.
  rewrite UpdateArticleStatus_run. unfold application.GetArticle, call.
  rewrite Hrepo. cbv zeta.
  cbn [FindByID Update mongodb.NewArticleRepository start st_world trace
       stdout].
  rewrite FindByID_run, F1, Hdoc. cbn [fst snd].
  rewrite Update_run. cbv zeta.
  cbn [mongo_request mongo_faults mongo_calls mongo_docs set_sys fst snd
       UpdateStatus time_Now ID set_UpdatedAt set_Status].
  rewrite F2.
  destruct (mongo_docs w !! IdUUID (ID stored)) eqn:E;
    cbn [fst snd st_world mongo_docs set_mongo mongo_faults mongo_calls].
  - split.
    { split; [reflexivity|]. eexists. split; [apply lookup_insert_eq|].
      repeat split. }
    split; [rewrite lookup_insert_ne by discriminate; exact Hdoc|].
    intros F3. rewrite FindByID_run.
    cbn [mongo_faults mongo_calls mongo_docs set_mongo fst].
    rewrite F3, lookup_insert_ne by discriminate. rewrite Hdoc. reflexivity.
  - split; [split; reflexivity|]. split; [exact Hdoc|].
    intros F3. rewrite FindByID_run.
    cbn [mongo_faults mongo_calls mongo_docs fst].
    rewrite F3, Hdoc. reflexivity.
Qed.

End Stored.

Section Reprocessing.

Variable s : application.ArticleAnalyzerService.

(** X13. When ReprocessArticle gets as far as the repository write, the
    analysis ran on the stored article with its flags, score, status and
    metadata cleared: the fact checker was given the article without
    flags, and the article handed to the repository keeps the submitted
    fields of the stored one and carries the flags of this run only, the
    bias flags then the fact flags, with the score for their number. *)
Theorem reprocessing_forgets_the_old_analysis
    (articleID : string) (w : World) :
  let r := application.ReprocessArticle s articleID (start w) in
  reached M_Update (snd r) ->
  exists stored w0 written err sentiment entities biasFlags factFlags
         sourceScore w5,
    FindByID (application.repository s) articleID w
      = ((Some stored, None), w0) /\
    upstream_results s (cleared stored) w0 sentiment entities biasFlags
      factFlags sourceScore w5 /\
    In (ev M_CheckFacts (Some (cleared stored)) None) (trace (snd r)) /\
    In (ev M_Update (Some written) err) (trace (snd r)) /\
    same_submission stored written /\
    map finding (Flags written) = map finding (biasFlags ++ factFlags) /\
    map Flag_DetectedBy (Flags written)
      = repeat "bias_detector" (length biasFlags)
        ++ repeat "fact_checker" (length factFlags) /\
    Score written =
      application.calculateCredibilityScore sourceScore sentiment
        (Z.of_nat (length biasFlags + length factFlags)) /\
    Status written =
      match Flags written with
      | [] => ArticleStatusAnalyzed
      | _ :: _ => ArticleStatusFlagged
      end.
Proof.
  cbv zeta. rewrite ReprocessArticle_run. cbv zeta.
  unfold start. cbn [st_world trace stdout app].
  destruct (FindByID (application.repository s) articleID w)
    as [[[stored|] [e|]] w0] eqn:HF; cbn [fst snd];
    try (unfold reached; cbn; intros [H|[]]; discriminate H).
  analysis_paths s (cleared stored)
    {| st_world := w0; trace := [ev M_FindByID None None];
       stdout := @nil string |};
    intros Hr;
    try (exfalso; cbn in Hr;
         repeat (destruct Hr as [Hr|Hr]; [discriminate Hr|]);
         lazymatch type of Hr with False => destruct Hr end).
  all: eexists stored, w0, _, _, sentiment, entities, biasFlags, factFlags,
         sourceScore, w5.
  all: split; [reflexivity|].
  all: split; [do 4 eexists; repeat split; eassumption|].
  all: split; [cbn [In]; do 4 right; left; reflexivity|].
  all: split; [cbn [In]; do 6 right; left; reflexivity|].
  all: match goal with
       | |- context [analysed ?a ?b ?c ?d ?e ?f ?g] =>
           destruct (analysed_spec a b c d e f g)
             as (Hsub & _ & Hfind & Hby & Hscore & Hstatus)
       end.
  all: cbn [cleared Flags set_MetaData set_Status set_Score set_Flags app map]
         in Hfind, Hby.
  all: split; [exact Hsub|]. 
  all: split; [exact Hfind|]. all: split; [exact Hby|].
  all: split; [|exact Hstatus].
  all: rewrite Hscore; do 2 f_equal;
    rewrite <- (length_map finding), Hfind, length_map, length_app;
    reflexivity.
Qed.

End Reprocessing.

(** * The HTTP handlers *)

Section Handlers.

Variable s : application.ArticleAnalyzerService.

Local Abbreviation h :=
  (handler.NewHandler (application.asArticleAnalyzer s)
     (application.asArticleManager s)).

(** The paths of the handlers over the service. *)
Lemma handler_AnalyzeArticle_run (articleID : string) (st : St) :
  handler.AnalyzeArticle h articleID st =
    let f := FindByID (application.repository s) articleID (st_world st) in
    let st1 := {| st_world := snd f;
                  trace := trace st ++ [ev M_FindByID None (snd (fst f))];
                  stdout := stdout st |} in
    match fst f with
    | (_, Some _) =>
        (Returns (handler.JSON handler.StatusNotFound
                    {[ "error" := handler.VString "Article not found" ]}),
         st1)
    | (None, None) => (Panics nil_dereference, st1)
    | (Some article, None) =>
        let r := application.AnalyzeArticle s article st1 in
        (match fst (fst r) with
         | Some e =>
             Returns (handler.JSON handler.StatusInternalServerError
                        {[ "error" := handler.VString (Error e) ]})
         | None =>
             Returns
               (handler.JSON handler.StatusOK
                  {[ "articleId" :=
                       handler.VString (UUID_String (ID (snd (fst r))));
                     "score" := handler.VFloat (Score (snd (fst r)));
                     "flags" := handler.VFlags (Flags (snd (fst r)));
                     "status" := handler.VString (Status (snd (fst r))) ]})
         end, snd r)
    end.
Proof.
  unfold handler.AnalyzeArticle, bind, ret. cbv zeta.
  cbn [handler.manager handler.analyzer handler.NewHandler
       primary.GetArticle primary.AnalyzeArticle
       application.asArticleManager application.asArticleAnalyzer].
  unfold application.GetArticle, call.
  destruct (FindByID _ _ _) as [[[a1|] [e1|]] w1];
    cbn [fst snd]; try reflexivity.
  destruct (application.AnalyzeArticle s a1 _) as [[[e2|] a2] st2];
    reflexivity.
Qed.

Lemma handler_GetAnalysisResult_run (articleID : string) (st : St) :
  handler.GetAnalysisResult h articleID st =
    let r := application.GetAnalysisResult s articleID st in
    (match fst r with
     | Panics msg => Panics msg
     | Returns (_, Some _) =>
         Returns (handler.JSON handler.StatusNotFound
                    {[ "error" :=
                         handler.VString "Analysis result not found" ]})
     | Returns (None, None) => Panics nil_dereference
     | Returns (Some article, None) =>
         Returns
           (handler.JSON handler.StatusOK
              {[ "articleId" := handler.VString (UUID_String (ID article));
                 "score" := handler.VFloat (Score article);
                 "flags" := handler.VFlags (Flags article);
                 "status" := handler.VString (Status article);
                 "metadata" := handler.VMetadata (MetaData article) ]})
     end, snd r).
Proof.
  unfold handler.GetAnalysisResult, bind, ret.
  cbn [handler.analyzer handler.NewHandler primary.GetAnalysisResult
       application.asArticleAnalyzer].
  destruct (application.GetAnalysisResult s articleID st)
    as [[[[a|] [e|]]|msg] st1]; reflexivity.
Qed.

Lemma handler_ReprocessArticle_run (articleID : string) (st : St) :
  handler.ReprocessArticle (application.asArticleReprocessor s) articleID st
  = let r := application.ReprocessArticle s articleID st in
    (match fst r with
     | Panics msg => Panics msg
     | Returns (Some e) =>
         Returns (handler.JSON handler.StatusInternalServerError
                    {[ "error" := handler.VString (Error e) ]})
     | Returns None => Returns (handler.Status_ handler.StatusAccepted)
     end, snd r).
Proof.
  unfold handler.ReprocessArticle, bind, ret.
  cbn [primary.ReprocessArticle application.asArticleReprocessor].
  destruct (application.ReprocessArticle s articleID st)
    as [[[e|]|msg] st1]; reflexivity.
Qed.

(** X14. With the MongoDB repository and the Redis cache wired in main, a
    request for an ID that neither store knows ends in the panic of a nil
    pointer dereference in three handlers: AnalyzeArticle passes the nil
    article of GetArticle on to the analysis, GetAnalysisResult reads the
    fields of the nil article the cache miss gave, and ReprocessArticle
    inherits the panic of the service.  Each made one call: the lookup in
    the repository or in the cache. *)
Theorem unknown_article_panics_the_handlers (id : string) (w : World) :
  application.repository s = mongodb.NewArticleRepository ->
  application.cache s = redis.NewArticleCache ->
  mongo_faults w (mongo_calls w) = None ->
  mongo_docs w !! IdString id = None ->
  redis_faults w (redis_calls w) = None ->
  redis_keys w !! redis.getKey id = None ->
  let a := handler.AnalyzeArticle h id (start w) in
  let g := handler.GetAnalysisResult h id (start w) in
  let p := handler.ReprocessArticle (application.asArticleReprocessor s) id
             (start w) in
  fst a = Panics nil_dereference /\
  map method (trace (snd a)) = [M_FindByID] /\
  fst g = Panics nil_dereference /\
  map method (trace (snd g)) = [M_Cache_Get] /\
  fst p = Panics nil_dereference /\
  map method (trace (snd p)) = [M_FindByID].
Proof.
  intros Hrepo Hcache F1 M1 F2 M2. cbv zeta.
  rewrite handler_AnalyzeArticle_run, handler_GetAnalysisResult_run,
    handler_ReprocessArticle_run, GetAnalysisResult_run,
    ReprocessArticle_run.
  cbv zeta. rewrite Hrepo, Hcache.
  cbn [FindByID Cache_Get mongodb.NewArticleRepository redis.NewArticleCache
       start st_world trace stdout].
  rewrite FindByID_run, F1, M1.
  destruct (Get_reads id w F2) as [HG _]. unfold live in HG.
  rewrite M2 in HG.
  destruct (redis.Get id w) as [[a0 e0] w0]. cbn [fst] in HG.
  injection HG as -> ->. repeat split.
Qed.

End Handlers.

(** ** What the handlers write *)

(** A [gin.H] with a single string is always encoded. *)
Lemma JSON_error (code : Z) (text : string) :
  handler.JSON code {[ "error" := handler.VString text ]}
  = {| handler.reply_code := code;
       handler.reply_body :=
         handler.Encoded {[ "error" := handler.VString text ]} |}.
Proof.
  unfold handler.JSON, handler.json_H, handler.sorted_fields.
  rewrite map_to_list_singleton. reflexivity.
Qed.

(** The encoder meets the values of the two analysis replies in the
    order of their keys. *)
Lemma sorted_fields_analysis (v1 v2 v3 v4 : handler.value) :
  handler.sorted_fields
    {[ "articleId" := v1; "score" := v2; "flags" := v3; "status" := v4 ]}
  = [("articleId", v1); ("flags", v3); ("score", v2); ("status", v4)].
Proof. vm_compute. reflexivity. Qed.

Lemma sorted_fields_result (v1 v2 v3 v4 v5 : handler.value) :
  handler.sorted_fields
    {[ "articleId" := v1; "score" := v2; "flags" := v3; "status" := v4;
       "metadata" := v5 ]}
  = [("articleId", v1); ("flags", v3); ("metadata", v5); ("score", v2);
     ("status", v4)].
Proof. vm_compute. reflexivity. Qed.

Lemma JSON_analysis (code : Z) (a : Article) :
  handler.JSON code
    {[ "articleId" := handler.VString (UUID_String (ID a));
       "score" := handler.VFloat (Score a);
       "flags" := handler.VFlags (Flags a);
       "status" := handler.VString (Status a) ]}
  = {| handler.reply_code := code;
       handler.reply_body :=
         match first_error [json_Flags (Flags a); json_float (Score a)] with
         | Some e => handler.Refused e
         | None =>
             handler.Encoded
               {[ "articleId" := handler.VString (UUID_String (ID a));
                  "score" := handler.VFloat (Score a);
                  "flags" := handler.VFlags (Flags a);
                  "status" := handler.VString (Status a) ]}
         end |}.
Proof.
  unfold handler.JSON, handler.json_H. rewrite sorted_fields_analysis.
  cbn [map snd handler.json_value first_error foldr].
  destruct (json_Flags (Flags a)); [reflexivity|].
  destruct (json_float (Score a)); reflexivity.
Qed.

(** The encoder accepts what it accepted in the article. *)
Lemma json_Article_parts (a : Article) :
  json_Article a = None ->
  json_float (Score a) = None /\ json_Flags (Flags a) = None /\
  json_Metadata (MetaData a) = None.
Proof.
  unfold json_Article, first_error. cbn [foldr].
  destruct (json_time (CreatedAt a)); [discriminate|].
  destruct (json_time (UpdatedAt a)); [discriminate|].
  destruct (json_float (Score a)); [discriminate|].
  destruct (json_Flags (Flags a)); [discriminate|].
  destruct (json_Metadata (MetaData a)); [discriminate|].
  repeat split.
Qed.

Lemma json_Flags_decoded (flags : list Flag) :
  json_Flags (map decoded_Flag flags) = json_Flags flags.
Proof.
  unfold json_Flags. rewrite map_map. reflexivity.
Qed.

Lemma JSON_result (code : Z) (a : Article) :
  json_Article a = None ->
  let served := decoded a in
  handler.JSON code
    {[ "articleId" := handler.VString (UUID_String (ID served));
       "score" := handler.VFloat (Score served);
       "flags" := handler.VFlags (Flags served);
       "status" := handler.VString (Status served);
       "metadata" := handler.VMetadata (MetaData served) ]}
  = {| handler.reply_code := code;
       handler.reply_body :=
         handler.Encoded
           {[ "articleId" := handler.VString (UUID_String (ID served));
              "score" := handler.VFloat (Score served);
              "flags" := handler.VFlags (Flags served);
              "status" := handler.VString (Status served);
              "metadata" := handler.VMetadata (MetaData served) ]} |}.
Proof.
  intros H. cbv zeta.
  apply json_Article_parts in H as (H1 & H2 & H3).
  unfold handler.JSON, handler.json_H. rewrite sorted_fields_result.
  cbn [map snd handler.json_value first_error foldr decoded Flags Score
       MetaData].
  rewrite json_Flags_decoded, H2.
  unfold json_Metadata, decoded_Metadata in *. cbn [Sentiment].
  rewrite H3, H1. reflexivity.
Qed.

Section Answers.

Variable s : application.ArticleAnalyzerService.

Local Abbreviation h :=
  (handler.NewHandler (application.asArticleAnalyzer s)
     (application.asArticleManager s)).

(** An event found in a trace that is written out. *)
Ltac in_trace :=
  repeat match goal with
    | H : called _ _ _ |- _ =>
        destruct H as [? H]; cbn [trace In app] in H
    | H : _ \/ _ |- _ => destruct H
    | H : False |- _ => destruct H
    | H : ev _ _ _ = Build_Event _ _ _ |- _ =>
        inversion H; subst; clear H
    | H : ev _ _ _ = ev _ _ _ |- _ =>
        inversion H; subst; clear H
    end.

(** X15. The AnalyzeArticle handler passes to c.JSON the status 404 and
    the text Article not found when the lookup of the article fails, and
    the status 500 and the text of the wrapped error when an analyzer, the
    fact checker or the repository write fails; both objects are
    encoded.  As soon as the repository write has succeeded, also when the
    cache or a publisher failed afterwards, it passes the status 200 and
    the ID, score, flags and status of the article that went to the cache:
    this object is encoded when the encoder accepts the flags and the
    score, and otherwise nothing of it is written, the encoder refusing
    first the flags (a confidence that is NaN or infinite, a detection
    time outside the years 0 to 9999), then the score (NaN or
    infinite). *)
Theorem analysis_is_answered (id : string) (w : World) :
  let r := handler.AnalyzeArticle h id (start w) in
  (forall e, called M_FindByID (Some e) (snd r) ->
     fst r = Returns
               {| handler.reply_code := 404;
                  handler.reply_body :=
                    handler.Encoded
                      {[ "error" := handler.VString "Article not found" ]} |}
     /\ map method (trace (snd r)) = [M_FindByID]) /\
  (forall m e, upstream m = true \/ m = M_Update ->
     called m (Some e) (snd r) ->
     exists step,
       fst r = Returns
                 {| handler.reply_code := 500;
                    handler.reply_body :=
                      handler.Encoded
                        {[ "error" :=
                             handler.VString (Error (Errorf step e)) ]} |}) /\
  (called M_Update None (snd r) ->
     exists a e2,
       In (ev M_Cache_Set (Some a) e2) (trace (snd r)) /\
       fst r = Returns
                 {| handler.reply_code := 200;
                    handler.reply_body :=
                      match first_error [json_Flags (Flags a);
                                         json_float (Score a)] with
                      | Some e => handler.Refused e
                      | None =>
                          handler.Encoded
                            {[ "articleId" :=
                                 handler.VString (UUID_String (ID a));
                               "score" := handler.VFloat (Score a);
                               "flags" := handler.VFlags (Flags a);
                               "status" := handler.VString (Status a) ]}
                      end |}).
Proof.
  cbv zeta. rewrite handler_AnalyzeArticle_run. cbv zeta.
  unfold start. cbn [st_world trace stdout app].
  destruct (FindByID (application.repository s) id w)
    as [[[a1|] [e1|]] w1]; cbn [fst snd].
  1, 3: (split; [intros e Hc; in_trace; split;
                 [rewrite JSON_error|]; reflexivity|]);
    (split; [intros m e [Hm| ->] Hc; in_trace; discriminate Hm|]);
    intros Hc; in_trace.
  2: (split; [intros e Hc; in_trace|]);
    (split; [intros m e [Hm| ->] Hc; in_trace; discriminate Hm|]);
    intros Hc; in_trace.
  analysis_paths s a1
    {| st_world := w1; trace := [ev M_FindByID None None];
       stdout := @nil string |}.
  all: (split; [intros e' Hc; in_trace|]).
  all: split;
    [ intros m e' [Hm| ->] Hc; in_trace; try discriminate Hm;
      (eexists; rewrite JSON_error; reflexivity)
    | intros Hc; in_trace;
      (eexists _, _; split;
       [cbn [In]; do 7 right; left; reflexivity
       |rewrite JSON_analysis; reflexivity]) ].
Qed.

End Answers.

Section Creation.

Variable s : application.ArticleAnalyzerService.
Hypothesis Hrepo : application.repository s = mongodb.NewArticleRepository.

Local Set Default Proof Using "Type*".

Local Abbreviation h :=
  (handler.NewHandler (application.asArticleAnalyzer s)
     (application.asArticleManager s)).

(** X16. The CreateArticle handler over the MongoDB repository.  A body
    that does not bind is answered 400 with the text of the binding error
    and nothing else happens: no clock is read, no ID drawn, no call made.
    Otherwise the handler draws the next ID and makes one call, Save; when
    MongoDB answers it replies 201 with that ID and the status PENDING, and
    the collection holds under that ID an article with the submitted title,
    content, source, author and tags, the status PENDING, no flag and the
    score 0; when the driver returns an error it replies 500 with the text
    of that error and the collection is as it was. *)
Theorem creation_is_answered (bound : handler.CreateRequest + error)
    (w : World) :
  let r := handler.CreateArticle h bound (start w) in
  match bound with
  | inr err =>
      fst r = handler.JSON 400 {[ "error" := handler.VString (Error err) ]}
      /\ snd r = start w
  | inl request =>
      let id := uuids (sys w) (drawn (sys w)) in
      map method (trace (snd r)) = [M_Save] /\
      drawn (sys (st_world (snd r))) = S (drawn (sys w)) /\
      match mongo_faults w (mongo_calls w) with
      | Some e =>
          fst r = handler.JSON 500 {[ "error" := handler.VString (Error e) ]}
          /\ mongo_docs (st_world (snd r)) = mongo_docs w
      | None =>
          fst r =
            handler.JSON 201
              {[ "articleId" := handler.VString (UUID_String id);
                 "status" := handler.VString ArticleStatusPending ]} /\
          exists a,
            mongo_docs (st_world (snd r)) !! IdUUID id = Some a /\
            ID a = id /\
            Title a = handler.req_Title request /\
            Content a = handler.req_Content request /\
            Source a = handler.req_Source request /\
            Author a = handler.req_Author request /\
            Tags a = handler.req_Tags request /\
            Status a = ArticleStatusPending /\
            Flags a = [] /\ Score a = 0%float
      end
  end.
Proof.
  cbv zeta. destruct bound as [request|err]; [|split; reflexivity].
  unfold handler.CreateArticle, bind, ret, dom, on_sys.
  cbn [handler.manager handler.NewHandler primary.CreateArticle
       application.asArticleManager start st_world trace stdout].
  unfold application.CreateArticle, bind, call, ret. rewrite Hrepo.
  cbn [Save mongodb.NewArticleRepository NewArticle time_Now uuid_New
       fst snd st_world trace stdout].
  rewrite Save_run. cbv zeta.
  cbn [mongo_faults mongo_calls mongo_docs set_sys sys ID CreatedAt].
  destruct (mongo_faults w (mongo_calls w)) as [e|];
    cbn [fst snd st_world trace stdout app map method ev].
  - repeat split.
  - split; [reflexivity|]. split; [reflexivity|].
    destruct (IsZero (readings (sys w) (ticks (sys w))));
      (split; [reflexivity|]); eexists;
      (split; [apply lookup_insert_eq|]); repeat split.
Qed.

End Creation.

(** X17. With the wiring of main, an article whose analysis reached the
    cache without error is what the GetAnalysisResult handler serves for
    the string of its ID during the hour that follows: take any world in
    which the key of the article is as the analysis left it and Redis
    answers, the clock of the server having not passed the millisecond at
    which it handled the Set of the analysis by more than 3600000.  The
    handler makes a single call, the cache Get, and its reply of status
    200 is encoded: it shows the ID, score, flags, status and metadata of
    the analysed article with its strings scrubbed, that is, of the
    analysed article itself when its strings are valid UTF-8. *)
Theorem analysed_article_is_served (article : Article) (w w' : World) :
  let r := application.AnalyzeArticle main.analyzer article (start w) in
  let w1 := st_world (snd r) in
  let analysed := snd (fst r) in
  let id := UUID_String (ID article) in
  called M_Cache_Set None (snd r) ->
  redis_keys w' !! redis.getKey id = redis_keys w1 !! redis.getKey id ->
  redis_faults w' (redis_calls w') = None ->
  (redis_now w' (redis_calls w')
   <= redis_now w (redis_calls w) + 3600000)%Z ->
  let g := handler.GetAnalysisResult main.handler id (start w') in
  let served := decoded analysed in
  fst g =
    Returns
      {| handler.reply_code := 200;
         handler.reply_body :=
           handler.Encoded
             {[ "articleId" := handler.VString id;
                "score" := handler.VFloat (Score served);
                "flags" := handler.VFlags (Flags served);
                "status" := handler.VString (Status served);
                "metadata" := handler.VMetadata (MetaData served) ]} |} /\
  map method (trace (snd g)) = [M_Cache_Get] /\
  (utf8_Article analysed = true -> served = analysed).
Proof.
  cbv zeta. unfold main.handler.
  rewrite handler_GetAnalysisResult_run, GetAnalysisResult_run. cbv zeta.
  assert (Hserved : forall a1 w6 w7,
    redis.Set_ a1 w6 = (None, w7) ->
    ID a1 = ID article ->
    redis_calls w6 = redis_calls w -> redis_now w6 = redis_now w ->
    redis_keys w' !! redis.getKey (UUID_String (ID article))
      = redis_keys w7 !! redis.getKey (UUID_String (ID article)) ->
    redis_faults w' (redis_calls w') = None ->
    (redis_now w' (redis_calls w')
     <= redis_now w (redis_calls w) + 3600000)%Z ->
    json_Article a1 = None /\
    fst (redis.Get (UUID_String (ID article)) w')
      = (Some (decoded a1), None)).
  { intros a1 w6 w7 HS Hid Hcalls Hclock Hkey F Hnow.
    assert (Hok : fst (redis.Set_ a1 w6) = None) by (rewrite HS; reflexivity).
    destruct (Set_stores redis.Set_ redis.ArticleCacheTTL a1 w6
                (or_introl (conj eq_refl eq_refl)) Hok)
      as (Hjson & _ & Hw).
    split; [exact Hjson|].
    rewrite HS in Hw. cbn [snd] in Hw. subst w7.
    cbn [redis_keys set_redis] in Hkey.
    rewrite Hid, lookup_insert_eq, positive_expiration in Hkey
      by reflexivity.
    rewrite Hcalls, Hclock in Hkey.
    change (lifetime redis.ArticleCacheTTL) with 3600000%Z in Hkey.
    pose proof (Get_cached _ _ _ _ Hkey F) as HG.
    apply Z.leb_le in Hnow. rewrite Hnow in HG. apply HG. }
  analysis_paths main.analyzer article (start w); intros [x Hc];
    cbn in Hc;
    repeat (destruct Hc as [Hc|Hc]; [try discriminate Hc|]);
    try (lazymatch type of Hc with False => destruct Hc end).
  all: intros Hkey F Hnow.
  all: match goal with
       | H1 : AnalyzeSentiment _ _ _ = _, H2 : ExtractEntities _ _ _ = _,
         H3 : DetectBias _ _ _ = _, H4 : CheckFacts _ _ _ = _,
         H5 : GetSourceReputation _ _ _ = _ |- _ =>
           assert (Hup : upstream_results main.analyzer article w sentiment
                           entities biasFlags factFlags sourceScore w5)
             by (do 4 eexists; repeat split; eassumption);
           apply mocks_results in Hup as (_ & _ & _ & _ & _ & ->);
           clear H1 H2 H3 H4 H5
       end.
  all: cbn [application.repository application.cache
            application.eventPublisher main.analyzer
            application.NewArticleAnalyzerService Update Cache_Set Cache_Get
            PublishArticleAnalyzed PublishArticleFlagged
            mongodb.NewArticleRepository redis.NewArticleCache
            main.mockEventPublisher] in *.
  all: repeat match goal with
         | H : (@None error, ?w) = (?e, _) |- _ => injection H as <- <-
         end.
  all: inversion Hc; subst; clear Hc.
  all: match goal with
       | HU : mongodb.Update ?x ?w5' = ((?a1, None), ?w6),
         HS : redis.Set_ ?a1 ?w6 = (None, ?w7) |- _ =>
           destruct (Update_leaves_redis x w5') as (Hid & _ & Hcalls & Hclock);
           rewrite HU in Hid, Hcalls, Hclock;
           cbn [fst snd redis_calls redis_now set_sys] in Hid, Hcalls, Hclock;
           match type of Hid with
           | context [analysed ?a ?b ?c ?d ?e ?f ?g] =>
               destruct (analysed_spec a b c d e f g) as ((Hi & _) & _)
           end;
           rewrite <- Hi in Hid;
           destruct (Hserved a1 w6 w7 HS Hid Hcalls Hclock Hkey F Hnow)
             as [Hjson HG]
       end.
  all: destruct (redis.Get (UUID_String (ID article)) w') as [[a9 e9] w9];
    cbn [fst] in HG; injection HG as -> ->; cbn [fst snd].
  all: split;
    [ f_equal; rewrite <- Hid;
      exact (JSON_result 200 _ Hjson)
    | split; [reflexivity|apply decoded_valid] ].
Qed.

Section Errors.

Variable s : application.ArticleAnalyzerService.

(** X18. Every error AnalyzeArticle returns comes from its last call, which
    is one of the five upstream calls or the repository Update, and is the
    error that call returned behind the text of its step: the message reads
    as that text, a colon and the message of the cause.  No call before the
    last one failed. *)
Theorem analysis_errors_name_the_step (article : Article) (w : World)
    (err : error) :
  let r := application.AnalyzeArticle s article (start w) in
  fst (fst r) = Some err ->
  exists m arg e before,
    trace (snd r) = before ++ [ev m arg (Some e)] /\
    (upstream m = true \/ m = M_Update) /\
    err = Errorf (failure_text m) e /\
    Error err = failure_text m +:+ ": " +:+ Error e /\
    Forall (fun c => failed c = None) before.
Proof.
  cbv zeta. analysis_paths s article (start w); intros [= <-].
  - exists M_AnalyzeSentiment, None, e, [].
    repeat split; auto.
  - exists M_ExtractEntities, None, e, [ev M_AnalyzeSentiment None None].
    repeat split; auto; repeat constructor.
  - exists M_DetectBias, None, e,
      [ev M_AnalyzeSentiment None None; ev M_ExtractEntities None None].
    repeat split; auto; repeat constructor.
  - exists M_CheckFacts, (Some article), e,
      [ev M_AnalyzeSentiment None None; ev M_ExtractEntities None None;
       ev M_DetectBias None None].
    repeat split; auto; repeat constructor.
  - exists M_GetSourceReputation, None, e,
      [ev M_AnalyzeSentiment None None; ev M_ExtractEntities None None;
       ev M_DetectBias None None; ev M_CheckFacts (Some article) None].
    repeat split; auto; repeat constructor.
  - eexists M_Update, _, e,
      [ev M_AnalyzeSentiment None None; ev M_ExtractEntities None None;
       ev M_DetectBias None None; ev M_CheckFacts (Some article) None;
       ev M_GetSourceReputation None None].
    repeat split; auto; repeat constructor.
Qed.

End Errors.

(** * Concrete runs *)

(** The analysis of a stored article with the mocks of [main]. *)
Example analysis_of_stored_article :
  let r := application.AnalyzeArticle main.analyzer example.article0
             (start example.stored_world) in
  fst (fst r) = None /\
  Score (snd (fst r)) = 0.92000000000000004%float /\
  Status (snd (fst r)) = ArticleStatusAnalyzed /\
  stdout (snd r) = [].
Proof. vm_compute. repeat split. Qed.

(** With Redis unreachable the analysis still returns nil and prints the
    failure. *)
Example analysis_with_redis_down :
  let r := application.AnalyzeArticle main.analyzer example.article0
             (start example.redis_down) in
  fst (fst r) = None /\
  stdout (snd r) =
    [log_line "failed to update cache: "
       (ErrOther "dial tcp: connection refused")].
Proof. vm_compute. repeat split. Qed.

(** An article that was never stored cannot be updated: the error of the
    repository comes back wrapped. *)
Example analysis_of_unknown_article :
  fst (fst (application.AnalyzeArticle main.analyzer example.article0
              (start example.empty_world)))
    = Some (Errorf "failed to update article" ErrNoDocuments).
Proof. vm_compute. reflexivity. Qed.

(** The second Redis adapter reports a miss as an error, so with it the
    service goes on to the repository. *)
Example sibling_cache_reports_miss :
  fst (cache.Get "a-uuid" example.empty_world)
    = (None, Some (ErrOther "article not found in cache")).
Proof. vm_compute. reflexivity. Qed.

(** Counterexample to C2 as stated: after AddFlag, UpdateStatus stores
    the status it is given, so the article has a flag and the status
    VERIFIED. *)
Lemma flag_without_flagged_status :
  let a := fst (run_ops main.analyzer
                  [OpAddFlag FlagTypeSpam 0.9 "link farm" "moderator";
                   OpUpdateStatus ArticleStatusVerified]
                  example.article0 (start example.empty_world)) in
  Flags a <> [] /\ Status a = ArticleStatusVerified /\
  Status a <> ArticleStatusFlagged.
Proof. vm_compute. repeat split; discriminate. Qed.

Lemma flagged_status_is_kept_witness :
  let ops := [OpAddFlag FlagTypeSpam 0.9 "link farm" "moderator";
              OpAnalyzeArticle; OpUpdateScore 0.25] in
  keeps_flags_and_status (application.repository main.analyzer) /\
  Forall (fun op => sets_status op = false) ops /\
  flagged_when_flags example.article0 /\
  flagged_when_flags
    (fst (run_ops main.analyzer ops example.article0
            (start example.stored_world))).
Proof.
  cbv zeta.
  assert (H1 : keeps_flags_and_status
                 (application.repository main.analyzer))
    by exact mongodb_keeps_flags_and_status.
  assert (H2 : Forall (fun op => sets_status op = false)
                 [OpAddFlag FlagTypeSpam 0.9 "link farm" "moderator";
                  OpAnalyzeArticle; OpUpdateScore 0.25])
    by (repeat constructor).
  assert (H3 : flagged_when_flags example.article0)
    by (intros H; exfalso; apply H; reflexivity).
  split; [exact H1|]. split; [exact H2|]. split; [exact H3|].
  exact (flagged_status_is_kept main.analyzer _ example.article0
           (start example.stored_world) H1 H2 H3).
Defined.

(** Counterexample to C5 as stated: the run makes five calls to the
    analyzer and fact-checker interfaces, not four. *)
Lemma five_upstream_calls_not_four :
  length (filter (fun e => upstream (method e) = true)
            (trace (snd (application.AnalyzeArticle main.analyzer
                           example.article0
                           (start example.stored_world)))))
    <> 4%nat.
Proof. vm_compute. discriminate. Qed.

Lemma AnalyzeArticle_calls_in_order_witness :
  let r := application.AnalyzeArticle main.analyzer example.article0
             (start example.stored_world) in
  fst (fst r) = None /\
  exists (written : Article) (events : list Method)
         sentiment entities biasFlags factFlags sourceScore w5,
    map method (trace (snd r)) =
      [M_AnalyzeSentiment; M_ExtractEntities; M_DetectBias; M_CheckFacts;
       M_GetSourceReputation; M_Update; M_Cache_Set] ++ events /\
    (events = [M_PublishArticleAnalyzed] \/
     events = [M_PublishArticleAnalyzed; M_PublishArticleFlagged]) /\
    length (filter (fun e => upstream (method e) = true) (trace (snd r)))
      = 5%nat /\
    upstream_results main.analyzer example.article0 example.stored_world
      sentiment entities biasFlags factFlags sourceScore w5 /\
    called M_Update None (snd r) /\
    In (ev M_Update (Some written) None) (trace (snd r)) /\
    length (Flags written)
      = (length (Flags example.article0) + length biasFlags
         + length factFlags)%nat /\
    Score written =
      application.calculateCredibilityScore sourceScore sentiment
        (application.len_Flags written) /\
    (exists e2,
       In (ev M_Cache_Set (Some (snd (fst r))) e2) (trace (snd r))).
Proof.
  cbv zeta.
  assert (H : fst (fst (application.AnalyzeArticle main.analyzer
                          example.article0 (start example.stored_world)))
              = None) by (vm_compute; reflexivity).
  split; [exact H|].
  exact (AnalyzeArticle_calls_in_order main.analyzer example.article0
           example.stored_world H).
Defined.


Lemma upstream_failure_witness :
  let r := application.AnalyzeArticle example.degraded example.article0
             (start example.stored_world) in
  (exists m e, upstream m = true /\ called m (Some e) (snd r)) /\
  is_Some (fst (fst r)) /\
  snd (fst r) = example.article0 /\
  (forall m err, called m err (snd r) -> writes m = false) /\
  stdout (snd r) = [].
Proof.
  cbv zeta.
  assert (H : exists m e, upstream m = true /\
                called m (Some e)
                  (snd (application.AnalyzeArticle example.degraded
                          example.article0 (start example.stored_world)))).
  { exists M_DetectBias, (ErrOther "bias model offline").
    split; [reflexivity|]. exists None. vm_compute.
    right; right; left; reflexivity. }
  split; [exact H|].
  exact (upstream_failure_leaves_article_untouched example.degraded
           example.article0 example.stored_world H).
Defined.

Lemma unknown_id_witness :
  application.repository main.analyzer = mongodb.NewArticleRepository /\
  mongo_faults example.stored_world (mongo_calls example.stored_world)
    = None /\
  mongo_docs example.stored_world !! IdString "no-such-article" = None /\
  fst (mongodb.FindByID "no-such-article" example.stored_world)
    = (None, None) /\
  fst (handler.GetArticle
         (handler.NewHandler (application.asArticleAnalyzer main.analyzer)
            (application.asArticleManager main.analyzer))
         "no-such-article" (start example.stored_world))
    = {| handler.code := 200; handler.body := handler.JNull |}.
Proof.
  assert (H1 : application.repository main.analyzer
               = mongodb.NewArticleRepository) by reflexivity.
  assert (H2 : mongo_faults example.stored_world
                 (mongo_calls example.stored_world) = None)
    by reflexivity.
  assert (H3 : mongo_docs example.stored_world
                 !! IdString "no-such-article" = None)
    by (vm_compute; reflexivity).
  split; [exact H1|]. split; [exact H2|]. split; [exact H3|].
  exact (unknown_id_is_answered_200_null main.analyzer "no-such-article"
           example.stored_world H1 H2 H3).
Defined.

(** ** The credibility score *)

(** A source whose reputation is not a number gets a score that is not a
    number: [min] and [max] return their second argument whenever the
    comparison fails. *)
Example score_of_nan_reputation :
  let c := application.calculateCredibilityScore nan 0.5 0 in
  PrimFloat.is_nan c = true /\ ~ in_unit_interval c.
Proof.
  cbv zeta. split; [reflexivity|].
  intros [H _]. vm_compute in H. discriminate H.
Qed.

(** Infinite arguments can cancel to the same effect. *)
Example score_of_infinite_arguments :
  PrimFloat.is_nan
    (application.calculateCredibilityScore infinity infinity 0) = true.
Proof. reflexivity. Qed.

Lemma score_in_unit_interval_witness :
  finite (-3.5) = true /\ finite 1e300 = true /\ is_int (-7) /\
  in_unit_interval
    (application.calculateCredibilityScore (-3.5) 1e300 (-7)).
Proof.
  assert (H1 : finite (-3.5) = true) by reflexivity.
  assert (H2 : finite 1e300 = true) by reflexivity.
  assert (H3 : is_int (-7)) by (unfold is_int; lia).
  split; [exact H1|]. split; [exact H2|]. split; [exact H3|].
  exact (proj1 (score_in_unit_interval (-3.5)%float 1e300%float (-7)%Z)
           H1 H2 H3).
Defined.

Lemma score_is_monotone_witness :
  fle (application.calculateCredibilityScore 0.8 0.9 3)
      (application.calculateCredibilityScore 0.8 0.9 1) /\
  fle (application.calculateCredibilityScore 0.8 0.9 1)
      (application.calculateCredibilityScore 0.95 0.9 1) /\
  fle (application.calculateCredibilityScore 0.8 0.9 1)
      (application.calculateCredibilityScore 0.8 0.5 1).
Proof.
  assert (Hn : is_int 1) by (unfold is_int; lia).
  assert (Hn' : is_int 3) by (unfold is_int; lia).
  assert (Hr : fle 0.8 0.95) by reflexivity.
  destruct (score_is_monotone 0.8%float 0.9%float 1%Z) as (_ & _ & _ & H).
  destruct (H eq_refl eq_refl Hn) as (H1 & H2 & H3).
  split; [apply (H1 3%Z Hn'); lia|].
  split; [apply (H2 0.95%float eq_refl Hr)|exact H3].
Defined.

(** ** The stores and the handlers *)

(** The analysis of the stored article reaches the repository with an
    article that has no flag and the status ANALYZED. *)
Lemma AnalyzeArticle_result_witness :
  let r := application.AnalyzeArticle main.analyzer example.article0
             (start example.stored_world) in
  reached M_Update (snd r) /\
  exists written err,
    In (ev M_Update (Some written) err) (trace (snd r)) /\
    same_submission example.article0 written /\
    Status written =
      match Flags written with
      | [] => ArticleStatusAnalyzed
      | _ :: _ => ArticleStatusFlagged
      end.
Proof.
  cbv zeta.
  assert (H : reached M_Update
                (snd (application.AnalyzeArticle main.analyzer
                        example.article0 (start example.stored_world)))).
  { vm_compute. do 5 right. left. reflexivity. }
  split; [exact H|].
  destruct (AnalyzeArticle_result main.analyzer example.article0
              example.stored_world H)
    as (written & err & sentiment & entities & biasFlags & factFlags
        & sourceScore & w5 & _ & Hin & Hsub & _ & _ & _ & _ & Hstatus).
  exists written, err.
  split; [exact Hin|]. split; [exact Hsub|exact Hstatus].
Defined.

Lemma created_article_is_not_found_witness :
  let c := application.CreateArticle main.analyzer example.article0
             (start example.empty_world) in
  fst (fst c) = None /\
  fst (application.GetArticle main.analyzer
         (UUID_String (ID example.article0)) (snd c)) = (None, None).
Proof.
  cbv zeta.
  destruct (created_article_is_not_found main.analyzer eq_refl
              example.article0 example.empty_world eq_refl eq_refl eq_refl)
    as (H1 & _ & _ & H2).
  split; [exact H1|exact H2].
Defined.

Lemma created_article_can_be_analysed_witness :
  let c := application.CreateArticle main.analyzer example.article0
             (start example.empty_world) in
  let r := application.AnalyzeArticle main.analyzer (snd (fst c)) (snd c) in
  fst (fst r) = None /\ Status (snd (fst r)) = ArticleStatusAnalyzed.
Proof.
  cbv zeta.
  destruct (created_article_can_be_analysed example.article0
              example.empty_world eq_refl eq_refl)
    as (_ & H1 & _ & _ & _ & H2).
  split; [exact H1|exact H2].
Defined.

Lemma cached_article_is_read_back_witness :
  let w1 := snd (redis.Set_ example.article0 example.empty_world) in
  (0 < redis.ArticleCacheTTL)%Z /\
  fst (redis.Set_ example.article0 example.empty_world) = None /\
  redis_faults w1 (redis_calls w1) = None /\
  fst (redis.Get "a-uuid" w1) = (Some example.article0, None) /\
  fst (cache.Get "a-uuid" w1) = (Some example.article0, None).
Proof.
  cbv zeta.
  assert (Httl : (0 < redis.ArticleCacheTTL)%Z) by reflexivity.
  assert (H : fst (redis.Set_ example.article0 example.empty_world) = None)
    by (vm_compute; reflexivity).
  assert (F : redis_faults
                (snd (redis.Set_ example.article0 example.empty_world))
                (redis_calls
                   (snd (redis.Set_ example.article0 example.empty_world)))
              = None) by (vm_compute; reflexivity).
  destruct (cached_article_is_read_back redis.Set_ redis.ArticleCacheTTL
              example.article0 example.empty_world
              (snd (redis.Set_ example.article0 example.empty_world))
              (or_introl (conj eq_refl eq_refl)) Httl H eq_refl F)
    as (Hget & Hvalid & _).
  assert (Hnow : (redis_now
                    (snd (redis.Set_ example.article0 example.empty_world))
                    (redis_calls
                       (snd (redis.Set_ example.article0
                               example.empty_world)))
                  <=? redis_now example.empty_world
                        (redis_calls example.empty_world)
                      + lifetime redis.ArticleCacheTTL)%Z = true)
    by (vm_compute; reflexivity).
  rewrite Hnow, (Hvalid ltac:(vm_compute; reflexivity)) in Hget.
  split; [exact Httl|]. split; [exact H|]. split; [exact F|]. exact Hget.
Defined.

Lemma fetched_article_is_served_from_cache_witness :
  let r := application.GetAnalysisResult main.analyzer "a-uuid"
             (start example.foreign_world) in
  let w1 := st_world (snd r) in
  let r' := application.GetAnalysisResult main.analyzer "a-uuid"
              (start w1) in
  map method (trace (snd r)) = [M_Cache_Get; M_FindByID; M_Cache_Set] /\
  fst r = Returns (Some example.article0, None) /\
  (redis_now w1 (redis_calls w1)
   <= redis_now w1 (pred (redis_calls w1))
      + lifetime redis.ArticleCacheTTL)%Z /\
  fst r' = Returns (Some example.article0, None) /\
  map method (trace (snd r')) = [M_Cache_Get].
Proof.
  cbv zeta.
  assert (H1 : fst (application.GetAnalysisResult main.analyzer "a-uuid"
                      (start example.foreign_world))
               = Returns (Some example.article0, None))
    by (vm_compute; reflexivity).
  assert (H2 : called M_Cache_Set None
                 (snd (application.GetAnalysisResult main.analyzer "a-uuid"
                         (start example.foreign_world)))).
  { exists (Some example.article0). vm_compute. do 2 right. left.
    reflexivity. }
  assert (H3 : (redis_now
                  (st_world
                     (snd (application.GetAnalysisResult main.analyzer
                             "a-uuid" (start example.foreign_world))))
                  (redis_calls
                     (st_world
                        (snd (application.GetAnalysisResult main.analyzer
                                "a-uuid" (start example.foreign_world)))))
                <= redis_now
                     (st_world
                        (snd (application.GetAnalysisResult main.analyzer
                                "a-uuid" (start example.foreign_world))))
                     (pred
                        (redis_calls
                           (st_world
                              (snd (application.GetAnalysisResult
                                      main.analyzer "a-uuid"
                                      (start example.foreign_world))))))
                   + lifetime redis.ArticleCacheTTL)%Z)
    by (vm_compute; discriminate).
  split; [vm_compute; reflexivity|]. split; [exact H1|].
  split; [exact H3|].
  destruct (fetched_article_is_served_from_cache main.analyzer
              redis.ArticleCacheTTL "a-uuid" example.foreign_world
              (st_world
                 (snd (application.GetAnalysisResult main.analyzer "a-uuid"
                         (start example.foreign_world))))
              example.article0 (or_introl (conj eq_refl eq_refl)) eq_refl
              H1 H2 eq_refl eq_refl eq_refl H3)
    as (_ & Htrace & Hsame).
  split; [apply Hsame; vm_compute; reflexivity|exact Htrace].
Defined.


Lemma missing_article_panics_witness :
  fst (application.UpdateArticleStatus main.analyzer "no-such-article"
         ArticleStatusVerified (start example.stored_world))
    = Panics nil_dereference /\
  fst (application.ReprocessArticle main.analyzer "no-such-article"
         (start example.stored_world))
    = Panics nil_dereference.
Proof.
  destruct (missing_article_panics main.analyzer eq_refl "no-such-article"
              ArticleStatusVerified example.stored_world eq_refl
              ltac:(vm_compute; reflexivity))
    as (H1 & H2 & _).
  split; [exact H1|exact H2].
Defined.

Lemma UpdateArticleStatus_writes_under_the_uuid_witness :
  let u := application.UpdateArticleStatus main.analyzer "a-uuid"
             ArticleStatusVerified (start example.foreign_world) in
  let w1 := st_world (snd u) in
  mongo_docs example.foreign_world !! IdString "a-uuid"
    = Some example.article0 /\
  mongo_docs w1 !! IdString "a-uuid" = Some example.article0 /\
  fst (application.GetArticle main.analyzer "a-uuid" (start w1))
    = (Some example.article0, None).
Proof.
  cbv zeta.
  assert (H : mongo_docs example.foreign_world !! IdString "a-uuid"
              = Some example.article0) by (vm_compute; reflexivity).
  destruct (UpdateArticleStatus_writes_under_the_uuid main.analyzer eq_refl
              "a-uuid" ArticleStatusVerified example.foreign_world
              example.article0 eq_refl eq_refl H)
    as (_ & H1 & H2).
  split; [exact H|]. split; [exact H1|]. apply H2. reflexivity.
Defined.

Lemma reprocessing_forgets_the_old_analysis_witness :
  let r := application.ReprocessArticle main.analyzer "a-uuid"
             (start example.foreign_world) in
  reached M_Update (snd r) /\
  exists written err,
    In (ev M_Update (Some written) err) (trace (snd r)) /\
    Flags written = [].
Proof.
  cbv zeta.
  assert (H : reached M_Update
                (snd (application.ReprocessArticle main.analyzer "a-uuid"
                        (start example.foreign_world)))).
  { vm_compute. do 6 right. left. reflexivity. }
  split; [exact H|].
  destruct (reprocessing_forgets_the_old_analysis main.analyzer "a-uuid"
              example.foreign_world H)
    as (stored & w0 & written & err & sentiment & entities & biasFlags
        & factFlags & sourceScore & w5 & _ & Hup & _ & Hin & _ & Hfind & _).
  exists written, err. split; [exact Hin|].
  apply mocks_results in Hup as (_ & _ & -> & -> & _).
  destruct (Flags written); [reflexivity|discriminate Hfind].
Defined.

Lemma unknown_article_panics_the_handlers_witness :
  fst (handler.AnalyzeArticle main.handler "no-such-article"
         (start example.stored_world)) = Panics nil_dereference /\
  fst (handler.GetAnalysisResult main.handler "no-such-article"
         (start example.stored_world)) = Panics nil_dereference /\
  fst (handler.ReprocessArticle
         (application.asArticleReprocessor main.analyzer) "no-such-article"
         (start example.stored_world)) = Panics nil_dereference.
Proof.
  destruct (unknown_article_panics_the_handlers main.analyzer
              "no-such-article" example.stored_world eq_refl eq_refl eq_refl
              ltac:(vm_compute; reflexivity) eq_refl
              ltac:(vm_compute; reflexivity))
    as (H1 & _ & H2 & _ & H3 & _).
  split; [exact H1|]. split; [exact H2|exact H3].
Defined.

Lemma creation_is_answered_witness :
  let request :=
    {| handler.req_Title := "Title"; handler.req_Content := "Some content";
       handler.req_Source := "example.org";
       handler.req_Author := "A. Author"; handler.req_Tags := [] |} in
  fst (handler.CreateArticle main.handler (inl request)
         (start example.empty_world))
    = handler.JSON 201
        {[ "articleId" := handler.VString "a-uuid";
           "status" := handler.VString "PENDING" ]} /\
  fst (handler.CreateArticle main.handler
         (inr (ErrOther "EOF")) (start example.empty_world))
    = handler.JSON 400 {[ "error" := handler.VString "EOF" ]}.
Proof.
  cbv zeta. split.
  - apply (creation_is_answered main.analyzer eq_refl
             (inl {| handler.req_Title := "Title";
                     handler.req_Content := "Some content";
                     handler.req_Source := "example.org";
                     handler.req_Author := "A. Author";
                     handler.req_Tags := [] |}) example.empty_world).
  - apply (creation_is_answered main.analyzer eq_refl
             (inr (ErrOther "EOF")) example.empty_world).
Defined.

Lemma analysed_article_is_served_witness :
  let r := application.AnalyzeArticle main.analyzer example.article0
             (start example.stored_world) in
  let w1 := st_world (snd r) in
  let g := handler.GetAnalysisResult main.handler "a-uuid" (start w1) in
  called M_Cache_Set None (snd r) /\
  redis_faults w1 (redis_calls w1) = None /\
  (redis_now w1 (redis_calls w1)
   <= redis_now example.stored_world (redis_calls example.stored_world)
      + 3600000)%Z /\
  map method (trace (snd g)) = [M_Cache_Get] /\
  exists body,
    fst g = Returns {| handler.reply_code := 200;
                       handler.reply_body := handler.Encoded body |} /\
    body !! "status" = Some (handler.VString "ANALYZED").
Proof.
  cbv zeta.
  assert (H : called M_Cache_Set None
                (snd (application.AnalyzeArticle main.analyzer
                        example.article0 (start example.stored_world)))).
  { eexists. vm_compute. do 6 right. left. reflexivity. }
  assert (F : redis_faults
                (st_world
                   (snd (application.AnalyzeArticle main.analyzer
                           example.article0 (start example.stored_world))))
                (redis_calls
                   (st_world
                      (snd (application.AnalyzeArticle main.analyzer
                              example.article0
                              (start example.stored_world)))))
              = None) by (vm_compute; reflexivity).
  assert (Hnow : (redis_now
                    (st_world
                       (snd (application.AnalyzeArticle main.analyzer
                               example.article0
                               (start example.stored_world))))
                    (redis_calls
                       (st_world
                          (snd (application.AnalyzeArticle main.analyzer
                                  example.article0
                                  (start example.stored_world)))))
                  <= redis_now example.stored_world
                       (redis_calls example.stored_world) + 3600000)%Z)
    by (vm_compute; discriminate).
  split; [exact H|]. split; [exact F|]. split; [exact Hnow|].
  destruct (analysed_article_is_served example.article0
              example.stored_world
              (st_world
                 (snd (application.AnalyzeArticle main.analyzer
                         example.article0 (start example.stored_world))))
              H eq_refl F Hnow) as (H1 & H2 & _).
  split; [exact H2|]. eexists. split; [exact H1|].
  vm_compute. reflexivity.
Defined.

Lemma analysis_errors_name_the_step_witness :
  let r := application.AnalyzeArticle example.degraded example.article0
             (start example.stored_world) in
  fst (fst r)
    = Some (Errorf "failed to detect bias"
              (ErrOther "bias model offline")) /\
  exists m arg e before,
    trace (snd r) = before ++ [ev m arg (Some e)] /\
    Error (Errorf "failed to detect bias" (ErrOther "bias model offline"))
      = failure_text m +:+ ": " +:+ Error e.
Proof.
  cbv zeta.
  assert (H : fst (fst (application.AnalyzeArticle example.degraded
                          example.article0 (start example.stored_world)))
              = Some (Errorf "failed to detect bias"
                        (ErrOther "bias model offline")))
    by (vm_compute; reflexivity).
  split; [exact H|].
  destruct (analysis_errors_name_the_step example.degraded example.article0
              example.stored_world _ H)
    as (m & arg & e & before & Ht & _ & _ & He & _).
  exists m, arg, e, before. split; [exact Ht|exact He].
Defined.

(** ** The cache and the encoder on concrete articles *)

(** A cached article is read back within the hour and is gone after it. *)
Example cached_article_expires :
  let w1 := snd (redis.Set_ example.article0 example.empty_world) in
  fst (redis.Get "a-uuid" w1) = (Some example.article0, None) /\
  fst (redis.Get "a-uuid" (example.later w1)) = (None, None) /\
  fst (cache.Get "a-uuid" (example.later w1))
    = (None, Some (ErrOther "article not found in cache")).
Proof. vm_compute. repeat split. Qed.

(** A title that is not valid UTF-8 comes back with U+FFFD in the place
    of the offending byte. *)
Example mangled_title_is_scrubbed :
  let w1 := snd (redis.Set_ example.mangled example.empty_world) in
  ValidString (Title example.mangled) = false /\
  fst (redis.Set_ example.mangled example.empty_world) = None /\
  exists a,
    fst (redis.Get "a-uuid" w1) = (Some a, None) /\
    Title a = replacement +:+ "x" /\ a <> example.mangled.
Proof.
  cbv zeta. split; [reflexivity|]. split; [vm_compute; reflexivity|].
  eexists. split; [vm_compute; reflexivity|].
  split; [reflexivity|]. discriminate.
Qed.

(** An instant of year 10000 is refused by the encoder, and so is the
    article that carries it. *)
Example year_10000_is_not_cached :
  let a := set_UpdatedAt year_10000 example.article0 in
  fst (redis.Set_ a example.empty_world)
  = Some (ErrOther
            ("json: error calling MarshalJSON for type time.Time: "
             +:+ "Time.MarshalJSON: year outside of range [0,9999]")) /\
  redis_keys (snd (redis.Set_ a example.empty_world))
  = redis_keys example.empty_world.
Proof. vm_compute. split; reflexivity. Qed.

(** With a source whose reputation is not a number, the analysis of a
    stored article succeeds and the handler passes the status 200 to
    c.JSON, but the encoder refuses the score and no body is written. *)
Example unrated_analysis_is_not_rendered :
  fst (handler.AnalyzeArticle
         (handler.NewHandler (application.asArticleAnalyzer example.unrated)
            (application.asArticleManager example.unrated))
         "a-uuid" (start example.foreign_world))
  = Returns {| handler.reply_code := 200;
               handler.reply_body :=
                 handler.Refused
                   (ErrOther "json: unsupported value: NaN") |}.
Proof. vm_compute. reflexivity. Qed.
